(** * Key-moment extraction and adaptive search of the meeting MCP server

    A shallow embedding of the heuristic core of the server:
    - [src/tools/links.ts]: transcript chunking, segment importance scoring,
      structural segments, ranking, deduplication and the key-moments report;
    - [src/tools/search.ts]: the transcript and video-segment searches, the
      tiered [intelligentSearch] orchestrator and the recent-bots tracking.

    Conventions of the model.
    - JavaScript numbers that hold seconds, counts and scores are integers
      ([Z]); a string is a sequence of code units below 256 ([string]).  The
      pictographs of the report templates lie outside that range; they are
      written as they are in the source and are only ever appended to the
      output.
    - [Array.prototype.sort] is stable (ECMAScript 2019), so a sort with a
      comparator [(a, b) => key a - key b] is a stable insertion by key.
    - Logging calls have no effect on results and are left out. *)

From Stdlib Require Import List String Ascii ZArith Lia Bool Arith.
From Stdlib Require Import Sorting.Sorted Sorting.Permutation.
Import ListNotations.
Local Open Scope string_scope.
Local Open Scope list_scope.
Local Open Scope Z_scope.

Set Implicit Arguments.

(** ** Transcripts, as declared in [src/types/index.ts]

    [end_time] is the optional field that [ExtendedTranscript] adds in
    [search.ts].  [links.ts] guards against an absent [words] array; an absent
    array and an empty one behave alike there (both give the empty text), so
    [words] is a list. *)
Record Transcript := mkTranscript {
  speaker : string;
  start_time : Z;
  end_time : option Z;
  words : list string
}.

(** ** JavaScript string and array primitives used by the tools *)
Module Js.

Definition codeUnit (c : ascii) : nat := nat_of_ascii c.

Definition inRange (lo hi : nat) (c : ascii) : bool :=
  (lo <=? codeUnit c)%nat && (codeUnit c <=? hi)%nat.

(** White space of [\s] and of [trim], among the code units below 256:
    TAB, LF, VT, FF, CR, space and no-break space. *)
Definition isWhiteSpace (c : ascii) : bool :=
  inRange 9 13 c || Nat.eqb (codeUnit c) 32 || Nat.eqb (codeUnit c) 160.

Definition isDigit (c : ascii) : bool := inRange 48 57 c.
Definition isUpperAscii (c : ascii) : bool := inRange 65 90 c.
Definition isLowerAscii (c : ascii) : bool := inRange 97 122 c.

(** [\w] is [[A-Za-z0-9_]]. *)
Definition isWordChar (c : ascii) : bool :=
  isUpperAscii c || isLowerAscii c || isDigit c || Nat.eqb (codeUnit c) 95.

Definition asciiToLower (c : ascii) : ascii :=
  if isUpperAscii c then ascii_of_nat (codeUnit c + 32) else c.

Definition asciiToUpper (c : ascii) : ascii :=
  if isLowerAscii c then ascii_of_nat (codeUnit c - 32) else c.

(** [String.prototype.toLowerCase] on one code unit below 256: the ASCII
    capitals and the Latin-1 capitals 0xC0-0xDE (but the sign 0xD7) move up
    by 32. *)
Definition charToLowerCase (c : ascii) : ascii :=
  if isUpperAscii c
     || (inRange 192 222 c && negb (Nat.eqb (codeUnit c) 215))
  then ascii_of_nat (codeUnit c + 32)
  else c.

Fixpoint toLowerCase (s : string) : string :=
  match s with
  | EmptyString => EmptyString
  | String c s' => String (charToLowerCase c) (toLowerCase s')
  end.

(** [hay.includes(needle)] *)
Fixpoint includes (hay needle : string) : bool :=
  String.prefix needle hay ||
  match hay with
  | EmptyString => false
  | String _ hay' => includes hay' needle
  end.

(** [parts.join(sep)] *)
Definition join (sep : string) (parts : list string) : string :=
  String.concat sep parts.

Fixpoint trimStart (s : string) : string :=
  match s with
  | EmptyString => EmptyString
  | String c s' => if isWhiteSpace c then trimStart s' else s
  end.

Fixpoint trimEnd (s : string) : string :=
  match s with
  | EmptyString => EmptyString
  | String c s' =>
      match trimEnd s' with
      | EmptyString => if isWhiteSpace c then EmptyString else String c EmptyString
      | t => String c t
      end
  end.

(** [s.trim()] *)
Definition trim (s : string) : string := trimEnd (trimStart s).

(** [s.split(/\s+/)]: the pieces between the maximal runs of white space; a
    run at either end leaves an empty piece there, and the empty string
    splits into one empty piece. *)
Fixpoint splitLoop (s cur : string) (inRun : bool) : list string :=
  match s with
  | EmptyString => [cur]
  | String c s' =>
      if isWhiteSpace c
      then if inRun then splitLoop s' EmptyString true
           else cur :: splitLoop s' EmptyString true
      else splitLoop s' (cur ++ String c EmptyString)%string false
  end.

Definition splitWhiteSpace (s : string) : list string :=
  splitLoop s EmptyString false.

(** [arr.slice(0, end)]: a negative [end] counts from the end of the array. *)
Definition slice0 {A : Type} (l : list A) (stop : Z) : list A :=
  if stop <? 0
  then firstn (Z.to_nat (Z.of_nat (List.length l) + stop)) l
  else firstn (Z.to_nat stop) l.

(** [arr.some(p)] and [arr.filter(p)] are [existsb] and [filter]. *)

(** Stable sort by an integer key, ascending: what [arr.sort((a, b) =>
    key(a) - key(b))] computes.  Elements are inserted from the last to the
    first, each before the elements of equal key, which come later in the
    array. *)
Section Sort.
Variable A : Type.
Variable key : A -> Z.

Fixpoint insertByKey (x : A) (l : list A) : list A :=
  match l with
  | [] => [x]
  | y :: l' => if key x <=? key y then x :: l else y :: insertByKey x l'
  end.

Definition sortByKey (l : list A) : list A :=
  fold_right insertByKey [] l.
End Sort.

(** Decimal rendering of an integer in a template literal. *)
Fixpoint digitsOfPos (fuel : nat) (n : Z) (acc : string) : string :=
  match fuel with
  | O => acc
  | S fuel' =>
      let acc' := String (ascii_of_nat (48 + Z.to_nat (n mod 10))) acc in
      if n / 10 =? 0 then acc' else digitsOfPos fuel' (n / 10) acc'
  end.

Definition numberToString (n : Z) : string :=
  if n <? 0
  then String "-"%char (digitsOfPos (S (Z.to_nat (Z.log2 (- n)))) (- n) EmptyString)
  else digitsOfPos (S (Z.to_nat (Z.log2 n))) n EmptyString.

(** The elements of [new Set(arr)] in insertion order: each value once, at
    its first occurrence. *)
Fixpoint uniqueFrom (seen l : list string) : list string :=
  match l with
  | [] => []
  | x :: l' =>
      if existsb (String.eqb x) seen
      then uniqueFrom seen l'
      else x :: uniqueFrom (x :: seen) l'
  end.

Definition unique (l : list string) : list string := uniqueFrom [] l.

(** [s || fallback] on strings: the empty string is falsy. *)
Definition orElse (s fallback : string) : string :=
  match s with
  | EmptyString => fallback
  | _ => s
  end.

(** A text between double quotes, as the templates write it. *)
Definition quoted (s : string) : string :=
  String (ascii_of_nat 34) (s ++ String (ascii_of_nat 34) EmptyString)%string.

(** [s.padStart(2, "0")] *)
Definition padStart2 (s : string) : string :=
  match s with
  | EmptyString => "00"
  | String c EmptyString => String "0"%char s
  | _ => s
  end.

End Js.

(** ** Regular expressions

    The regular expressions of the tools are values of [Regex]; [matchAt] is
    the backtracking matcher of ECMAScript for the constructs they use:
    ordered alternatives, greedy repetition (an iteration that consumes
    nothing is rejected), capture groups, and the [i] flag. *)
Module Regex.

Inductive CharSet :=
| One (c : ascii)
| Range (lo hi : ascii)
| Digit
| Space
| Word
| Union (a b : CharSet).

Fixpoint inSet (cs : CharSet) (c : ascii) : bool :=
  match cs with
  | One c' => Ascii.eqb c c'
  | Range lo hi => Js.inRange (Js.codeUnit lo) (Js.codeUnit hi) c
  | Digit => Js.isDigit c
  | Space => Js.isWhiteSpace c
  | Word => Js.isWordChar c
  | Union a b => inSet a c || inSet b c
  end.

Inductive Regex :=
| Eps
| Chr (negated : bool) (cs : CharSet)
| Seq (r1 r2 : Regex)
| Alt (r1 r2 : Regex)
| Star (r : Regex)
| Cap (n : nat) (r : Regex).

(** Capture groups that took part in the match, the latest first. *)
Definition Captures := list (nat * string).

Fixpoint capture (caps : Captures) (n : nat) : option string :=
  match caps with
  | [] => None
  | (m, v) :: caps' => if Nat.eqb m n then Some v else capture caps' n
  end.

(** The text consumed between [s] and its suffix [rest]. *)
Definition consumed (s rest : string) : string :=
  String.substring 0 (String.length s - String.length rest) s.

Section Matcher.
Variable ignoreCase : bool.
Variable A : Type.

(** With the [i] flag a code unit matches a set when its canonical form is
    that of a member; the sets here have ASCII letters only, for which the
    canonical form is the capital. *)
Definition charMatches (negated : bool) (cs : CharSet) (c : ascii) : bool :=
  xorb negated
    (if ignoreCase
     then inSet cs c || inSet cs (Js.asciiToLower c) || inSet cs (Js.asciiToUpper c)
     else inSet cs c).

Fixpoint matchAt (r : Regex) (s : string) (caps : Captures)
    (k : string -> Captures -> option A) {struct r} : option A :=
  match r with
  | Eps => k s caps
  | Chr negated cs =>
      match s with
      | EmptyString => None
      | String c s' => if charMatches negated cs c then k s' caps else None
      end
  | Seq r1 r2 => matchAt r1 s caps (fun s1 caps1 => matchAt r2 s1 caps1 k)
  | Alt r1 r2 =>
      match matchAt r1 s caps k with
      | Some res => Some res
      | None => matchAt r2 s caps k
      end
  | Star r1 =>
      (fix iterate (n : nat) (s : string) (caps : Captures) : option A :=
         match n with
         | O => k s caps
         | S n' =>
             match matchAt r1 s caps
                     (fun s1 caps1 =>
                        if (String.length s1 <? String.length s)%nat
                        then iterate n' s1 caps1
                        else None) with
             | Some res => Some res
             | None => k s caps
             end
         end) (String.length s) s caps
  | Cap n r1 =>
      matchAt r1 s caps (fun s1 caps1 => k s1 ((n, consumed s s1) :: caps1))
  end.
End Matcher.

Record Match := mkMatch {
  index : nat;
  matched : string;
  after : string;
  groups : Captures
}.

(** The leftmost match, as [RegExp.prototype.exec] finds it. *)
Fixpoint execFrom (ignoreCase : bool) (r : Regex) (s : string) (idx : nat)
  : option Match :=
  match matchAt ignoreCase r s []
          (fun rest caps => Some (mkMatch idx (consumed s rest) rest caps)) with
  | Some m => Some m
  | None =>
      match s with
      | EmptyString => None
      | String _ s' => execFrom ignoreCase r s' (S idx)
      end
  end.

Definition exec (ignoreCase : bool) (r : Regex) (s : string) : option Match :=
  execFrom ignoreCase r s 0.

(** [re.test(s)] *)
Definition test (ignoreCase : bool) (r : Regex) (s : string) : bool :=
  match exec ignoreCase r s with
  | Some _ => true
  | None => false
  end.

(** [s.replace(re, '')] for a global [re]: every match is taken out, the
    scan resuming after it; an empty match leaves the code unit in place. *)
Fixpoint removeAllLoop (fuel : nat) (ignoreCase : bool) (r : Regex) (s : string)
  : string :=
  match fuel with
  | O => s
  | S fuel' =>
      let keepOne :=
        match s with
        | EmptyString => EmptyString
        | String c s' => String c (removeAllLoop fuel' ignoreCase r s')
        end in
      match matchAt ignoreCase r s [] (fun rest _ => Some rest) with
      | Some rest =>
          if (String.length rest <? String.length s)%nat
          then removeAllLoop fuel' ignoreCase r rest
          else keepOne
      | None => keepOne
      end
  end.

Definition removeAll (ignoreCase : bool) (r : Regex) (s : string) : string :=
  removeAllLoop (S (String.length s)) ignoreCase r s.

(** Pattern syntax. *)
Fixpoint lit (s : string) : Regex :=
  match s with
  | EmptyString => Eps
  | String c s' => Seq (Chr false (One c)) (lit s')
  end.

Fixpoint alts (rs : list Regex) : Regex :=
  match rs with
  | [] => Eps
  | [r] => r
  | r :: rs' => Alt r (alts rs')
  end.

Fixpoint seqs (rs : list Regex) : Regex :=
  match rs with
  | [] => Eps
  | r :: rs' => Seq r (seqs rs')
  end.

Definition plus (r : Regex) : Regex := Seq r (Star r).
Definition opt (r : Regex) : Regex := Alt r Eps.
Definition set (cs : CharSet) : Regex := Chr false cs.

(** An alternation of literal phrases, [(?:p1|p2|...)]. *)
Definition phrases (ps : list string) : Regex := alts (map lit ps).

(** [parseInt] of a run of decimal digits. *)
Definition parseInt (digits : string) : Z :=
  fold_left (fun acc c => 10 * acc + Z.of_nat (Js.codeUnit c - 48))
            (list_ascii_of_string digits) 0.

End Regex.

(** ** The setting of a tool call

    A tool runs against a world: the session objects (a session is an object
    that [updateRecentBots] mutates in place, so sessions live in a heap and
    are passed by reference), the number of API requests made so far, and the
    recent-bots store.  A computation returns a value or throws an error with
    a message, and keeps the world it has reached in both cases. *)
Module Runtime.

Inductive Outcome (A : Type) :=
| Return (a : A)
| Throw (message : string).
Arguments Return {A} a.
Arguments Throw {A} message.

(** The meeting data that [GET /bots/meeting_data] answers with. *)
Record Extra := mkExtra {
  meetingType : option string;
  participants : option (list string)
}.

Record Bot := mkBot {
  bot_name : string;
  meeting_url : string;
  created_at : string;
  creator_email : option string;
  extra : option Extra
}.

Record BotData := mkBotData {
  bot : option Bot;
  transcripts : list Transcript
}.

Record ApiResponse := mkApiResponse {
  mp4 : string;
  bot_data : option BotData
}.

(** A tool answers with a string or with a list of text contents. *)
Inductive ToolResult :=
| Text (message : string)
| Content (texts : list string) (isError : bool).

Record SessionObject := mkSession {
  apiKey : string;
  recentBotIds : option (list string)
}.

Definition SessionRef := nat.

(** Where an API key can come from when the session has none. *)
Record Environment := mkEnvironment {
  envApiKey : option string;
  configApiKey : option string
}.

Record World (Store : Type) := mkWorld {
  sessions : list SessionObject;
  apiCalls : nat;
  store : Store
}.
Arguments mkWorld {Store} sessions apiCalls store.
Arguments sessions {Store} w.
Arguments apiCalls {Store} w.
Arguments store {Store} w.

Definition M (Store A : Type) : Type := World Store -> Outcome A * World Store.

Section Monad.
Variable Store : Type.

Definition ret {A} (a : A) : M Store A := fun w => (Return a, w).

Definition throw {A} (message : string) : M Store A := fun w => (Throw message, w).

Definition bind {A B} (m : M Store A) (k : A -> M Store B) : M Store B :=
  fun w =>
    match m w with
    | (Return a, w') => k a w'
    | (Throw message, w') => (Throw message, w')
    end.

(** [try { m } catch (error) { handler(error.message) }] *)
Definition tryCatch {A} (m : M Store A) (handler : string -> M Store A) : M Store A :=
  fun w =>
    match m w with
    | (Return a, w') => (Return a, w')
    | (Throw message, w') => handler message w'
    end.

Definition getSession (ref : SessionRef) : M Store (option SessionObject) :=
  fun w => (Return (nth_error (sessions w) ref), w).

Fixpoint replaceNth {A} (l : list A) (n : nat) (x : A) : list A :=
  match l, n with
  | [], _ => []
  | _ :: l', O => x :: l'
  | y :: l', S n' => y :: replaceNth l' n' x
  end.

Definition setSession (ref : SessionRef) (obj : SessionObject) : M Store unit :=
  fun w => (Return tt,
            mkWorld (replaceNth (sessions w) ref obj) (apiCalls w) (store w)).

(** A new session object. *)
Definition newSession (obj : SessionObject) : M Store SessionRef :=
  fun w => (Return (List.length (sessions w)),
            mkWorld (sessions w ++ [obj]) (apiCalls w) (store w)).

Variable environment : Environment.

Definition nonEmpty (s : option string) : option string :=
  match s with
  | Some EmptyString => None
  | other => other
  end.

(** [getApiKeyWithFallbacks] of [src/utils/auth.ts]: the session, then the
    environment variable, then the desktop configuration. *)
Definition getApiKeyWithFallbacks (session : option SessionObject) : option string :=
  match nonEmpty (option_map apiKey session) with
  | Some key => Some key
  | None =>
      match nonEmpty (envApiKey environment) with
      | Some key => Some key
      | None => nonEmpty (configApiKey environment)
      end
  end.

(** [createValidSession]: a new object that holds the API key only. *)
Definition createValidSession (session : option SessionRef)
  : M Store (option SessionRef) :=
  bind (match session with
        | Some ref => getSession ref
        | None => ret None
        end)
       (fun obj =>
          match getApiKeyWithFallbacks obj with
          | Some key => bind (newSession (mkSession key None)) (fun ref => ret (Some ref))
          | None => ret None
          end).

(** The answer of the backend to the request number [n] made with a key for
    the meeting data of a bot. *)
Variable backend : string -> string -> nat -> Outcome ApiResponse.

(** [apiRequest(session, "get", `/bots/meeting_data?bot_id=${botId}`)] of
    [src/api/client.ts]. *)
Definition apiRequest (session : option SessionRef) (botId : string)
  : M Store ApiResponse :=
  match session with
  | None => throw "Authentication required: No session provided"
  | Some ref =>
      bind (getSession ref)
           (fun obj =>
              match nonEmpty (option_map apiKey obj) with
              | None => throw "Authentication required: No API key provided"
              | Some key =>
                  fun w => (backend key botId (apiCalls w),
                            mkWorld (sessions w) (S (apiCalls w)) (store w))
              end)
  end.

Definition authenticationFailed : ToolResult :=
  Content ["Authentication failed. Please configure your API key in Claude Desktop settings or provide it directly."]
          true.
End Monad.

Arguments ret {Store A} a.
Arguments throw {Store A} message.
Arguments bind {Store A B} m k.
Arguments tryCatch {Store A} m handler.

End Runtime.

Declare Scope tool_scope.
Delimit Scope tool_scope with tool.
Notation "x <- m ;; k" := (Runtime.bind m (fun x => k))
  (at level 61, m at next level, right associativity) : tool_scope.
Notation "m ;;; k" := (Runtime.bind m (fun _ => k))
  (at level 61, right associativity) : tool_scope.

(** ** [src/utils/linkFormatter.ts] *)
Module LinkFormatter.

Definition nl : string := String (ascii_of_nat 10) EmptyString.

Definition VIEWER_BASE_URL : string := "https://meetingbaas.com/viewer".

Definition formatMeetingLink (botId : string) (timestamp : option Z) : string :=
  match botId with
  | EmptyString => EmptyString
  | _ =>
      let baseLink := (VIEWER_BASE_URL ++ "/" ++ botId)%string in
      match timestamp with
      | Some t => (baseLink ++ "?t=" ++ Js.numberToString t)%string
      | None => baseLink
      end
  end.

(** [formatTimestamp]: [%] is the remainder that has the sign of the
    dividend. *)
Definition formatTimestamp (seconds : Z) : string :=
  let hours := seconds / 3600 in
  let minutes := Z.rem seconds 3600 / 60 in
  let secs := Z.rem seconds 60 in
  Js.join ":" [Js.padStart2 (Js.numberToString hours);
               Js.padStart2 (Js.numberToString minutes);
               Js.padStart2 (Js.numberToString secs)].

Record LinkOptions := mkLinkOptions {
  title : option string;
  timestamp : option Z;
  speakerName : option string;
  description : option string
}.

Definition truthy (s : option string) : option string :=
  match s with
  | Some EmptyString => None
  | other => other
  end.

Definition createShareableLink (botId : string) (options : LinkOptions) : string :=
  let link := formatMeetingLink botId (timestamp options) in
  match link with
  | EmptyString =>
      "⚠️ No meeting link could be generated. Please provide a valid bot ID."
  | _ =>
      let displayText := "📽️ **Meeting Recording" in
      let displayText :=
        match truthy (title options) with
        | Some t => (displayText ++ ": " ++ t ++ "**")%string
        | None => (displayText ++ "**")%string
        end in
      let displayText :=
        match timestamp options with
        | Some t => (displayText ++ nl ++ "⏱️ Timestamp: " ++ formatTimestamp t)%string
        | None => displayText
        end in
      let displayText :=
        match truthy (speakerName options) with
        | Some n => (displayText ++ nl ++ "🎤 Speaker: " ++ n)%string
        | None => displayText
        end in
      let displayText :=
        match truthy (description options) with
        | Some d => (displayText ++ nl ++ "📝 " ++ d)%string
        | None => displayText
        end in
      (displayText ++ nl ++ nl ++ "🔗 [View Recording](" ++ link ++ ")")%string
  end.

Record SegmentLink := mkSegmentLink {
  at_time : Z;
  by_speaker : string;
  summary : string
}.

(** The entry of the segment at position [index] of the list. *)
Definition segmentEntry (botId : string) (index : nat) (segment : SegmentLink) : string :=
  let link := formatMeetingLink botId (Some (at_time segment)) in
  (("### Segment " ++ Js.numberToString (Z.of_nat index + 1) ++ ": "
      ++ formatTimestamp (at_time segment) ++ nl)
   ++ (match by_speaker segment with
       | EmptyString => EmptyString
       | name => "**Speaker**: " ++ name ++ nl
       end)
   ++ ("**Description**: " ++ summary segment ++ nl)
   ++ ("🔗 [Jump to this moment](" ++ link ++ ")" ++ nl ++ nl))%string.

Fixpoint segmentEntries (botId : string) (index : nat) (segments : list SegmentLink)
  : string :=
  match segments with
  | [] => EmptyString
  | segment :: rest =>
      (segmentEntry botId index segment ++ segmentEntries botId (S index) rest)%string
  end.

Definition createMeetingSegmentsList (botId : string) (segments : list SegmentLink)
  : string :=
  match segments with
  | [] => createShareableLink botId (mkLinkOptions (Some "Full Recording") None None None)
  | _ =>
      ("## 📽️ Meeting Segments" ++ nl ++ nl
         ++ segmentEntries botId 0 segments
         ++ nl ++ "🔗 [View Full Recording](" ++ formatMeetingLink botId None ++ ")")%string
  end.

End LinkFormatter.

Module Links.

(** *** [groupTranscriptsIntoChunks] *)

Record ChunkLoop := mkChunkLoop {
  chunks : list (list Transcript);
  currentChunk : list Transcript;
  chunkStartTime : Z
}.

(** One iteration of the [for (const segment of transcripts)] loop. *)
Definition chunkStep (maxChunkDuration : Z) (st : ChunkLoop) (segment : Transcript)
  : ChunkLoop :=
  if (Nat.eqb (List.length (currentChunk st)) 0)
     || (start_time segment - chunkStartTime st <=? maxChunkDuration)
  then mkChunkLoop (chunks st) (currentChunk st ++ [segment]) (chunkStartTime st)
  else mkChunkLoop (chunks st ++ [currentChunk st]) [segment] (start_time segment).

Definition chunkLoop (maxChunkDuration : Z) (init : ChunkLoop)
    (transcripts : list Transcript) : ChunkLoop :=
  fold_left (chunkStep maxChunkDuration) transcripts init.

(** The chunks held by a loop state once the last chunk is flushed. *)
Definition flushChunks (st : ChunkLoop) : list (list Transcript) :=
  if (0 <? List.length (currentChunk st))%nat
  then chunks st ++ [currentChunk st]
  else chunks st.

Definition groupTranscriptsIntoChunks (transcripts : list Transcript)
    (maxChunkDuration : Z) : list (list Transcript) :=
  match transcripts with
  | [] => []
  | first :: _ =>
      flushChunks
        (chunkLoop maxChunkDuration (mkChunkLoop [] [] (start_time first)) transcripts)
  end.

(** Reference time of a chunk: the start time of its first segment. *)
Definition chunkRef (chunk : list Transcript) : Z :=
  match chunk with
  | [] => 0
  | s :: _ => start_time s
  end.

(** The text of a segment: [words.map(w => w.text).join(" ")]. *)
Definition segmentText (t : Transcript) : string := Js.join " " (words t).

(** *** Candidate segments *)

Inductive SegmentType := content | conversation | structural.

Record Candidate := mkCandidate {
  timestamp : Z;
  cspeaker : string;
  text : string;
  importance : Z;
  type : SegmentType;
  description : string
}.

(** *** [findImportantSegments] *)

Record ImportancePattern := mkPattern { regex : Regex.Regex; weight : Z }.

Definition importanceTerms : Regex.Regex :=
  Regex.phrases ["important"; "key"; "critical"; "essential"; "significant";
                 "main"; "major"].
Definition summaryTerms : Regex.Regex :=
  Regex.phrases ["summarize"; "summary"; "summarizing"; "conclude"; "conclusion";
                 "in conclusion"; "to sum up"].
Definition obligationTerms : Regex.Regex :=
  Regex.phrases ["need to"; "have to"; "must"; "should"; "will"; "going to";
                 "plan to"; "action item"].
Definition decisionTerms : Regex.Regex :=
  Regex.phrases ["agree"; "disagree"; "consensus"; "decision"; "decide";
                 "decided"; "determined"].
Definition problemTerms : Regex.Regex :=
  Regex.phrases ["problem"; "issue"; "challenge"; "obstacle"; "difficulty"].
Definition solutionTerms : Regex.Regex :=
  Regex.phrases ["solution"; "resolve"; "solve"; "approach"; "strategy"; "tactic"].
Definition nextStepsTerms : Regex.Regex :=
  Regex.phrases ["next steps"; "follow up"; "get back"; "circle back"; "future";
                 "next time"].

Definition importancePatterns : list ImportancePattern :=
  [ mkPattern importanceTerms 3;
    mkPattern summaryTerms 4;
    mkPattern obligationTerms 2;
    mkPattern decisionTerms 3;
    mkPattern problemTerms 2;
    mkPattern solutionTerms 2;
    mkPattern nextStepsTerms 3 ].

(** The next-steps pattern of [determineDescription], which is not the one of
    the scoring table. *)
Definition descriptionNextStepsTerms : Regex.Regex :=
  Regex.phrases ["next steps"; "follow up"; "moving forward"; "future"; "plan"].

Definition determineDescription (text : string) (importance : Z) : string :=
  if Regex.test true summaryTerms text then "Summary or conclusion"
  else if Regex.test true descriptionNextStepsTerms text then "Discussion about next steps"
  else if Regex.test true decisionTerms text then "Decision point"
  else if Regex.test true problemTerms text then "Problem discussion"
  else if Regex.test true solutionTerms text then "Solution discussion"
  else if 5 <? importance then "Highly important discussion"
  else if 3 <? importance then "Important point"
  else "Notable discussion".

(** [text.split(/\s+/).length] *)
Definition wordCount (text : string) : Z :=
  Z.of_nat (List.length (Js.splitWhiteSpace text)).

(** The score of a text: the loop over [importancePatterns], then the length
    bonus. *)
Definition importanceScore (text : string) : Z :=
  let matched :=
    fold_left
      (fun score pattern =>
         if Regex.test true (regex pattern) text then score + weight pattern else score)
      importancePatterns 0 in
  matched + Z.min 2 (wordCount text / 20).

Definition speakerOrUnknown (t : Transcript) : string :=
  Js.orElse (speaker t) "Unknown speaker".

(** The candidate of one segment, if it scores above zero. *)
Definition importantSegment (transcript : Transcript) : option Candidate :=
  let text := segmentText transcript in
  let score := importanceScore text in
  if 0 <? score
  then Some (mkCandidate (start_time transcript) (speakerOrUnknown transcript) text
                         score content (determineDescription text score))
  else None.

Definition findImportantSegments (transcripts : list Transcript) : list Candidate :=
  flat_map (fun t => match importantSegment t with
                     | Some c => [c]
                     | None => []
                     end) transcripts.

(** *** [findConversationalExchanges] *)

(** The size of [new Set([...].filter(Boolean))]. *)
Definition distinctSpeakers (names : list string) : Z :=
  Z.of_nat (List.length
              (Js.unique (filter (fun n => negb (String.eqb n EmptyString)) names))).

(** The loop looks at the segments [i], [i+1], [i+2]; a hit moves [i] on by
    three, a miss by one. *)
Fixpoint findConversationalExchanges (transcripts : list Transcript) : list Candidate :=
  match transcripts with
  | segment1 :: ((segment2 :: segment3 :: rest) as next) =>
      let size := distinctSpeakers [speaker segment1; speaker segment2; speaker segment3] in
      if (2 <=? size) && (start_time segment3 - start_time segment1 <? 60)
      then mkCandidate (start_time segment1) (speakerOrUnknown segment1)
                       (segmentText segment1) (2 + size) conversation
                       ("Active discussion with " ++ Js.numberToString size
                          ++ " participants")%string
             :: findConversationalExchanges rest
      else findConversationalExchanges next
  | _ => []
  end.

(** *** [getStructuralSegments] *)

Definition getStructuralSegments (transcripts : list Transcript) : list Candidate :=
  match transcripts with
  | [] => []
  | first :: _ =>
      let start :=
        mkCandidate (start_time first) (speakerOrUnknown first) (segmentText first)
                    5 structural "Meeting start" in
      let last := List.last transcripts first in
      if (1 <? List.length transcripts)%nat
         && negb (start_time last =? start_time first)
      then [start;
            mkCandidate (start_time last) (speakerOrUnknown last) (segmentText last)
                        4 structural "Meeting conclusion"]
      else [start]
  end.

(** *** [scoreSegments] leaves every segment as it is. *)
Definition scoreSegments (segments : list Candidate) : list Candidate :=
  map (fun segment => segment) segments.

(** *** [deduplicateSegments] *)

Record DedupLoop := mkDedupLoop {
  result : list Candidate;
  usedTimeRanges : list Z
}.

Definition isTooClose (used : list Z) (segment : Candidate) : bool :=
  existsb (fun range => Z.abs (timestamp segment - range) <? 30) used.

Definition dedupStep (st : DedupLoop) (segment : Candidate) : DedupLoop :=
  if isTooClose (usedTimeRanges st) segment
  then st
  else mkDedupLoop (result st ++ [segment]) (usedTimeRanges st ++ [timestamp segment]).

Definition deduplicateSegments (segments : list Candidate) : list Candidate :=
  if (List.length segments <=? 1)%nat
  then segments
  else result (fold_left dedupStep segments (mkDedupLoop [] [])).

(** *** Steps 1 to 6 of [findKeyMomentsTool.execute] *)

Definition sortChronologically (transcripts : list Transcript) : list Transcript :=
  Js.sortByKey start_time transcripts.

(** The candidates of the chunks, in the order of the loop over the chunks:
    for each chunk the important segments, then the conversations. *)
Definition candidateSegments (contextChunks : list (list Transcript)) : list Candidate :=
  flat_map (fun chunk => findImportantSegments chunk ++ findConversationalExchanges chunk)
           contextChunks.

(** Steps 5 and 6: sort by importance, deduplicate, sort by time, take the
    first [maxMoments]. *)
Definition sortByImportance (segments : list Candidate) : list Candidate :=
  Js.sortByKey (fun c => - importance c) segments.

Definition sortByTimestamp (segments : list Candidate) : list Candidate :=
  Js.sortByKey timestamp segments.

Definition selectMoments (allSegments : list Candidate) (maxMoments : Z)
  : list Candidate :=
  let dedupedSegments := deduplicateSegments (sortByImportance allSegments) in
  let chronologicalSegments := sortByTimestamp dedupedSegments in
  Js.slice0 chronologicalSegments maxMoments.

(** [finalSegments] of a transcript that is not empty. *)
Definition finalSegments (transcripts : list Transcript) (maxMoments : Z)
  : list Candidate :=
  let sortedTranscripts := sortChronologically transcripts in
  let contextChunks := groupTranscriptsIntoChunks sortedTranscripts 300 in
  let scoredSegments := scoreSegments (candidateSegments contextChunks) in
  let structuralSegments := getStructuralSegments sortedTranscripts in
  selectMoments (scoredSegments ++ structuralSegments) maxMoments.

(** *** [findKeyMomentsTool.execute] *)

Inductive Granularity := high | medium | low.

Record FindKeyMomentsArgs := mkFindKeyMomentsArgs {
  botId : string;
  meetingTitle : option string;
  topics : option (list string);
  maxMoments : Z;
  granularity : Granularity;
  autoDetectTopics : bool;
  initialChunkSize : Z
}.

Definition topicLimit (g : Granularity) : Z :=
  match g with
  | high => 10
  | medium => 7
  | low => 5
  end.

Definition topTopics (g : Granularity) (uniqueTopics : list string) : list string :=
  Js.slice0 uniqueTopics (topicLimit g).

(** The lines of the topics section, one per displayed topic. *)
Definition topicLines (shown : list string) : string :=
  Js.join LinkFormatter.nl (map (fun topic => "- " ++ topic)%string shown).

(** The text that the topics add to the report: nothing without topics. *)
Definition topicsSection (g : Granularity) (uniqueTopics : list string) : string :=
  if (0 <? List.length uniqueTopics)%nat
  then ("## Main Topics Discussed" ++ LinkFormatter.nl
          ++ topicLines (topTopics g uniqueTopics)
          ++ LinkFormatter.nl ++ LinkFormatter.nl)%string
  else EmptyString.

Definition formattedSegments (segments : list Candidate)
  : list LinkFormatter.SegmentLink :=
  map (fun segment =>
         LinkFormatter.mkSegmentLink (timestamp segment) (cspeaker segment)
                                     (description segment))
      segments.

Definition titleOnly (title : string) : LinkFormatter.LinkOptions :=
  LinkFormatter.mkLinkOptions (Some title) None None None.

Section Tool.
(** The topic detector feeds the topic list of the report only, and its
    result depends on the order in which a JavaScript object lists its
    properties; it is a parameter, so that what is proved of the report holds
    for any detector. *)
Variable identifyTopicsWithAI : list Transcript -> list string.

(** All topics: the ones asked for, then the ones detected chunk after
    chunk. *)
Definition allMeetingTopics (args : FindKeyMomentsArgs)
    (contextChunks : list (list Transcript)) : list string :=
  fold_left
    (fun all chunk =>
       if autoDetectTopics args then all ++ identifyTopicsWithAI chunk else all)
    contextChunks
    (match topics args with
     | Some given => given
     | None => []
     end).

Definition uniqueTopics (args : FindKeyMomentsArgs) (transcripts : list Transcript)
  : list string :=
  Js.unique
    (allMeetingTopics args
       (groupTranscriptsIntoChunks (sortChronologically transcripts) 300)).

(** What the tool answers once the meeting data is there. *)
Definition report (args : FindKeyMomentsArgs) (response : Runtime.ApiResponse)
  : string :=
  match option_map Runtime.bot (Runtime.bot_data response),
        option_map Runtime.transcripts (Runtime.bot_data response) with
  | Some (Some bot), Some transcripts =>
      let meetingTitle :=
        Js.orElse
          (Js.orElse (match meetingTitle args with
                      | Some t => t
                      | None => EmptyString
                      end)
                     (Runtime.bot_name bot))
          "Meeting Recording" in
      match transcripts with
      | [] =>
          ("No transcript found for meeting " ++ Js.quoted meetingTitle
             ++ ". You can still view the recording:"
             ++ LinkFormatter.nl ++ LinkFormatter.nl
             ++ LinkFormatter.createShareableLink (botId args) (titleOnly meetingTitle))%string
      | _ =>
          let final := finalSegments transcripts (maxMoments args) in
          match final with
          | [] =>
              ("No key moments found in meeting " ++ Js.quoted meetingTitle
                 ++ ". You can view the full recording:"
                 ++ LinkFormatter.nl ++ LinkFormatter.nl
                 ++ LinkFormatter.createShareableLink (botId args) (titleOnly meetingTitle))%string
          | _ =>
              let segmentsList :=
                LinkFormatter.createMeetingSegmentsList (botId args)
                  (formattedSegments final) in
              ("# Key Moments from " ++ meetingTitle
                 ++ LinkFormatter.nl ++ LinkFormatter.nl
                 ++ topicsSection (granularity args) (uniqueTopics args transcripts)
                 ++ segmentsList)%string
          end
      end
  | _, _ =>
      ("Could not find meeting data for the provided bot ID: " ++ botId args)%string
  end.

Variable Store : Type.
Variable environment : Runtime.Environment.
Variable backend : string -> string -> nat -> Runtime.Outcome Runtime.ApiResponse.

Definition findKeyMoments (args : FindKeyMomentsArgs) (session : option Runtime.SessionRef)
  : Runtime.M Store Runtime.ToolResult :=
  Runtime.tryCatch
    (validSession <- Runtime.createValidSession environment session ;;
     match validSession with
     | None => Runtime.ret Runtime.authenticationFailed
     | Some _ =>
         response <- Runtime.apiRequest backend validSession (botId args) ;;
         Runtime.ret (Runtime.Text (report args response))
     end)%tool
    (fun message =>
       Runtime.ret
         (Runtime.Text ("Error finding key moments: " ++ message
                          ++ ". Please check that the bot ID is correct.")%string)).
End Tool.

End Links.

(** ** [src/tools/search.ts] *)
Module Search.
Import Runtime.

(** *** Recent-bots tracking *)

Record BotMetadata := mkBotMetadata {
  name : option string;
  meetingUrl : option string;
  metaMeetingType : option string;
  createdAt : option string;
  creator : option string;
  metaParticipants : option (list string);
  topics : option (list string);
  metaExtra : option Extra
}.

Definition commonKeywords : list string :=
  ["budget"; "project"; "deadline"; "timeline"; "goals"; "product"].

Definition extractBotMetadata (apiResponse : ApiResponse) : BotMetadata :=
  match bot_data apiResponse with
  | Some (mkBotData (Some bot) transcripts) =>
      let transcriptText := Js.join " " (map (fun t => Js.join " " (words t)) transcripts) in
      let topics :=
        filter (fun keyword =>
                  Js.includes (Js.toLowerCase transcriptText) (Js.toLowerCase keyword))
               commonKeywords in
      mkBotMetadata (Some (bot_name bot)) (Some (meeting_url bot))
        (match extra bot with Some e => meetingType e | None => None end)
        (Some (created_at bot)) (creator_email bot)
        (match extra bot with Some e => participants e | None => None end)
        (match topics with [] => None | _ => Some topics end)
        (extra bot)
  | _ => mkBotMetadata None None None None None None None None
  end.

(** The list that [updateRecentBots] leaves in the session: the bot first,
    its earlier occurrences gone, five entries at most. *)
Definition bumpRecent (recent : option (list string)) (botId : string) : list string :=
  let current := match recent with Some ids => ids | None => [] end in
  let without := filter (fun id => negb (String.eqb id botId)) current in
  let bumped := botId :: without in
  if (5 <? List.length bumped)%nat then Js.slice0 bumped 5 else bumped.

Section Tools.
Variable Store : Type.
Variable environment : Environment.
Variable backend : string -> string -> nat -> Outcome ApiResponse.

(** [db.trackBot({ id, ...metadata })] on the recent-bots store: it may
    throw, and leaves a store behind in both cases. *)
Variable trackBot : string -> BotMetadata -> Store -> Outcome unit * Store.

(** [formatTime] of [src/utils/formatters.ts]. *)
Variable formatTime : Z -> string.

Definition dbTrackBot (botId : string) (metadata : BotMetadata) : M Store unit :=
  fun w =>
    let '(outcome, store') := trackBot botId metadata (store w) in
    (outcome, mkWorld (sessions w) (apiCalls w) store').

Definition updateRecentBots (session : option SessionRef) (botId : string)
    (botMetadata : BotMetadata) : M Store unit :=
  match session with
  | None => ret tt
  | Some ref =>
      (object <- getSession ref ;;
       match object with
       | None => ret tt
       | Some obj =>
           tryCatch
             (setSession ref
                (mkSession (apiKey obj) (Some (bumpRecent (recentBotIds obj) botId))) ;;;
              dbTrackBot botId botMetadata)
             (fun _ => ret tt)
       end)%tool
  end.

(** The call sites wrap the tracking in a [try] of their own. *)
Definition trackSafely (session : option SessionRef) (botId : string)
    (response : ApiResponse) : M Store unit :=
  tryCatch (updateRecentBots session botId (extractBotMetadata response))
           (fun _ => ret tt).

(** Reading a property of [undefined] throws a [TypeError]. *)
Definition typeErrorReading (property : string) : string :=
  ("Cannot read properties of undefined (reading '" ++ property ++ "')")%string.

(** [response.bot_data.transcripts] *)
Definition transcriptsOf (response : ApiResponse) : M Store (list Transcript) :=
  match bot_data response with
  | Some data => ret (transcripts data)
  | None => throw (typeErrorReading "transcripts")
  end.

(** [response.bot_data.bot.bot_name] *)
Definition botNameOf (response : ApiResponse) : M Store string :=
  match bot_data response with
  | Some (mkBotData (Some bot) _) => ret (bot_name bot)
  | Some (mkBotData None _) => throw (typeErrorReading "bot_name")
  | None => throw (typeErrorReading "bot")
  end.

Definition textOf (t : Transcript) : string := Js.join " " (words t).

Definition quoted (s : string) : string := Js.quoted s.

Definition blankLine : string := (LinkFormatter.nl ++ LinkFormatter.nl)%string.

(** *** [searchTranscriptTool.execute] *)

Record SearchTranscriptArgs := mkSearchTranscriptArgs {
  st_botId : string;
  st_query : string
}.

Definition transcriptMatches (query : string) (t : Transcript) : bool :=
  Js.includes (Js.toLowerCase (textOf t)) (Js.toLowerCase query).

Definition formatResult (t : Transcript) : string :=
  ("[" ++ formatTime (start_time t) ++ "] " ++ speaker t ++ ": " ++ textOf t)%string.

Definition searchTranscript (args : SearchTranscriptArgs) (session : option SessionRef)
  : M Store ToolResult :=
  (validSession <- createValidSession environment session ;;
   match validSession with
   | None => ret authenticationFailed
   | Some _ =>
       tryCatch
         (response <- apiRequest backend validSession (st_botId args) ;;
          trackSafely session (st_botId args) response ;;;
          transcripts <- transcriptsOf response ;;
          let results := filter (transcriptMatches (st_query args)) transcripts in
          match results with
          | [] => ret (Text ("No results found for " ++ quoted (st_query args))%string)
          | _ =>
              ret (Text ("Found " ++ Js.numberToString (Z.of_nat (List.length results))
                           ++ " results for " ++ quoted (st_query args) ++ ":"
                           ++ blankLine
                           ++ Js.join blankLine (map formatResult results))%string)
          end)
         (fun message => ret (Text ("Error searching transcripts: " ++ message)%string))
   end)%tool.

(** *** [searchVideoSegmentTool.execute] *)

Record SearchVideoSegmentArgs := mkSearchVideoSegmentArgs {
  vs_botId : string;
  vs_startTime : option Z;
  vs_endTime : option Z;
  vs_speaker : option string
}.

(** [new Set] of the trimmed names of the segments that have a speaker. *)
Definition allSpeakers (transcripts : list Transcript) : list string :=
  Js.unique
    (map (fun t => Js.trim (speaker t))
         (filter (fun t => negb (String.eqb (speaker t) EmptyString)) transcripts)).

Definition inTimeRange (startTime endTime : option Z) (t : Transcript) : bool :=
  let segmentEnd :=
    match end_time t with
    | Some e => e
    | None => start_time t + 5
    end in
  match startTime with
  | Some s => negb (start_time t <? s)
  | None => true
  end
  &&
  match endTime with
  | Some e => negb (e <? segmentEnd)
  | None => true
  end.

Definition filterByTime (startTime endTime : option Z) (transcripts : list Transcript)
  : list Transcript :=
  match startTime, endTime with
  | None, None => transcripts
  | _, _ => filter (inTimeRange startTime endTime) transcripts
  end.

(** [s.split(' ')[0]] *)
Fixpoint firstWord (s : string) : string :=
  match s with
  | EmptyString => EmptyString
  | String c s' => if Ascii.eqb c " "%char then EmptyString else String c (firstWord s')
  end.

(** A name matches loosely when it contains the wanted speaker, or the
    wanted speaker contains its first word. *)
Definition looselyMatches (speakerLower name : string) : bool :=
  Js.includes (Js.toLowerCase name) speakerLower
  || Js.includes speakerLower (firstWord (Js.toLowerCase name)).

Definition filterBySpeaker (wanted : option string) (all filtered : list Transcript)
  : list Transcript :=
  match wanted with
  | None | Some EmptyString => filtered
  | Some wantedName =>
      let speakerLower := Js.toLowerCase wantedName in
      match find (fun s => String.eqb (Js.toLowerCase s) speakerLower) (allSpeakers all) with
      | Some (String _ _) =>
          filter (fun t => String.eqb (Js.toLowerCase (speaker t)) speakerLower) filtered
      | _ =>
          match filter (looselyMatches speakerLower) (allSpeakers all) with
          | [] =>
              filter (fun t => Js.includes (Js.toLowerCase (speaker t)) speakerLower)
                     filtered
          | matchingSpeakers =>
              filter (fun t => existsb (String.eqb (speaker t)) matchingSpeakers) filtered
          end
      end
  end.

(** [url.split("?")[0]] *)
Fixpoint beforeQuery (url : string) : string :=
  match url with
  | EmptyString => EmptyString
  | String c url' => if Ascii.eqb c "?"%char then EmptyString else String c (beforeQuery url')
  end.

Definition timestampedUrl (videoBaseUrl : string) (time : Z) : string :=
  (videoBaseUrl ++ "?t=" ++ Js.numberToString time)%string.

Definition formatSegment (videoBaseUrl : string) (t : Transcript) : string :=
  (formatResult t ++ LinkFormatter.nl ++ "Segment link: "
     ++ timestampedUrl videoBaseUrl (start_time t))%string.

Definition noSegments : ToolResult :=
  Content ["No matching video segments found based on your criteria."] false.

Definition searchVideoSegment (args : SearchVideoSegmentArgs)
    (session : option SessionRef) : M Store ToolResult :=
  (validSession <- createValidSession environment session ;;
   match validSession with
   | None => ret authenticationFailed
   | Some _ =>
       tryCatch
         (response <- apiRequest backend validSession (vs_botId args) ;;
          trackSafely session (vs_botId args) response ;;;
          transcripts <- transcriptsOf response ;;
          let filteredTranscripts :=
            filterBySpeaker (vs_speaker args) transcripts
              (filterByTime (vs_startTime args) (vs_endTime args) transcripts) in
          match filteredTranscripts with
          | [] => ret noSegments
          | firstSegment :: _ =>
              let videoBaseUrl := beforeQuery (mp4 response) in
              let lastSegment := List.last filteredTranscripts firstSegment in
              botName <- botNameOf response ;;
              ret (Content
                     [ ("Found " ++ Js.numberToString (Z.of_nat (List.length filteredTranscripts))
                          ++ " segments from " ++ formatTime (start_time firstSegment)
                          ++ " to " ++ formatTime (start_time lastSegment)
                          ++ " in meeting " ++ quoted botName ++ ".")%string;
                       ("Watch from beginning of segment: "
                          ++ timestampedUrl videoBaseUrl (start_time firstSegment))%string;
                       ("Individual segments:" ++ blankLine
                          ++ Js.join blankLine
                               (map (formatSegment videoBaseUrl) filteredTranscripts))%string ]
                     false)
          end)
         (fun message =>
            ret (Text ("An error occurred during the search: " ++ message)%string))
   end)%tool.

(** *** [intelligentSearchTool.execute] *)

Inductive SortBy := relevance | date | bySpeaker.

Record Filters := mkFilters {
  f_speaker : option string;
  f_startTime : option Z;
  f_endTime : option Z
}.

Record IntelligentSearchArgs := mkIntelligentSearchArgs {
  is_query : string;
  is_botId : string;
  is_maxResults : Z;
  is_includeContext : bool;
  is_sortBy : SortBy;
  is_filters : option Filters
}.

Record TimeRange := mkTimeRange {
  startTime : option Z;
  endTime : option Z
}.

(** The speaker and the time range of the structured filters. *)
Definition filterSpeaker (args : IntelligentSearchArgs) : option string :=
  match is_filters args with
  | Some filters => nonEmpty (f_speaker filters)
  | None => None
  end.

Definition filterTimeRange (args : IntelligentSearchArgs) : TimeRange :=
  match is_filters args with
  | Some filters => mkTimeRange (f_startTime filters) (f_endTime filters)
  | None => mkTimeRange None None
  end.

(** Pieces of the patterns: [\s+], [\d+], [(?::(\d+))?] with its group, and
    [[A-Z][a-z]+(?:\s+[A-Z][a-z]+)?]. *)
Definition spaces : Regex.Regex := Regex.plus (Regex.set Regex.Space).
Definition digits : Regex.Regex := Regex.plus (Regex.set Regex.Digit).
Definition seconds (group : nat) : Regex.Regex :=
  Regex.opt (Regex.Seq (Regex.lit ":") (Regex.Cap group digits)).
Definition secondsUngrouped : Regex.Regex :=
  Regex.opt (Regex.Seq (Regex.lit ":") digits).
Definition capitalised : Regex.Regex :=
  Regex.Seq (Regex.set (Regex.Range "A" "Z")) (Regex.plus (Regex.set (Regex.Range "a" "z"))).
Definition personName : Regex.Regex :=
  Regex.Seq capitalised (Regex.opt (Regex.Seq spaces capitalised)).

Inductive TimePatternType := range | after | before | around.

Definition timePatterns : list (Regex.Regex * TimePatternType) :=
  [ (Regex.seqs [Regex.lit "between"; spaces; Regex.Cap 1 digits; seconds 2; spaces;
                 Regex.phrases ["and"; "to"]; spaces; Regex.Cap 3 digits; seconds 4],
     range);
    (Regex.seqs [Regex.lit "after"; spaces; Regex.Cap 1 digits; seconds 2], after);
    (Regex.seqs [Regex.lit "before"; spaces; Regex.Cap 1 digits; seconds 2], before);
    (Regex.seqs [Regex.lit "around"; spaces; Regex.Cap 1 digits; seconds 2], around) ].

(** [parseInt(match[m]) * 60 + (match[s] ? parseInt(match[s]) : 0)] *)
Definition clock (found : Regex.Match) (m s : nat) : option Z :=
  match nonEmpty (Regex.capture (Regex.groups found) m) with
  | Some minutes =>
      Some (Regex.parseInt minutes * 60
            + match nonEmpty (Regex.capture (Regex.groups found) s) with
              | Some secs => Regex.parseInt secs
              | None => 0
              end)
  | None => None
  end.

Definition applyTimePattern (type : TimePatternType) (found : Regex.Match)
    (timeRange : TimeRange) : TimeRange :=
  match type with
  | range =>
      match clock found 1 2, clock found 3 4 with
      | Some startMinutes, Some endMinutes =>
          mkTimeRange (Some startMinutes) (Some endMinutes)
      | _, _ => timeRange
      end
  | after =>
      match clock found 1 2 with
      | Some minutes => mkTimeRange (Some minutes) (endTime timeRange)
      | None => timeRange
      end
  | before =>
      match clock found 1 2 with
      | Some minutes => mkTimeRange (startTime timeRange) (Some minutes)
      | None => timeRange
      end
  | around =>
      match clock found 1 2 with
      | Some minutes => mkTimeRange (Some (Z.max 0 (minutes - 60))) (Some (minutes + 60))
      | None => timeRange
      end
  end.

(** The loop over the time patterns: the first pattern that matches the
    query writes the time range, and the loop stops. *)
Fixpoint extractTimeRange (patterns : list (Regex.Regex * TimePatternType))
    (query : string) (timeRange : TimeRange) : TimeRange :=
  match patterns with
  | [] => timeRange
  | (pattern, type) :: rest =>
      match Regex.exec true pattern query with
      | Some found => applyTimePattern type found timeRange
      | None => extractTimeRange rest query timeRange
      end
  end.

Definition questionWords : Regex.Regex :=
  Regex.phrases ["what"; "when"; "where"; "how"; "why"].
Definition sayingVerbs : Regex.Regex :=
  Regex.phrases ["say"; "talk"; "speak"; "mention"; "discuss"].
Definition statementNouns : Regex.Regex :=
  Regex.phrases ["statements"; "comments"; "opinions"; "thoughts"].
Definition spokeVerbs : Regex.Regex :=
  Regex.phrases ["spoke"; "said"; "mentioned"; "discussed"].

Definition speakerPatterns : list Regex.Regex :=
  [ Regex.seqs [questionWords; Regex.lit " did "; Regex.Cap 1 personName; Regex.lit " ";
                sayingVerbs];
    Regex.seqs [statementNouns; Regex.lit " "; Regex.phrases ["from"; "by"]; Regex.lit " ";
                Regex.Cap 1 personName];
    Regex.seqs [Regex.Cap 1 personName; Regex.lit "'s"; Regex.lit " "; statementNouns];
    Regex.seqs [Regex.lit "when "; Regex.Cap 1 personName; Regex.lit " "; spokeVerbs] ].

(** The loop over the speaker patterns, entered when no speaker is set. *)
Fixpoint extractSpeaker (patterns : list Regex.Regex) (query : string) : option string :=
  match patterns with
  | [] => None
  | pattern :: rest =>
      match Regex.exec true pattern query with
      | Some found =>
          match nonEmpty (Regex.capture (Regex.groups found) 1) with
          | Some name => Some name
          | None => extractSpeaker rest query
          end
      | None => extractSpeaker rest query
      end
  end.

Definition resolveSpeaker (args : IntelligentSearchArgs) : option string :=
  match filterSpeaker args with
  | Some given => Some given
  | None => extractSpeaker speakerPatterns (is_query args)
  end.

Definition resolveTimeRange (args : IntelligentSearchArgs) : TimeRange :=
  extractTimeRange timePatterns (is_query args) (filterTimeRange args).

Definition hexOrDash : Regex.Regex :=
  Regex.set (Regex.Union (Regex.Range "a" "f")
               (Regex.Union (Regex.Range "0" "9") (Regex.One "-"))).

(** The phrases that the chain of [replace] calls takes out of the query. *)
Definition filterPhrases : list Regex.Regex :=
  [ Regex.seqs [Regex.lit "in"; spaces;
                Regex.Cap 1 (Regex.phrases ["sales"; "psychiatric"; "standup"; "interview";
                                            "product"; "planning"]);
                spaces; Regex.lit "meeting"; Regex.opt (Regex.lit "s")];
    Regex.alts [Regex.seqs [Regex.lit "from"; spaces; Regex.lit "yesterday"];
                Regex.seqs [Regex.lit "last"; spaces;
                            Regex.Cap 1 (Regex.phrases ["week"; "day"; "month"])];
                Regex.seqs [Regex.lit "this"; spaces;
                            Regex.Cap 2 (Regex.phrases ["month"; "quarter"])]];
    Regex.seqs [Regex.lit "where"; spaces; capitalised;
                Regex.opt (Regex.Cap 1 (Regex.Seq spaces capitalised)); spaces;
                Regex.Cap 2 (Regex.phrases ["speak"; "said"; "talk"; "mention"])];
    Regex.seqs [Regex.phrases ["meeting"; "bot"]; spaces; Regex.phrases ["id"; "uuid"];
                Regex.plus (Regex.set (Regex.Union Regex.Space (Regex.One ":")));
                Regex.Cap 1 (Regex.Seq (Regex.seqs (repeat hexOrDash 8))
                                       (Regex.Star hexOrDash))];
    Regex.seqs [Regex.lit "between"; spaces; digits; secondsUngrouped; spaces;
                Regex.phrases ["and"; "to"]; spaces; digits; secondsUngrouped];
    Regex.seqs [Regex.phrases ["after"; "before"; "around"]; spaces; digits;
                secondsUngrouped];
    Regex.seqs [questionWords; Regex.lit " did "; personName; Regex.lit " "; sayingVerbs];
    Regex.seqs [statementNouns; Regex.lit " "; Regex.phrases ["from"; "by"]; Regex.lit " ";
                personName];
    Regex.seqs [personName; Regex.lit "'s"; Regex.lit " "; statementNouns];
    Regex.seqs [Regex.lit "when "; personName; Regex.lit " "; spokeVerbs] ].

(** The search terms: the query without the filter phrases, trimmed; the
    query itself when nothing is left. *)
Definition searchTermsOf (query : string) : string :=
  Js.orElse
    (Js.trim (fold_left (fun terms phrase => Regex.removeAll true phrase terms)
                        filterPhrases query))
    query.

Definition hasTerms (searchTerms : string) : bool :=
  negb (String.eqb (Js.trim searchTerms) EmptyString).

(** The test on the answer of the segment search in tiers 1 and 2. *)
Definition foundSegments (answer : ToolResult) : bool :=
  match answer with
  | Content (first :: _) _ => negb (Js.includes first "No matching video segments found")
  | _ => false
  end.

(** The three texts of a tier that lists segments. *)
Definition segmentsAnswer (headline : string) (response : ApiResponse)
    (segments : list Transcript) (firstSegment : Transcript) : ToolResult :=
  let videoBaseUrl := beforeQuery (mp4 response) in
  Content
    [ headline;
      ("Watch from beginning: " ++ timestampedUrl videoBaseUrl (start_time firstSegment))%string;
      ("Individual segments:" ++ blankLine
         ++ Js.join blankLine (map (formatSegment videoBaseUrl) segments))%string ]
    false.

Definition countText (segments : list Transcript) : string :=
  Js.numberToString (Z.of_nat (List.length segments)).

(** A tier answers or passes to the next tier. *)
Definition orElseTier (tier : M Store (option ToolResult)) (next : M Store ToolResult)
  : M Store ToolResult :=
  (answer <- tier ;;
   match answer with
   | Some result => ret result
   | None => next
   end)%tool.

Section Tiers.
Variable botId : string.
Variable validSession : option SessionRef.
Variable botData : ApiResponse.
(** The [speaker] variable of the tool. *)
Variable wanted : option string.
Variable timeRange : TimeRange.
Variable searchTerms : string.

Definition segmentSearch (who : option string) : M Store ToolResult :=
  searchVideoSegment
    (mkSearchVideoSegmentArgs botId (startTime timeRange) (endTime timeRange) who)
    validSession.

(** Tier 1: the segments of the speaker that mention one of the terms. *)
Definition tier1 : M Store (option ToolResult) :=
  match wanted with
  | Some name =>
      if hasTerms searchTerms
      then
        (videoSegmentResult <- segmentSearch (Some name) ;;
         if foundSegments videoSegmentResult
         then
           transcripts <- transcriptsOf botData ;;
           let speakerLower := Js.toLowerCase name in
           let speakerMatch :=
             filter (fun t => looselyMatches speakerLower (speaker t)) transcripts in
           let searchTermWords := Js.splitWhiteSpace (Js.toLowerCase searchTerms) in
           let filteredByTerms :=
             filter (fun t =>
                       existsb (Js.includes (Js.toLowerCase (textOf t))) searchTermWords)
                    speakerMatch in
           match filteredByTerms with
           | [] => ret None
           | firstSegment :: _ =>
               botName <- botNameOf botData ;;
               ret (Some (segmentsAnswer
                            ("Found " ++ countText filteredByTerms ++ " segments where "
                               ++ name ++ " mentioned " ++ quoted searchTerms
                               ++ " in meeting " ++ quoted botName ++ ".")%string
                            botData filteredByTerms firstSegment))
           end
         else ret None)%tool
      else ret None
  | None => ret None
  end.

(** Tier 2: the segments of the speaker. *)
Definition tier2 : M Store (option ToolResult) :=
  match wanted with
  | Some name =>
      (speakerResult <- segmentSearch (Some name) ;;
       if foundSegments speakerResult then ret (Some speakerResult) else ret None)%tool
  | None => ret None
  end.

(** Tier 3: the segments that hold at least half of the terms. *)
Definition tier3 : M Store (option ToolResult) :=
  if hasTerms searchTerms
  then
    let searchWords :=
      filter (fun w => (2 <? String.length w)%nat)
             (Js.splitWhiteSpace (Js.toLowerCase searchTerms)) in
    if (1 <? List.length searchWords)%nat
    then
      (transcripts <- transcriptsOf botData ;;
       let multiTermResults :=
         filter (fun t =>
                   let matchCount :=
                     List.length
                       (filter (Js.includes (Js.toLowerCase (textOf t))) searchWords) in
                   (Nat.max 1 (List.length searchWords / 2) <=? matchCount)%nat)
                transcripts in
       match multiTermResults with
       | [] => ret None
       | firstSegment :: _ =>
           botName <- botNameOf botData ;;
           ret (Some (segmentsAnswer
                        ("Found " ++ countText multiTermResults ++ " segments related to "
                           ++ quoted searchTerms ++ " in meeting " ++ quoted botName ++ ".")%string
                        botData multiTermResults firstSegment))
       end)%tool
    else ret None
  else ret None.

(** Tier 4 answers whenever there are search terms; tier 5 is what is
    left. *)
Definition tier4 : M Store ToolResult :=
  searchTranscript (mkSearchTranscriptArgs botId searchTerms) validSession.

Definition tier5 : M Store ToolResult := segmentSearch wanted.

Definition tiers : M Store ToolResult :=
  orElseTier tier1
    (orElseTier tier2
       (orElseTier tier3
          (if hasTerms searchTerms then tier4 else tier5))).
End Tiers.

Definition intelligentSearch (args : IntelligentSearchArgs) (session : option SessionRef)
  : M Store ToolResult :=
  tryCatch
    (validSession <- createValidSession environment session ;;
     match validSession with
     | None => ret authenticationFailed
     | Some _ =>
         let botId := is_botId args in
         let speaker := resolveSpeaker args in
         let timeRange := resolveTimeRange args in
         let searchTerms := searchTermsOf (is_query args) in
         tryCatch
           (botData <- apiRequest backend validSession botId ;;
            trackSafely session botId botData ;;;
            tiers botId validSession botData speaker timeRange searchTerms)
           (fun message =>
              ret (Text ("Error searching meeting " ++ botId ++ ": " ++ message)%string))
     end)%tool
    (fun message =>
       ret (Text ("An error occurred during the search: " ++ message)%string)).

End Tools.
End Search.

(** ** [findRepeatedPhrases] of [src/tools/links.ts]

    The phrases are the properties of a JavaScript object.  A phrase joins
    two or three words with a space, so it is neither an array index nor the
    name of a property that objects inherit: the object lists its phrases in
    the order in which they were first counted, and a phrase not yet counted
    reads as [undefined]. *)
Module Phrases.

(** [text.toLowerCase().replace(/[^\w\s]/g, '')] *)
Definition normalize (text : string) : string :=
  Regex.removeAll false (Regex.Chr true (Regex.Union Regex.Word Regex.Space))
                  (Js.toLowerCase text).

(** [normalizedText.split(/\s+/).filter(w => w.length > 2)] *)
Definition longWords (text : string) : list string :=
  filter (fun w => (2 <? String.length w)%nat) (Js.splitWhiteSpace (normalize text)).

(** [words.slice(i, i + size).join(' ')] for [i] from 0 to
    [words.length - size]. *)
Fixpoint windows (size : nat) (words : list string) : list string :=
  match words with
  | [] => []
  | _ :: rest =>
      if (size <=? List.length words)%nat
      then Js.join " " (firstn size words) :: windows size rest
      else []
  end.

(** [phrases[phrase] = (phrases[phrase] || 0) + 1] *)
Fixpoint bump (phrase : string) (phrases : list (string * Z)) : list (string * Z) :=
  match phrases with
  | [] => [(phrase, 1)]
  | (key, count) :: rest =>
      if String.eqb key phrase
      then (key, count + 1) :: rest
      else (key, count) :: bump phrase rest
  end.

(** The inner loop for one window size. *)
Definition countWindows (size : nat) (words : list string) (phrases : list (string * Z))
  : list (string * Z) :=
  fold_left
    (fun phrases phrase =>
       if (5 <? String.length phrase)%nat then bump phrase phrases else phrases)
    (windows size words) phrases.

Definition findRepeatedPhrases (text : string) : list (string * Z) :=
  let words := longWords text in
  countWindows 3 words (countWindows 2 words []).

End Phrases.

(** ** [src/utils/tinyDb.ts]

    The database holds its records in memory and writes them to a file after
    every change.  The file system is a parameter: a write may throw, and
    [saveToFile] catches what it throws. *)
Module TinyDb.

Record BotRecord := mkBotRecord {
  id : string;
  name : option string;
  meetingUrl : option string;
  meetingType : option string;
  createdAt : option string;
  lastAccessedAt : string;
  accessCount : Z;
  creator : option string;
  participants : option (list string);
  topics : option (list string);
  extra : option Runtime.Extra
}.

(** A property of the argument of [trackBot]: left out, or given, be it with
    the value [undefined]. *)
Inductive Field (A : Type) :=
| Absent
| Present (value : option A).
Arguments Absent {A}.
Arguments Present {A} value.

(** [Partial<BotRecord> & { id: string }].  A [lastAccessedAt] or an
    [accessCount] of the argument is overwritten in both branches of
    [trackBot], so the argument does not carry them. *)
Record BotData := mkBotData {
  d_id : string;
  d_name : Field string;
  d_meetingUrl : Field string;
  d_meetingType : Field string;
  d_createdAt : Field string;
  d_creator : Field string;
  d_participants : Field (list string);
  d_topics : Field (list string);
  d_extra : Field Runtime.Extra
}.

(** One property of [{ ...existing, ...botData }]. *)
Definition spread {A : Type} (existing : option A) (given : Field A) : option A :=
  match given with
  | Absent => existing
  | Present value => value
  end.

Record Data := mkData {
  recentBots : list BotRecord;
  lastUpdated : string
}.

Section Database.
(** The file system, and [fs.writeFileSync(dbPath, JSON.stringify(data))] on
    it. *)
Variable Disk : Type.
Variable writeFileSync : string -> Data -> Disk -> Runtime.Outcome unit * Disk.

Record State := mkState {
  dbPath : string;
  data : Data;
  disk : Disk
}.

(** [saveToFile], at the time [now]: the time stamp is set before the write,
    and a write that throws is logged and forgotten. *)
Definition saveToFile (now : string) (st : State) : State :=
  let stamped := mkData (recentBots (data st)) now in
  let '(_, disk') := writeFileSync (dbPath st) stamped (disk st) in
  mkState (dbPath st) stamped disk'.

(** [recentBots.findIndex(bot => bot.id === id)], with the record that
    [recentBots[existingIndex]] then reads. *)
Fixpoint findIndex (wanted : string) (bots : list BotRecord) : option (nat * BotRecord) :=
  match bots with
  | [] => None
  | bot :: rest =>
      if String.eqb (id bot) wanted then Some (O, bot)
      else match findIndex wanted rest with
           | Some (index, found) => Some (S index, found)
           | None => None
           end
  end.

(** [recentBots.splice(index, 1)] *)
Fixpoint removeAt (index : nat) (bots : list BotRecord) : list BotRecord :=
  match bots, index with
  | [], _ => []
  | _ :: rest, O => rest
  | bot :: rest, S index' => bot :: removeAt index' rest
  end.

Definition updatedBot (accessedAt : string) (existingBot : BotRecord) (botData : BotData)
  : BotRecord :=
  mkBotRecord (d_id botData)
    (spread (name existingBot) (d_name botData))
    (spread (meetingUrl existingBot) (d_meetingUrl botData))
    (spread (meetingType existingBot) (d_meetingType botData))
    (spread (createdAt existingBot) (d_createdAt botData))
    accessedAt
    (accessCount existingBot + 1)
    (spread (creator existingBot) (d_creator botData))
    (spread (participants existingBot) (d_participants botData))
    (spread (topics existingBot) (d_topics botData))
    (spread (extra existingBot) (d_extra botData)).

Definition newBot (accessedAt : string) (botData : BotData) : BotRecord :=
  mkBotRecord (d_id botData)
    (spread None (d_name botData))
    (spread None (d_meetingUrl botData))
    (spread None (d_meetingType botData))
    (spread None (d_createdAt botData))
    accessedAt
    1
    (spread None (d_creator botData))
    (spread None (d_participants botData))
    (spread None (d_topics botData))
    (spread None (d_extra botData)).

(** [trackBot]: [accessedAt] and [savedAt] are the two readings of the
    clock. *)
Definition trackBot (accessedAt savedAt : string) (botData : BotData) (st : State)
  : BotRecord * State :=
  let bots := recentBots (data st) in
  match findIndex (d_id botData) bots with
  | Some (existingIndex, existingBot) =>
      let updated := updatedBot accessedAt existingBot botData in
      (updated,
       saveToFile savedAt
         (mkState (dbPath st)
                  (mkData (updated :: removeAt existingIndex bots) (lastUpdated (data st)))
                  (disk st)))
  | None =>
      let created := newBot accessedAt botData in
      let added := created :: bots in
      let kept := if (50 <? List.length added)%nat then Js.slice0 added 50 else added in
      (created,
       saveToFile savedAt
         (mkState (dbPath st) (mkData kept (lastUpdated (data st))) (disk st)))
  end.
End Database.

Arguments mkState {Disk} dbPath data disk.
Arguments dbPath {Disk} s.
Arguments data {Disk} s.
Arguments disk {Disk} s.

(** [getRecentBots(limit)] *)
Definition getRecentBots (db : Data) (limit : Z) : list BotRecord :=
  Js.slice0 (recentBots db) limit.

(** [getMostAccessedBots(limit)] *)
Definition getMostAccessedBots (db : Data) (limit : Z) : list BotRecord :=
  Js.slice0 (Js.sortByKey (fun bot => - accessCount bot) (recentBots db)) limit.

(** [getBotsByMeetingType(meetingType)] *)
Definition getBotsByMeetingType (db : Data) (wanted : string) : list BotRecord :=
  filter (fun bot =>
            match meetingType bot with
            | Some type => String.eqb (Js.toLowerCase type) (Js.toLowerCase wanted)
            | None => false
            end)
         (recentBots db).

(** [getBot(id)] *)
Definition getBot (db : Data) (wanted : string) : option BotRecord :=
  find (fun bot => String.eqb (id bot) wanted) (recentBots db).

(** [updateSession(session)] *)
Definition updateSession {Store : Type} (db : Data) (session : option Runtime.SessionRef)
  : Runtime.M Store unit :=
  match session with
  | None => Runtime.ret tt
  | Some ref =>
      (object <- Runtime.getSession ref ;;
       match object with
       | None => Runtime.ret tt
       | Some obj =>
           Runtime.setSession ref
             (Runtime.mkSession (Runtime.apiKey obj)
                                (Some (map id (getRecentBots db 5))))
       end)%tool
  end.

End TinyDb.

(** * Vocabulary of the properties *)

Import Links.

(** A list in ascending order of a key. *)
Definition ascendingBy {A : Type} (key : A -> Z) (l : list A) : Prop :=
  StronglySorted (fun a b => key a <= key b) l.

(** The state in which the loop of [deduplicateSegments] ends. *)
Definition dedupRun (segments : list Candidate) : DedupLoop :=
  fold_left dedupStep segments (mkDedupLoop [] []).

(** A loop state of the chunker that holds a chunk in progress, whose first
    segment gives the reference time. *)
Definition openChunk (st : ChunkLoop) : Prop :=
  currentChunk st <> [] /\ chunkStartTime st = chunkRef (currentChunk st).

(** What a pattern of the scoring table adds to the score of a text. *)
Definition hit (pattern : Regex.Regex) (weight : Z) (text : string) : Z :=
  if Regex.test true pattern text then weight else 0.

(** The description rule as the specification words it: one next-steps
    language for the score and for the description, that of the scoring
    table. *)
Definition specDescription (text : string) (importance : Z) : string :=
  if Regex.test true summaryTerms text then "Summary or conclusion"
  else if Regex.test true nextStepsTerms text then "Discussion about next steps"
  else if Regex.test true decisionTerms text then "Decision point"
  else if Regex.test true problemTerms text then "Problem discussion"
  else if Regex.test true solutionTerms text then "Solution discussion"
  else if 5 <? importance then "Highly important discussion"
  else if 3 <? importance then "Important point"
  else "Notable discussion".

(** The transcript of the end-to-end scenario. *)
Definition scenario : list Transcript :=
  [ mkTranscript "A" 0 None ["Let's"; "start"; "the"; "meeting"];
    mkTranscript "B" 20 None
      ["I"; "think"; "the"; "budget"; "is"; "a"; "key"; "issue"; "we"; "must"; "resolve"];
    mkTranscript "A" 600 None ["In"; "conclusion,"; "thanks"; "everyone"] ].

Definition scenarioMeeting : Runtime.ApiResponse :=
  Runtime.mkApiResponse "https://video.example/rec.mp4"
    (Some (Runtime.mkBotData
             (Some (Runtime.mkBot "Planning" "https://meet.example/2" "2024-01-01" None None))
             scenario)).

Definition scenarioBackend (key botId : string) (n : nat)
  : Runtime.Outcome Runtime.ApiResponse :=
  Runtime.Return scenarioMeeting.

Definition budgetMoment : Candidate :=
  mkCandidate 20 "B" "I think the budget is a key issue we must resolve" 9 content
              "Problem discussion".

Definition conclusionMoment : Candidate :=
  mkCandidate 600 "A" "In conclusion, thanks everyone" 4 content "Summary or conclusion".

Definition startMoment : Candidate :=
  mkCandidate 0 "A" "Let's start the meeting" 5 structural "Meeting start".

Definition endMoment : Candidate :=
  mkCandidate 600 "A" "In conclusion, thanks everyone" 4 structural "Meeting conclusion".

(** The recent bot ids of the session object at a reference. *)
Definition recentOf {Store : Type} (w : Runtime.World Store) (ref : Runtime.SessionRef)
  : option (list string) :=
  match nth_error (Runtime.sessions w) ref with
  | Some obj => Runtime.recentBotIds obj
  | None => None
  end.

(** The world after a series of calls of [updateRecentBots] on one session. *)
Definition trackingRuns {Store : Type}
    (trackBot : string -> Search.BotMetadata -> Store -> Runtime.Outcome unit * Store)
    (ref : Runtime.SessionRef) (calls : list (string * Search.BotMetadata))
    (w : Runtime.World Store) : Runtime.World Store :=
  fold_left
    (fun w call => snd (Search.updateRecentBots trackBot (Some ref) (fst call) (snd call) w))
    calls w.

(** Two worlds, each with a store of its own, that hold the same sessions
    and have seen the same number of API requests. *)
Definition sameSessions {S1 S2 : Type} (w1 : Runtime.World S1) (w2 : Runtime.World S2)
  : Prop :=
  Runtime.sessions w1 = Runtime.sessions w2 /\ Runtime.apiCalls w1 = Runtime.apiCalls w2.

(** Two computations that give the same outcome from such worlds, and leave
    such worlds. *)
Definition sameAnswer {S1 S2 A : Type} (m1 : Runtime.M S1 A) (m2 : Runtime.M S2 A)
  : Prop :=
  forall w1 w2,
    sameSessions w1 w2 ->
    fst (m1 w1) = fst (m2 w2) /\ sameSessions (snd (m1 w1)) (snd (m2 w2)).

(** A computation that returns, whatever the world. *)
Definition returns {Store A : Type} (m : Runtime.M Store A) : Prop :=
  forall w, exists a, fst (m w) = Runtime.Return a.

(** A meeting for the examples: two segments of one speaker, and a backend
    that always answers with it; a session that holds a key; a tracker that
    always throws and one that never does; times rendered as plain
    seconds. *)
Definition sampleMeeting : Runtime.ApiResponse :=
  Runtime.mkApiResponse "https://video.example/rec.mp4?sig=1"
    (Some (Runtime.mkBotData
             (Some (Runtime.mkBot "Standup" "https://meet.example/1" "2024-01-01" None None))
             [ mkTranscript "Alice" 10 None ["hello"];
               mkTranscript "Alice" 400 None ["world"] ])).

Definition sampleBackend (key botId : string) (n : nat)
  : Runtime.Outcome Runtime.ApiResponse :=
  Runtime.Return sampleMeeting.

Definition noFallback : Runtime.Environment := Runtime.mkEnvironment None None.

Definition oneSession : Runtime.World unit :=
  Runtime.mkWorld [Runtime.mkSession "key" None] 0 tt.

Definition failingTracker (botId : string) (metadata : Search.BotMetadata) (store : unit)
  : Runtime.Outcome unit * unit :=
  (Runtime.Throw "ENOSPC: no space left on device", store).

Definition quietTracker (botId : string) (metadata : Search.BotMetadata) (store : unit)
  : Runtime.Outcome unit * unit :=
  (Runtime.Return tt, store).

Definition plainSeconds (seconds : Z) : string := Js.numberToString seconds.

(** Two candidates at least 30 seconds apart. *)
Definition farApart (a b : Candidate) : Prop :=
  30 <= Z.abs (timestamp a - timestamp b).

(** Reference times that each lie more than [maxChunkDuration] after the one
    before. *)
Fixpoint stepsOver (maxChunkDuration : Z) (refs : list Z) : Prop :=
  match refs with
  | r1 :: ((r2 :: _) as rest) =>
      maxChunkDuration < r2 - r1 /\ stepsOver maxChunkDuration rest
  | _ => True
  end.

(** A chunk whose segments after the first start at most [maxChunkDuration]
    after the first. *)
Definition tailWithin (maxChunkDuration : Z) (chunk : list Transcript) : Prop :=
  Forall (fun seg => start_time seg - chunkRef chunk <= maxChunkDuration) (tl chunk).

(** What the loop of the chunker has built while a chunk is open. *)
Definition spansKept (maxChunkDuration : Z) (st : ChunkLoop) : Prop :=
  openChunk st
  /\ Forall (tailWithin maxChunkDuration) (chunks st ++ [currentChunk st])
  /\ stepsOver maxChunkDuration (map chunkRef (chunks st ++ [currentChunk st])).

(** The session object that a tool call is given, if any. *)
Definition sessionObject {Store : Type} (w : Runtime.World Store)
    (session : option Runtime.SessionRef) : option Runtime.SessionObject :=
  match session with
  | Some ref => nth_error (Runtime.sessions w) ref
  | None => None
  end.

(** The end of a segment as the time filter sees it: five seconds after the
    start when the segment has no end time. *)
Definition segmentEnd (t : Transcript) : Z :=
  match end_time t with
  | Some e => e
  | None => start_time t + 5
  end.

(** A string that does not start with white space. *)
Definition noLeadingSpace (s : string) : Prop :=
  match s with
  | EmptyString => True
  | String c _ => Js.isWhiteSpace c = false
  end.

(** [phrases[phrase] || 0]: the count that the table of
    [findRepeatedPhrases] holds for a phrase. *)
Definition countOf (phrase : string) (phrases : list (string * Z)) : Z :=
  match find (fun entry => String.eqb (fst entry) phrase) phrases with
  | Some (_, count) => count
  | None => 0
  end.

(** * Properties *)

(** ** Sorting and slicing *)

Section SortFacts.
Variable A : Type.
Variable key : A -> Z.

Lemma insertByKey_perm (x : A) (l : list A) :
  Permutation (Js.insertByKey key x l) (x :: l).
Proof.
  induction l as [|y l IH]; simpl.
  - apply Permutation_refl.
  - destruct (key x <=? key y).
    + apply Permutation_refl.
    + apply perm_trans with (y :: x :: l).
      * apply perm_skip, IH.
      * apply perm_swap.
Qed.

Lemma sortByKey_perm (l : list A) : Permutation (Js.sortByKey key l) l.
Proof.
  induction l as [|x l IH]; simpl.
  - apply perm_nil.
  - apply perm_trans with (x :: Js.sortByKey key l).
    + apply insertByKey_perm.
    + apply perm_skip, IH.
Qed.

Lemma insertByKey_sorted (x : A) (l : list A) :
  ascendingBy key l -> ascendingBy key (Js.insertByKey key x l).
Proof.
  unfold ascendingBy.
  induction l as [|y l IH]; simpl; intros Hs.
  - constructor; [constructor | constructor].
  - inversion Hs as [|? ? Hl Hy]; subst.
    destruct (key x <=? key y) eqn:E.
    + apply Z.leb_le in E.
      constructor; [assumption|].
      constructor; [assumption|].
      eapply Forall_impl; [|exact Hy].
      intros a Ha; simpl in Ha; lia.
    + apply Z.leb_gt in E.
      constructor; [apply IH; assumption|].
      apply Forall_forall. intros a Ha.
      apply (Permutation_in _ (insertByKey_perm x l)) in Ha.
      destruct Ha as [<-|Ha]; [lia|].
      rewrite Forall_forall in Hy. apply Hy, Ha.
Qed.

Lemma sortByKey_sorted (l : list A) : ascendingBy key (Js.sortByKey key l).
Proof.
  induction l as [|x l IH]; simpl.
  - constructor.
  - apply insertByKey_sorted, IH.
Qed.

Lemma sortByKey_length (l : list A) :
  List.length (Js.sortByKey key l) = List.length l.
Proof. apply Permutation_length, sortByKey_perm. Qed.

Lemma ascendingBy_firstn (n : nat) (l : list A) :
  ascendingBy key l -> ascendingBy key (firstn n l).
Proof.
  unfold ascendingBy. revert n.
  induction l as [|x l IH]; intros [|n] Hs; simpl; try constructor.
  - inversion Hs; subst. apply IH; assumption.
  - inversion Hs as [|? ? _ Hx]; subst.
    rewrite Forall_forall in *. intros a Ha.
    apply Hx. rewrite <- (firstn_skipn n l).
    apply in_or_app; left; exact Ha.
Qed.

(** In a sorted list, what lies past a point is no smaller than what lies
    before it. *)
Lemma ascendingBy_split (n : nat) (l : list A) :
  ascendingBy key l ->
  forall a b, In a (firstn n l) -> In b (skipn n l) -> key a <= key b.
Proof.
  unfold ascendingBy. revert n.
  induction l as [|x l IH]; intros [|n] Hs a b Ha Hb; simpl in *; try contradiction.
  inversion Hs as [|? ? Hl Hx]; subst.
  destruct Ha as [<-|Ha].
  - rewrite Forall_forall in Hx. apply Hx.
    rewrite <- (firstn_skipn n l). apply in_or_app; right; exact Hb.
  - eapply IH; eassumption.
Qed.
End SortFacts.

Lemma slice0_firstn (A : Type) (l : list A) (stop : Z) :
  0 <= stop -> Js.slice0 l stop = firstn (Z.to_nat stop) l.
Proof.
  intros H. unfold Js.slice0.
  destruct (stop <? 0) eqn:E; [apply Z.ltb_lt in E; lia | reflexivity].
Qed.

(** ** Deduplication and the selection of moments *)

Lemma dedupStep_used (st : DedupLoop) (segment : Candidate) :
  usedTimeRanges st = map timestamp (result st) ->
  usedTimeRanges (dedupStep st segment) = map timestamp (result (dedupStep st segment)).
Proof.
  intros H. unfold dedupStep.
  destruct (isTooClose (usedTimeRanges st) segment); simpl.
  - exact H.
  - rewrite map_app, H. reflexivity.
Qed.

Lemma dedupFold_used (segments : list Candidate) (st : DedupLoop) :
  usedTimeRanges st = map timestamp (result st) ->
  usedTimeRanges (fold_left dedupStep segments st)
  = map timestamp (result (fold_left dedupStep segments st)).
Proof.
  revert st. induction segments as [|s l IH]; intros st H; simpl.
  - exact H.
  - apply IH, dedupStep_used, H.
Qed.

Lemma dedupRun_used (segments : list Candidate) :
  usedTimeRanges (dedupRun segments) = map timestamp (result (dedupRun segments)).
Proof. apply dedupFold_used. reflexivity. Qed.

(** The early return for lists of at most one segment gives what the loop
    gives. *)
Lemma deduplicateSegments_run (segments : list Candidate) :
  deduplicateSegments segments = result (dedupRun segments).
Proof.
  unfold deduplicateSegments, dedupRun.
  destruct segments as [|a [|b l]]; reflexivity.
Qed.

Lemma existsb_map (A B : Type) (f : A -> B) (p : B -> bool) (l : list A) :
  existsb p (map f l) = existsb (fun a => p (f a)) l.
Proof.
  induction l as [|a l IH]; simpl; [reflexivity | rewrite IH; reflexivity].
Qed.

Lemma deduplicateSegments_snoc (walked : list Candidate) (segment : Candidate) :
  deduplicateSegments (walked ++ [segment])
  = if existsb (fun accepted => Z.abs (timestamp segment - timestamp accepted) <? 30)
               (deduplicateSegments walked)
    then deduplicateSegments walked
    else deduplicateSegments walked ++ [segment].
Proof.
  rewrite !deduplicateSegments_run.
  unfold dedupRun at 1. rewrite fold_left_app. simpl.
  fold (dedupRun walked).
  unfold dedupStep, isTooClose.
  rewrite dedupRun_used, existsb_map.
  destruct (existsb _ (result (dedupRun walked))); reflexivity.
Qed.

Lemma sortByImportance_descending (segments : list Candidate) :
  StronglySorted (fun a b => importance b <= importance a) (sortByImportance segments).
Proof.
  unfold sortByImportance.
  pose proof (sortByKey_sorted (fun c => - importance c) segments) as H.
  unfold ascendingBy in H.
  induction H as [|a l Hl IH Ha]; constructor; [exact IH|].
  eapply Forall_impl; [|exact Ha]. intros b Hb. simpl in Hb. lia.
Qed.

(** Candidates whose timestamps and importances are given, whatever their
    other fields. *)
Ltac candidates_of Ht Hi :=
  repeat match goal with
         | cs : list Candidate |- _ =>
             destruct cs as [|[? ? ? ? ? ?] cs]; simpl in Ht, Hi; try discriminate
         end;
  injection Ht as ?; injection Hi as ?; subst.

(** C1. Truncation comes after the chronological sort: for any candidates and
    any [maxMoments >= 1] the moments returned are the first [maxMoments]
    survivors of the deduplication in ascending order of timestamp, so every
    survivor left out is no earlier than every moment returned; importance
    plays no part in the cut.  For survivors at 10, 50, 90, 500 and 900 of
    importances 1, 9, 1, 1, 1 and [maxMoments = 3] the moments are those at
    10, 50 and 90; and with the importance 9 at 500 instead, the moments are
    still those at 10, 50 and 90, the most important survivor being left
    out. *)
Theorem selectMoments_keeps_earliest :
  (forall (allSegments : list Candidate) (maxMoments : Z),
      1 <= maxMoments ->
      let survivors := deduplicateSegments (sortByImportance allSegments) in
      let moments := selectMoments allSegments maxMoments in
      moments = firstn (Z.to_nat maxMoments) (sortByTimestamp survivors)
      /\ ascendingBy timestamp moments
      /\ List.length moments = Nat.min (Z.to_nat maxMoments) (List.length survivors)
      /\ exists later,
          Permutation survivors (moments ++ later)
          /\ forall m l, In m moments -> In l later -> timestamp m <= timestamp l)
  /\ (forall candidates : list Candidate,
         map timestamp candidates = [10; 50; 90; 500; 900] ->
         map importance candidates = [1; 9; 1; 1; 1] ->
         deduplicateSegments (sortByImportance candidates)
         = sortByImportance candidates
         /\ map timestamp (selectMoments candidates 3) = [10; 50; 90])
  /\ (forall candidates : list Candidate,
         map timestamp candidates = [10; 50; 90; 500] ->
         map importance candidates = [1; 1; 1; 9] ->
         map timestamp (deduplicateSegments (sortByImportance candidates))
         = [500; 10; 50; 90]
         /\ map timestamp (selectMoments candidates 3) = [10; 50; 90]).
Proof.
  split.
  - intros allSegments maxMoments Hmax survivors moments.
    assert (Hm : moments = firstn (Z.to_nat maxMoments) (sortByTimestamp survivors)).
    { unfold moments, selectMoments. fold survivors. apply slice0_firstn. lia. }
    split; [exact Hm|].
    split.
    { rewrite Hm. apply ascendingBy_firstn. apply sortByKey_sorted. }
    split.
    { rewrite Hm, length_firstn. unfold sortByTimestamp.
      rewrite sortByKey_length. reflexivity. }
    exists (skipn (Z.to_nat maxMoments) (sortByTimestamp survivors)).
    split.
    + rewrite Hm, firstn_skipn. apply Permutation_sym. apply sortByKey_perm.
    + intros m l Hin Hl. rewrite Hm in Hin.
      eapply (ascendingBy_split (key := timestamp)); try eassumption.
      apply sortByKey_sorted.
  - split; intros candidates Ht Hi; candidates_of Ht Hi; split; reflexivity.
Qed.

Lemma selectMoments_keeps_earliest_witness :
  1 <= 3
  /\ selectMoments [mkCandidate 50 "B" "budget" 9 content "Important point";
                    mkCandidate 10 "A" "hello" 1 content "Notable discussion"] 3
     = firstn 3 (sortByTimestamp
                   (deduplicateSegments
                      (sortByImportance
                         [mkCandidate 50 "B" "budget" 9 content "Important point";
                          mkCandidate 10 "A" "hello" 1 content "Notable discussion"]))).
Proof.
  split; [lia|].
  apply (proj1 selectMoments_keeps_earliest
           [mkCandidate 50 "B" "budget" 9 content "Important point";
            mkCandidate 10 "A" "hello" 1 content "Notable discussion"] 3).
  lia.
Defined.



(** ** Chunking *)

Section ChunkFacts.
Variable maxChunkDuration : Z.

Lemma flushChunks_nonempty (st : ChunkLoop) :
  currentChunk st <> [] -> flushChunks st = chunks st ++ [currentChunk st].
Proof.
  unfold flushChunks. destruct (currentChunk st); [congruence | reflexivity].
Qed.

Lemma chunkStep_concat (st : ChunkLoop) (segment : Transcript) :
  List.concat (flushChunks (chunkStep maxChunkDuration st segment))
  = List.concat (flushChunks st) ++ [segment].
Proof.
  unfold chunkStep, flushChunks.
  destruct (currentChunk st) as [|c cur] eqn:E; simpl.
  - rewrite concat_app. simpl. reflexivity.
  - destruct (start_time segment - chunkStartTime st <=? maxChunkDuration); simpl.
    + rewrite !concat_app. simpl. rewrite !app_nil_r, <- app_assoc. reflexivity.
    + rewrite !concat_app. simpl. rewrite !app_nil_r. reflexivity.
Qed.

Lemma chunkLoop_concat (transcripts : list Transcript) (st : ChunkLoop) :
  List.concat (flushChunks (chunkLoop maxChunkDuration st transcripts))
  = List.concat (flushChunks st) ++ transcripts.
Proof.
  revert st. induction transcripts as [|t l IH]; intros st; simpl.
  - rewrite app_nil_r. reflexivity.
  - unfold chunkLoop in *. simpl. rewrite IH, chunkStep_concat, <- app_assoc.
    reflexivity.
Qed.

Lemma chunkStep_open (st : ChunkLoop) (segment : Transcript) :
  openChunk st -> openChunk (chunkStep maxChunkDuration st segment).
Proof.
  unfold openChunk, chunkStep. intros [Hne Href].
  destruct (currentChunk st) as [|c cur] eqn:E; [congruence|]. simpl.
  destruct (start_time segment - chunkStartTime st <=? maxChunkDuration); simpl.
  - split; [discriminate | exact Href].
  - split; [discriminate | reflexivity].
Qed.

Lemma chunkLoop_open (transcripts : list Transcript) (st : ChunkLoop) :
  openChunk st -> openChunk (chunkLoop maxChunkDuration st transcripts).
Proof.
  revert st. induction transcripts as [|t l IH]; intros st H; simpl.
  - exact H.
  - apply IH, chunkStep_open, H.
Qed.

(** After the first segment the loop holds the chunk that it opens. *)
Lemma chunkLoop_first (first : Transcript) (rest : list Transcript) :
  chunkLoop maxChunkDuration (mkChunkLoop [] [] (start_time first)) (first :: rest)
  = chunkLoop maxChunkDuration (mkChunkLoop [] [first] (start_time first)) rest.
Proof. reflexivity. Qed.

Lemma chunkLoop_first_open (first : Transcript) (rest : list Transcript) :
  openChunk (chunkLoop maxChunkDuration (mkChunkLoop [] [] (start_time first))
                       (first :: rest)).
Proof.
  rewrite chunkLoop_first. apply chunkLoop_open.
  split; [discriminate | reflexivity].
Qed.

Lemma chunkStep_chunks_nonempty (st : ChunkLoop) (segment : Transcript) :
  Forall (fun c => c <> []) (chunks st) ->
  Forall (fun c => c <> []) (chunks (chunkStep maxChunkDuration st segment)).
Proof.
  intros H. unfold chunkStep.
  destruct (currentChunk st) as [|c cur] eqn:E; simpl; [exact H|].
  destruct (start_time segment - chunkStartTime st <=? maxChunkDuration); simpl.
  - exact H.
  - apply Forall_app. split; [exact H|]. constructor; [discriminate | constructor].
Qed.

Lemma chunkLoop_chunks_nonempty (transcripts : list Transcript) (st : ChunkLoop) :
  Forall (fun c => c <> []) (chunks st) ->
  Forall (fun c => c <> []) (chunks (chunkLoop maxChunkDuration st transcripts)).
Proof.
  revert st. induction transcripts as [|t l IH]; intros st H; simpl.
  - exact H.
  - apply IH, chunkStep_chunks_nonempty, H.
Qed.

Lemma group_as_loop (first : Transcript) (rest : list Transcript) :
  let st := chunkLoop maxChunkDuration (mkChunkLoop [] [] (start_time first))
                      (first :: rest) in
  groupTranscriptsIntoChunks (first :: rest) maxChunkDuration
  = chunks st ++ [currentChunk st]
  /\ openChunk st.
Proof.
  intros st. pose proof (chunkLoop_first_open first rest) as Hopen.
  split; [|exact Hopen].
  unfold groupTranscriptsIntoChunks. apply flushChunks_nonempty, Hopen.
Qed.

Lemma chunkLoop_snoc (st : ChunkLoop) (l : list Transcript) (x : Transcript) :
  chunkLoop maxChunkDuration st (l ++ [x])
  = chunkStep maxChunkDuration (chunkLoop maxChunkDuration st l) x.
Proof. unfold chunkLoop. rewrite fold_left_app. reflexivity. Qed.

Lemma flushChunks_step (st : ChunkLoop) (segment : Transcript) :
  openChunk st ->
  flushChunks (chunkStep maxChunkDuration st segment)
  = if start_time segment - chunkRef (currentChunk st) <=? maxChunkDuration
    then chunks st ++ [currentChunk st ++ [segment]]
    else (chunks st ++ [currentChunk st]) ++ [[segment]].
Proof.
  intros [Hne Href]. unfold chunkStep. rewrite Href.
  destruct (currentChunk st) as [|c cur] eqn:E; [congruence|].
  simpl.
  destruct (start_time segment - start_time c <=? maxChunkDuration); reflexivity.
Qed.

Lemma last_snoc (A : Type) (l : list A) (x d : A) : List.last (l ++ [x]) d = x.
Proof. apply last_last. Qed.
End ChunkFacts.

(** C7. Chunking keeps every segment, once and in order: the chunks are not
    empty and their concatenation is the input; the empty input gives no
    chunk, the first segment opens the first chunk, and every later segment
    joins the last chunk exactly when its start time is at most
    [maxChunkDuration] past the start time of the first segment of that
    chunk, and opens a new chunk otherwise. *)
Theorem groupTranscriptsIntoChunks_partition (maxChunkDuration : Z) :
  groupTranscriptsIntoChunks [] maxChunkDuration = []
  /\ (forall transcripts,
         List.concat (groupTranscriptsIntoChunks transcripts maxChunkDuration) = transcripts
         /\ Forall (fun chunk => chunk <> [])
                   (groupTranscriptsIntoChunks transcripts maxChunkDuration))
  /\ (forall segment, groupTranscriptsIntoChunks [segment] maxChunkDuration = [[segment]])
  /\ (forall earlier segment,
         earlier <> [] ->
         let before := groupTranscriptsIntoChunks earlier maxChunkDuration in
         let current := List.last before [] in
         groupTranscriptsIntoChunks (earlier ++ [segment]) maxChunkDuration
         = if start_time segment - chunkRef current <=? maxChunkDuration
           then removelast before ++ [current ++ [segment]]
           else before ++ [[segment]]).
Proof.
  split; [reflexivity|].
  split.
  { intros [|first rest]; [split; [reflexivity | constructor]|].
    destruct (group_as_loop maxChunkDuration first rest) as [Hg Hopen].
    split.
    - unfold groupTranscriptsIntoChunks. rewrite chunkLoop_concat. reflexivity.
    - rewrite Hg. apply Forall_app. split.
      + apply chunkLoop_chunks_nonempty. constructor.
      + constructor; [apply Hopen | constructor]. }
  split; [reflexivity|].
  intros [|first rest] segment Hne before current; [congruence|].
  destruct (group_as_loop maxChunkDuration first rest) as [Hg [Hcur Href]].
  unfold current, before. rewrite Hg, last_snoc, removelast_last.
  change ((first :: rest) ++ [segment]) with (first :: (rest ++ [segment])).
  unfold groupTranscriptsIntoChunks.
  change (first :: rest ++ [segment]) with ((first :: rest) ++ [segment]).
  rewrite chunkLoop_snoc. apply flushChunks_step. split; assumption.
Qed.

Lemma groupTranscriptsIntoChunks_partition_witness :
  [mkTranscript "A" 0 None ["start"]; mkTranscript "B" 200 None ["more"]] <> []
  /\ groupTranscriptsIntoChunks
       ([mkTranscript "A" 0 None ["start"]; mkTranscript "B" 200 None ["more"]]
          ++ [mkTranscript "A" 301 None ["late"]]) 300
     = [[mkTranscript "A" 0 None ["start"]; mkTranscript "B" 200 None ["more"]];
        [mkTranscript "A" 301 None ["late"]]].
Proof.
  split; [discriminate|].
  apply (proj2 (proj2 (proj2 (groupTranscriptsIntoChunks_partition 300)))
           [mkTranscript "A" 0 None ["start"]; mkTranscript "B" 200 None ["more"]]
           (mkTranscript "A" 301 None ["late"])).
  discriminate.
Defined.

(** ** Importance scores and descriptions *)

Lemma wordCount_nonneg (text : string) : 0 <= wordCount text / 20.
Proof. unfold wordCount. apply Z.div_pos; lia. Qed.

Lemma importanceScore_sum (text : string) :
  importanceScore text
  = hit importanceTerms 3 text + hit summaryTerms 4 text + hit obligationTerms 2 text
    + hit decisionTerms 3 text + hit problemTerms 2 text + hit solutionTerms 2 text
    + hit nextStepsTerms 3 text + Z.min 2 (wordCount text / 20).
Proof.
  cbv [importanceScore importancePatterns fold_left regex weight hit].
  repeat match goal with
         | |- context [Regex.test true ?r text] => destruct (Regex.test true r text)
         end; lia.
Qed.

Lemma hit_nonneg (pattern : Regex.Regex) (weight : Z) (text : string) :
  0 <= weight -> 0 <= hit pattern weight text.
Proof. unfold hit. destruct (Regex.test true pattern text); lia. Qed.

Lemma importanceScore_nonneg (text : string) : 0 <= importanceScore text.
Proof.
  rewrite importanceScore_sum.
  pose proof (wordCount_nonneg text).
  pose proof (hit_nonneg importanceTerms text (weight := 3)).
  pose proof (hit_nonneg summaryTerms text (weight := 4)).
  pose proof (hit_nonneg obligationTerms text (weight := 2)).
  pose proof (hit_nonneg decisionTerms text (weight := 3)).
  pose proof (hit_nonneg problemTerms text (weight := 2)).
  pose proof (hit_nonneg solutionTerms text (weight := 2)).
  pose proof (hit_nonneg nextStepsTerms text (weight := 3)).
  lia.
Qed.

(** C5, as the code has it.  The score of a segment is the sum of the weights
    of the matching patterns of the table (3, 4, 2, 3, 2, 2, 3) plus
    [min(2, floor(wordCount / 20))]; a segment of score 0 gives no candidate
    and any other segment gives one; the description is chosen in the order
    summary, next steps, decision, problem, solution, then by score (above 5,
    above 3, else), where the next-steps test of the description is its own
    pattern (next steps, follow up, moving forward, future, plan) and not the
    one of the score (next steps, follow up, get back, circle back, future,
    next time).  The description is the one of the specification whenever the two
    next-steps patterns agree on the text. *)
Theorem importantSegment_score_and_description (transcript : Transcript) :
  let text := segmentText transcript in
  let score :=
    hit importanceTerms 3 text + hit summaryTerms 4 text + hit obligationTerms 2 text
    + hit decisionTerms 3 text + hit problemTerms 2 text + hit solutionTerms 2 text
    + hit nextStepsTerms 3 text + Z.min 2 (wordCount text / 20) in
  let describedNextSteps :=
    Regex.test true
      (Regex.phrases ["next steps"; "follow up"; "moving forward"; "future"; "plan"]) text in
  let description :=
    if Regex.test true summaryTerms text then "Summary or conclusion"
    else if describedNextSteps then "Discussion about next steps"
    else if Regex.test true decisionTerms text then "Decision point"
    else if Regex.test true problemTerms text then "Problem discussion"
    else if Regex.test true solutionTerms text then "Solution discussion"
    else if 5 <? score then "Highly important discussion"
    else if 3 <? score then "Important point"
    else "Notable discussion" in
  importanceScore text = score
  /\ 0 <= score
  /\ (score = 0 -> importantSegment transcript = None)
  /\ (0 < score ->
      importantSegment transcript
      = Some (mkCandidate (start_time transcript) (speakerOrUnknown transcript) text
                          score content description))
  /\ (Regex.test true nextStepsTerms text = describedNextSteps ->
      description = specDescription text score).
Proof.
  intros text score describedNextSteps description.
  assert (Hs : importanceScore text = score) by apply importanceScore_sum.
  split; [exact Hs|].
  split; [rewrite <- Hs; apply importanceScore_nonneg|].
  split; [|split].
  - intros H0. unfold importantSegment. fold text. rewrite Hs, H0. reflexivity.
  - intros Hpos. unfold importantSegment. fold text. rewrite Hs.
    destruct (0 <? score) eqn:E; [reflexivity | apply Z.ltb_ge in E; lia].
  - intros Hagree. unfold description, specDescription.
    rewrite Hagree. reflexivity.
Qed.

Lemma importantSegment_score_and_description_witness :
  0 < 5
  /\ importantSegment (mkTranscript "B" 20 None ["we"; "will"; "get"; "back"; "to"; "you"])
     = Some (mkCandidate 20 "B" "we will get back to you" 5 content "Important point").
Proof.
  split; [lia|].
  apply (proj1 (proj2 (proj2 (proj2
           (importantSegment_score_and_description
              (mkTranscript "B" 20 None ["we"; "will"; "get"; "back"; "to"; "you"])))))).
  vm_compute. reflexivity.
Defined.

(** The text "we will get back to you" holds next-steps language of the
    scoring table, which counts in its score of 5, and no summary language;
    its description is "Important point", not "Discussion about next
    steps". *)
Lemma description_next_steps_counterexample :
  let transcript := mkTranscript "B" 20 None ["we"; "will"; "get"; "back"; "to"; "you"] in
  importantSegment transcript
  = Some (mkCandidate 20 "B" "we will get back to you" 5 content "Important point")
  /\ Regex.test true summaryTerms "we will get back to you" = false
  /\ Regex.test true nextStepsTerms "we will get back to you" = true
  /\ specDescription "we will get back to you" 5 = "Discussion about next steps"
  /\ determineDescription "we will get back to you" 5
     <> specDescription "we will get back to you" 5.
Proof.
  vm_compute. repeat split; discriminate.
Qed.

(** ** The end-to-end scenario *)

Lemma string_append_assoc (a b c : string) :
  ((a ++ b) ++ c)%string = (a ++ (b ++ c))%string.
Proof.
  induction a as [|x a IH]; simpl; [reflexivity | rewrite IH; reflexivity].
Qed.

(** C4, as the code has it.  On the three-segment transcript with
    [maxMoments = 2] the candidates in descending importance are the budget
    segment at 20 (9), the meeting start at 0 (5), the conclusion at 600 as
    content (4) and as structural segment (4); the meeting start is less than
    30 seconds away from the budget segment accepted before it and is dropped,
    so the two moments are the budget segment at 20 and the conclusion at 600,
    and these are the segments that the report lists; the tool answers with
    that report. *)
Theorem findKeyMoments_scenario :
  sortByImportance
    (scoreSegments
       (candidateSegments (groupTranscriptsIntoChunks (sortChronologically scenario) 300))
       ++ getStructuralSegments (sortChronologically scenario))
  = [budgetMoment; startMoment; conclusionMoment; endMoment]
  /\ deduplicateSegments [budgetMoment; startMoment; conclusionMoment; endMoment]
     = [budgetMoment; conclusionMoment]
  /\ finalSegments scenario 2 = [budgetMoment; conclusionMoment]
  /\ (forall identifyTopicsWithAI botId title topics granularity autoDetect chunkSize mp4 bot,
         let args :=
           mkFindKeyMomentsArgs botId title topics 2 granularity autoDetect chunkSize in
         exists heading,
           report identifyTopicsWithAI args
                  (Runtime.mkApiResponse mp4 (Some (Runtime.mkBotData (Some bot) scenario)))
           = (heading
                ++ topicsSection granularity (uniqueTopics identifyTopicsWithAI args scenario)
                ++ LinkFormatter.createMeetingSegmentsList botId
                     [ LinkFormatter.mkSegmentLink 20 "B" "Problem discussion";
                       LinkFormatter.mkSegmentLink 600 "A" "Summary or conclusion" ])%string)
  /\ (forall identifyTopicsWithAI,
         let args := mkFindKeyMomentsArgs "bot-1" None None 2 medium true 1200 in
         fst (findKeyMoments identifyTopicsWithAI noFallback scenarioBackend args
                (Some 0%nat) oneSession)
         = Runtime.Return (Runtime.Text (report identifyTopicsWithAI args scenarioMeeting))).
Proof.
  assert (Hfinal : finalSegments scenario 2 = [budgetMoment; conclusionMoment])
    by (vm_compute; reflexivity).
  split; [vm_compute; reflexivity|].
  split; [vm_compute; reflexivity|].
  split; [exact Hfinal|].
  split; [|intros identify args; reflexivity].
  intros identify botId title topics granularity autoDetect chunkSize mp4 bot args.
  unfold report.
  cbn [option_map Runtime.bot_data Runtime.bot Runtime.transcripts Links.maxMoments args
       Links.granularity Links.botId].
  unfold scenario at 1. cbv beta iota. rewrite Hfinal. cbv beta iota.
  set (shown := Js.orElse _ "Meeting Recording").
  exists ("# Key Moments from " ++ (shown ++ (LinkFormatter.nl ++ LinkFormatter.nl)))%string.
  rewrite !string_append_assoc.
  reflexivity.
Qed.

(** The moments of the scenario are not the meeting start and the budget
    segment: no moment is at time 0. *)
Lemma findKeyMoments_scenario_counterexample :
  map timestamp (finalSegments scenario 2) = [20; 600]
  /\ map timestamp (finalSegments scenario 2) <> [0; 20]
  /\ ~ In 0 (map timestamp (finalSegments scenario 2)).
Proof.
  vm_compute. repeat split; try discriminate.
  intros [H|[H|[]]]; discriminate.
Qed.

(** ** The topics of the report *)

Lemma topTopics_firstn (g : Granularity) (unique : list string) :
  topTopics g unique
  = firstn (match g with high => 10 | medium => 7 | low => 5 end)%nat unique.
Proof. destruct g; reflexivity. Qed.

Lemma finalSegments_nil (maxMoments : Z) : finalSegments [] maxMoments = [].
Proof.
  unfold finalSegments, selectMoments, Js.slice0. simpl.
  destruct (maxMoments <? 0); apply firstn_nil.
Qed.

(** C10. In a report with key moments the topics shown are the first ones of
    the unique topics, at most 10 for the granularity "high", 7 for "medium"
    and 5 for "low"; the report is its heading, "# Key Moments from " with
    the title and an empty line, then the section of the topics shown, then
    the segments; without unique topics the section is left out, and the
    report goes from its heading straight to the segments. *)
Theorem report_topics_capped
    (identifyTopicsWithAI : list Transcript -> list string)
    (args : FindKeyMomentsArgs) (response : Runtime.ApiResponse)
    (bot : Runtime.Bot) (transcripts : list Transcript) :
  Runtime.bot_data response = Some (Runtime.mkBotData (Some bot) transcripts) ->
  finalSegments transcripts (maxMoments args) <> [] ->
  let unique := uniqueTopics identifyTopicsWithAI args transcripts in
  let limit :=
    match granularity args with
    | high => 10
    | medium => 7
    | low => 5
    end%nat in
  let shown := firstn limit unique in
  let segmentsList :=
    LinkFormatter.createMeetingSegmentsList (botId args)
      (formattedSegments (finalSegments transcripts (maxMoments args))) in
  let title :=
    Js.orElse
      (Js.orElse (match meetingTitle args with
                  | Some t => t
                  | None => EmptyString
                  end)
                 (Runtime.bot_name bot))
      "Meeting Recording" in
  let heading :=
    ("# Key Moments from " ++ title ++ LinkFormatter.nl ++ LinkFormatter.nl)%string in
  (List.length shown <= limit)%nat
  /\ List.length shown = Nat.min limit (List.length unique)
  /\ report identifyTopicsWithAI args response
     = match unique with
       | [] => (heading ++ segmentsList)%string
       | _ :: _ =>
           (heading
              ++ ("## Main Topics Discussed" ++ LinkFormatter.nl
                    ++ Js.join LinkFormatter.nl (map (fun topic => "- " ++ topic) shown)
                    ++ LinkFormatter.nl ++ LinkFormatter.nl)
              ++ segmentsList)%string
       end.
Proof.
  intros Hdata Hfinal unique limit shown segmentsList title heading.
  split; [unfold shown; rewrite length_firstn; lia|].
  split; [unfold shown; apply length_firstn|].
  unfold report. rewrite Hdata.
  cbn [option_map Runtime.bot Runtime.transcripts].
  destruct transcripts as [|first rest].
  { exfalso. apply Hfinal. apply finalSegments_nil. }
  destruct (finalSegments (first :: rest) (maxMoments args)) as [|moment moments] eqn:E;
    [congruence|].
  fold title. fold unique. unfold topicsSection. rewrite topTopics_firstn.
  fold limit. fold shown. unfold topicLines, heading.
  destruct unique as [|topic others]; cbn [List.length Nat.ltb Nat.leb].
  - rewrite !string_append_assoc. reflexivity.
  - rewrite !string_append_assoc. reflexivity.
Qed.

Lemma report_topics_capped_witness :
  let args :=
    mkFindKeyMomentsArgs "bot-1" None
      (Some ["a"; "b"; "c"; "d"; "e"; "f"; "g"; "h"]) 2 low false 1200 in
  Runtime.bot_data
    (Runtime.mkApiResponse "video.mp4"
       (Some (Runtime.mkBotData (Some (Runtime.mkBot "Standup" "url" "now" None None))
                                scenario)))
  = Some (Runtime.mkBotData (Some (Runtime.mkBot "Standup" "url" "now" None None)) scenario)
  /\ finalSegments scenario (maxMoments args) <> []
  /\ (List.length (firstn 5 (uniqueTopics (fun _ => []) args scenario)) <= 5)%nat.
Proof.
  intros args.
  split; [reflexivity|].
  split; [vm_compute; discriminate|].
  apply (proj1 (report_topics_capped (fun _ => []) args
                  (Runtime.mkApiResponse "video.mp4"
                     (Some (Runtime.mkBotData
                              (Some (Runtime.mkBot "Standup" "url" "now" None None))
                              scenario)))
                  eq_refl
                  ltac:(vm_compute; discriminate))).
Defined.

(** ** The recent bots of a session *)

Import Runtime Search.

Lemma bumpRecent_head (recent : option (list string)) (botId : string) :
  hd_error (bumpRecent recent botId) = Some botId.
Proof.
  unfold bumpRecent.
  destruct (5 <? _)%nat eqn:E; [|reflexivity].
  reflexivity.
Qed.

Lemma bumpRecent_length (recent : option (list string)) (botId : string) :
  (List.length (bumpRecent recent botId) <= 5)%nat.
Proof.
  unfold bumpRecent.
  destruct (5 <? _)%nat eqn:E.
  - rewrite slice0_firstn by lia. rewrite length_firstn.
    change (Z.to_nat 5) with 5%nat. lia.
  - apply Nat.ltb_ge in E. exact E.
Qed.

Lemma NoDup_firstn (A : Type) (n : nat) (l : list A) : NoDup l -> NoDup (firstn n l).
Proof.
  revert n. induction l as [|x l IH]; intros [|n] H; simpl; try constructor.
  - inversion H; subst. intros Hin. apply H2.
    rewrite <- (firstn_skipn n l). apply in_or_app; left; exact Hin.
  - inversion H; subst. apply IH; assumption.
Qed.

Lemma bumpRecent_NoDup (recent : option (list string)) (botId : string) :
  (forall ids, recent = Some ids -> NoDup ids) ->
  NoDup (bumpRecent recent botId).
Proof.
  intros Hnd. unfold bumpRecent.
  set (current := match recent with Some ids => ids | None => [] end).
  assert (Hcur : NoDup current).
  { unfold current. destruct recent; [apply Hnd; reflexivity | constructor]. }
  assert (Hb : NoDup (botId :: filter (fun id => negb (String.eqb id botId)) current)).
  { constructor.
    - rewrite filter_In. intros [_ H]. rewrite String.eqb_refl in H. discriminate.
    - apply NoDup_filter, Hcur. }
  destruct (5 <? _)%nat; [|exact Hb].
  rewrite slice0_firstn by lia. apply NoDup_firstn, Hb.
Qed.

Lemma nth_error_replaceNth (A : Type) (l : list A) (n : nat) (x y : A) :
  nth_error l n = Some x -> nth_error (replaceNth l n y) n = Some y.
Proof.
  revert n. induction l as [|a l IH]; intros [|n] H; simpl in *; try discriminate.
  - reflexivity.
  - apply IH, H.
Qed.

(** One call on a session that exists: the session object holds the bumped
    list afterwards, and the call returns, whatever the store does. *)
Lemma updateRecentBots_sessions (Store : Type)
    (trackBot : string -> BotMetadata -> Store -> Outcome unit * Store)
    (ref : SessionRef) (botId : string) (metadata : BotMetadata)
    (w : World Store) (obj : SessionObject) :
  nth_error (sessions w) ref = Some obj ->
  let run := updateRecentBots trackBot (Some ref) botId metadata w in
  fst run = Return tt
  /\ sessions (snd run)
     = replaceNth (sessions w) ref
         (mkSession (apiKey obj) (Some (bumpRecent (recentBotIds obj) botId)))
  /\ apiCalls (snd run) = apiCalls w.
Proof.
  intros Hobj.
  unfold updateRecentBots, bind, getSession, tryCatch, setSession, dbTrackBot, ret.
  rewrite Hobj. simpl.
  destruct (trackBot botId metadata (store w)) as [[[]|message] store'];
    simpl; repeat split.
Qed.

Lemma updateRecentBots_recent (Store : Type)
    (trackBot : string -> BotMetadata -> Store -> Outcome unit * Store)
    (ref : SessionRef) (botId : string) (metadata : BotMetadata)
    (w : World Store) (obj : SessionObject) :
  nth_error (sessions w) ref = Some obj ->
  recentOf (snd (updateRecentBots trackBot (Some ref) botId metadata w)) ref
  = Some (bumpRecent (recentBotIds obj) botId).
Proof.
  intros Hobj.
  destruct (@updateRecentBots_sessions _ trackBot ref botId metadata w obj Hobj) as (_ & Hs & _).
  unfold recentOf. rewrite Hs.
  rewrite (@nth_error_replaceNth _ _ _ _ _ Hobj). reflexivity.
Qed.

Lemma trackingRuns_cons (Store : Type)
    (trackBot : string -> BotMetadata -> Store -> Outcome unit * Store)
    (ref : SessionRef) (botId : string) (metadata : BotMetadata)
    (calls : list (string * BotMetadata)) (w : World Store) :
  trackingRuns trackBot ref ((botId, metadata) :: calls) w
  = trackingRuns trackBot ref calls
      (snd (updateRecentBots trackBot (Some ref) botId metadata w)).
Proof. reflexivity. Qed.

Lemma trackingRuns_snoc (Store : Type)
    (trackBot : string -> BotMetadata -> Store -> Outcome unit * Store)
    (ref : SessionRef) (botId : string) (metadata : BotMetadata)
    (calls : list (string * BotMetadata)) (w : World Store) :
  trackingRuns trackBot ref (calls ++ [(botId, metadata)]) w
  = snd (updateRecentBots trackBot (Some ref) botId metadata
           (trackingRuns trackBot ref calls w)).
Proof. unfold trackingRuns. rewrite fold_left_app. reflexivity. Qed.

(** The session stays where it is through a series of calls, and a list
    without duplicates stays so. *)
Lemma trackingRuns_keeps (Store : Type)
    (trackBot : string -> BotMetadata -> Store -> Outcome unit * Store)
    (ref : SessionRef) (calls : list (string * BotMetadata)) :
  forall (w : World Store) (obj : SessionObject),
    nth_error (sessions w) ref = Some obj ->
    exists obj',
      nth_error (sessions (trackingRuns trackBot ref calls w)) ref = Some obj'
      /\ ((forall ids, recentBotIds obj = Some ids -> NoDup ids) ->
          forall ids, recentBotIds obj' = Some ids -> NoDup ids).
Proof.
  induction calls as [|[botId metadata] calls IH]; intros w obj Hobj.
  - exists obj. split; [assumption | auto].
  - destruct (@updateRecentBots_sessions _ trackBot ref botId metadata w obj Hobj)
      as (_ & Hs & _).
    rewrite trackingRuns_cons.
    destruct (IH (snd (updateRecentBots trackBot (Some ref) botId metadata w))
                 (mkSession (apiKey obj) (Some (bumpRecent (recentBotIds obj) botId))))
      as (obj' & Hobj' & Hnd').
    { rewrite Hs. apply (@nth_error_replaceNth _ _ _ _ _ Hobj). }
    exists obj'. split; [exact Hobj'|].
    intros Hnd. apply Hnd'. simpl.
    intros ids Hids. injection Hids as <-. apply bumpRecent_NoDup, Hnd.
Qed.

(** C9. After any series of calls of [updateRecentBots] on a session that
    is present, whether the writes to the store succeed or throw, the list of
    the session has at most five entries and the bot of the last call in
    front; and it has no duplicates, provided the list the session started
    with was absent or free of duplicates, which the calls then preserve. *)
Theorem updateRecentBots_invariant (Store : Type)
    (trackBot : string -> BotMetadata -> Store -> Outcome unit * Store)
    (ref : SessionRef) (w : World Store) (obj : SessionObject)
    (earlier : list (string * BotMetadata)) (botId : string) (metadata : BotMetadata) :
  nth_error (sessions w) ref = Some obj ->
  exists ids,
    recentOf (trackingRuns trackBot ref (earlier ++ [(botId, metadata)]) w) ref = Some ids
    /\ (List.length ids <= 5)%nat
    /\ hd_error ids = Some botId
    /\ ((forall ids0, recentBotIds obj = Some ids0 -> NoDup ids0) -> NoDup ids).
Proof.
  intros Hobj.
  destruct (@trackingRuns_keeps _ trackBot ref earlier w obj Hobj) as (obj' & Hobj' & Hnd').
  rewrite trackingRuns_snoc.
  exists (bumpRecent (recentBotIds obj') botId).
  split; [apply updateRecentBots_recent, Hobj'|].
  split; [apply bumpRecent_length|].
  split; [apply bumpRecent_head|].
  intros Hnd. apply bumpRecent_NoDup, Hnd', Hnd.
Qed.

Lemma updateRecentBots_invariant_witness :
  nth_error (sessions (mkWorld [mkSession "key" (Some ["a"; "b"])] 0%nat tt)) 0%nat
  = Some (mkSession "key" (Some ["a"; "b"]))
  /\ exists ids,
      recentOf
        (trackingRuns failingTracker 0%nat
           ([("c", mkBotMetadata None None None None None None None None)]
              ++ [("a", mkBotMetadata None None None None None None None None)])
           (mkWorld [mkSession "key" (Some ["a"; "b"])] 0%nat tt))
        0%nat
      = Some ids
      /\ (List.length ids <= 5)%nat
      /\ hd_error ids = Some "a"
      /\ ((forall ids0, Some ["a"; "b"] = Some ids0 -> NoDup ids0) -> NoDup ids).
Proof.
  split; [reflexivity|].
  exact (@updateRecentBots_invariant unit failingTracker 0%nat
           (mkWorld [mkSession "key" (Some ["a"; "b"])] 0%nat tt)
           (mkSession "key" (Some ["a"; "b"]))
           [("c", mkBotMetadata None None None None None None None None)]
           "a" (mkBotMetadata None None None None None None None None) eq_refl).
Defined.

(** ** Tracking failures and the answers of the tools *)

Section SameAnswer.
Variables S1 S2 : Type.

Lemma sameAnswer_ret (A : Type) (a : A) :
  sameAnswer (ret (Store := S1) a) (ret (Store := S2) a).
Proof. intros w1 w2 H. split; [reflexivity | exact H]. Qed.

Lemma sameAnswer_throw (A : Type) (message : string) :
  sameAnswer (throw (Store := S1) (A := A) message) (throw (Store := S2) message).
Proof. intros w1 w2 H. split; [reflexivity | exact H]. Qed.

Lemma sameAnswer_bind (A B : Type) (m1 : M S1 A) (m2 : M S2 A)
    (k1 : A -> M S1 B) (k2 : A -> M S2 B) :
  sameAnswer m1 m2 ->
  (forall a, sameAnswer (k1 a) (k2 a)) ->
  sameAnswer (bind m1 k1) (bind m2 k2).
Proof.
  intros Hm Hk w1 w2 H. unfold bind.
  destruct (Hm w1 w2 H) as [Hfst Hsnd].
  destruct (m1 w1) as [[a1|e1] w1'], (m2 w2) as [[a2|e2] w2']; simpl in *;
    try discriminate.
  - injection Hfst as <-. apply Hk, Hsnd.
  - injection Hfst as <-. split; [reflexivity | assumption].
Qed.

Lemma sameAnswer_tryCatch (A : Type) (m1 : M S1 A) (m2 : M S2 A)
    (h1 : string -> M S1 A) (h2 : string -> M S2 A) :
  sameAnswer m1 m2 ->
  (forall message, sameAnswer (h1 message) (h2 message)) ->
  sameAnswer (tryCatch m1 h1) (tryCatch m2 h2).
Proof.
  intros Hm Hh w1 w2 H. unfold tryCatch.
  destruct (Hm w1 w2 H) as [Hfst Hsnd].
  destruct (m1 w1) as [[a1|e1] w1'], (m2 w2) as [[a2|e2] w2']; simpl in *;
    try discriminate.
  - split; assumption.
  - injection Hfst as <-. apply Hh, Hsnd.
Qed.

Lemma sameAnswer_getSession (ref : SessionRef) :
  sameAnswer (getSession (Store := S1) ref) (getSession (Store := S2) ref).
Proof.
  intros w1 w2 [Hs Ha]. unfold getSession; simpl. rewrite Hs.
  split; [reflexivity | split; assumption].
Qed.

Lemma sameAnswer_setSession (ref : SessionRef) (obj : SessionObject) :
  sameAnswer (setSession (Store := S1) ref obj) (setSession (Store := S2) ref obj).
Proof.
  intros w1 w2 [Hs Ha]. unfold setSession, sameSessions; simpl. rewrite Hs.
  split; [reflexivity | split; [reflexivity | assumption]].
Qed.

Lemma sameAnswer_newSession (obj : SessionObject) :
  sameAnswer (newSession (Store := S1) obj) (newSession (Store := S2) obj).
Proof.
  intros w1 w2 [Hs Ha]. unfold newSession, sameSessions; simpl. rewrite Hs.
  split; [reflexivity | split; [reflexivity | assumption]].
Qed.

Variable environment : Environment.
Variable backend : string -> string -> nat -> Outcome ApiResponse.
Variable formatTime : Z -> string.
Variable trackBot1 : string -> BotMetadata -> S1 -> Outcome unit * S1.
Variable trackBot2 : string -> BotMetadata -> S2 -> Outcome unit * S2.

Lemma sameAnswer_createValidSession (session : option SessionRef) :
  sameAnswer (createValidSession (Store := S1) environment session)
             (createValidSession (Store := S2) environment session).
Proof.
  unfold createValidSession.
  apply sameAnswer_bind.
  - destruct session; [apply sameAnswer_getSession | apply sameAnswer_ret].
  - intros obj. destruct (getApiKeyWithFallbacks environment obj).
    + apply sameAnswer_bind; [apply sameAnswer_newSession | intros; apply sameAnswer_ret].
    + apply sameAnswer_ret.
Qed.

Lemma sameAnswer_apiRequest (session : option SessionRef) (botId : string) :
  sameAnswer (apiRequest (Store := S1) backend session botId)
             (apiRequest (Store := S2) backend session botId).
Proof.
  unfold apiRequest. destruct session as [ref|]; [|apply sameAnswer_throw].
  apply sameAnswer_bind; [apply sameAnswer_getSession|].
  intros obj. destruct (nonEmpty (option_map apiKey obj)); [|apply sameAnswer_throw].
  intros w1 w2 [Hs Ha]. unfold sameSessions. simpl. rewrite Ha.
  split; [reflexivity | split; [assumption | reflexivity]].
Qed.

(** The heart of the matter: the two trackers may do anything to their
    stores, and throw or not; the call returns all the same. *)
Lemma sameAnswer_updateRecentBots (session : option SessionRef) (botId : string)
    (metadata : BotMetadata) :
  sameAnswer (updateRecentBots trackBot1 session botId metadata)
             (updateRecentBots trackBot2 session botId metadata).
Proof.
  unfold updateRecentBots. destruct session as [ref|]; [|apply sameAnswer_ret].
  apply sameAnswer_bind; [apply sameAnswer_getSession|].
  intros [obj|]; [|apply sameAnswer_ret].
  intros w1 w2 [Hs Ha].
  unfold tryCatch, bind, setSession, dbTrackBot, ret, sameSessions. simpl.
  destruct (trackBot1 botId metadata (store w1)) as [[[]|e1] store1],
           (trackBot2 botId metadata (store w2)) as [[[]|e2] store2];
    simpl; rewrite Hs; (split; [reflexivity | split; [reflexivity | assumption]]).
Qed.

Lemma sameAnswer_trackSafely (session : option SessionRef) (botId : string)
    (response : ApiResponse) :
  sameAnswer (trackSafely trackBot1 session botId response)
             (trackSafely trackBot2 session botId response).
Proof.
  unfold trackSafely. apply sameAnswer_tryCatch.
  - apply sameAnswer_updateRecentBots.
  - intros. apply sameAnswer_ret.
Qed.

Lemma sameAnswer_transcriptsOf (response : ApiResponse) :
  sameAnswer (transcriptsOf (Store := S1) response) (transcriptsOf (Store := S2) response).
Proof.
  unfold transcriptsOf.
  destruct (bot_data response); [apply sameAnswer_ret | apply sameAnswer_throw].
Qed.

Lemma sameAnswer_botNameOf (response : ApiResponse) :
  sameAnswer (botNameOf (Store := S1) response) (botNameOf (Store := S2) response).
Proof.
  unfold botNameOf.
  destruct (bot_data response) as [[[b|] ts]|];
    [apply sameAnswer_ret | apply sameAnswer_throw | apply sameAnswer_throw].
Qed.

(** One step through the structure of a tool. *)
Ltac same_step :=
  match goal with
  | |- sameAnswer (bind _ _) (bind _ _) => apply sameAnswer_bind; [|intros ?]
  | |- sameAnswer (tryCatch _ _) (tryCatch _ _) => apply sameAnswer_tryCatch; [|intros ?]
  | |- sameAnswer (ret _) (ret _) => apply sameAnswer_ret
  | |- sameAnswer (throw _) (throw _) => apply sameAnswer_throw
  | |- sameAnswer (createValidSession _ _) _ => apply sameAnswer_createValidSession
  | |- sameAnswer (apiRequest _ _ _) _ => apply sameAnswer_apiRequest
  | |- sameAnswer (trackSafely _ _ _ _) _ => apply sameAnswer_trackSafely
  | |- sameAnswer (transcriptsOf _) _ => apply sameAnswer_transcriptsOf
  | |- sameAnswer (botNameOf _) _ => apply sameAnswer_botNameOf
  | |- sameAnswer (match ?x with _ => _ end) _ => destruct x
  end.

Lemma sameAnswer_searchTranscript (args : SearchTranscriptArgs)
    (session : option SessionRef) :
  sameAnswer (searchTranscript environment backend trackBot1 formatTime args session)
             (searchTranscript environment backend trackBot2 formatTime args session).
Proof. unfold searchTranscript. repeat same_step. Qed.

Lemma sameAnswer_searchVideoSegment (args : SearchVideoSegmentArgs)
    (session : option SessionRef) :
  sameAnswer (searchVideoSegment environment backend trackBot1 formatTime args session)
             (searchVideoSegment environment backend trackBot2 formatTime args session).
Proof. unfold searchVideoSegment. repeat same_step. Qed.

Lemma sameAnswer_tiers (botId : string) (validSession : option SessionRef)
    (botData : ApiResponse) (wanted : option string) (timeRange : TimeRange)
    (searchTerms : string) :
  sameAnswer
    (tiers environment backend trackBot1 formatTime botId validSession botData wanted
           timeRange searchTerms)
    (tiers environment backend trackBot2 formatTime botId validSession botData wanted
           timeRange searchTerms).
Proof.
  unfold tiers, orElseTier, tier1, tier2, tier3, tier4, tier5, segmentSearch.
  repeat first [ apply sameAnswer_searchVideoSegment
               | apply sameAnswer_searchTranscript
               | same_step ].
Qed.

Lemma sameAnswer_intelligentSearch (args : IntelligentSearchArgs)
    (session : option SessionRef) :
  sameAnswer (intelligentSearch environment backend trackBot1 formatTime args session)
             (intelligentSearch environment backend trackBot2 formatTime args session).
Proof.
  unfold intelligentSearch.
  repeat first [ apply sameAnswer_tiers | same_step ].
Qed.
End SameAnswer.

Section Returns.
Variable Store : Type.

Lemma returns_ret (A : Type) (a : A) : returns (ret (Store := Store) a).
Proof. intros w. exists a. reflexivity. Qed.

Lemma returns_bind (A B : Type) (m : M Store A) (k : A -> M Store B) :
  returns m -> (forall a, returns (k a)) -> returns (bind m k).
Proof.
  intros Hm Hk w. unfold bind. destruct (Hm w) as [a Ha].
  destruct (m w) as [[a'|e] w']; simpl in Ha; [|discriminate].
  apply Hk.
Qed.

Lemma returns_tryCatch (A : Type) (m : M Store A) (h : string -> M Store A) :
  (forall message, returns (h message)) -> returns (tryCatch m h).
Proof.
  intros Hh w. unfold tryCatch.
  destruct (m w) as [[a|e] w']; [exists a; reflexivity | apply Hh].
Qed.

Lemma returns_createValidSession (environment : Environment)
    (session : option SessionRef) :
  returns (createValidSession (Store := Store) environment session).
Proof.
  unfold createValidSession. apply returns_bind.
  - destruct session; [|apply returns_ret].
    intros w. eexists. reflexivity.
  - intros obj. destruct (getApiKeyWithFallbacks environment obj); [|apply returns_ret].
    apply returns_bind; [|intros; apply returns_ret].
    intros w. eexists. reflexivity.
Qed.

Variable environment : Environment.
Variable backend : string -> string -> nat -> Outcome ApiResponse.
Variable formatTime : Z -> string.
Variable trackBot : string -> BotMetadata -> Store -> Outcome unit * Store.

Lemma returns_trackSafely (session : option SessionRef) (botId : string)
    (response : ApiResponse) :
  returns (trackSafely trackBot session botId response).
Proof. unfold trackSafely. apply returns_tryCatch. intros; apply returns_ret. Qed.

Lemma returns_searchTranscript (args : SearchTranscriptArgs) (session : option SessionRef) :
  returns (searchTranscript environment backend trackBot formatTime args session).
Proof.
  unfold searchTranscript.
  apply returns_bind; [apply returns_createValidSession|].
  intros [ref|]; [|apply returns_ret].
  apply returns_tryCatch. intros; apply returns_ret.
Qed.

Lemma returns_searchVideoSegment (args : SearchVideoSegmentArgs)
    (session : option SessionRef) :
  returns (searchVideoSegment environment backend trackBot formatTime args session).
Proof.
  unfold searchVideoSegment.
  apply returns_bind; [apply returns_createValidSession|].
  intros [ref|]; [|apply returns_ret].
  apply returns_tryCatch. intros; apply returns_ret.
Qed.

Lemma returns_intelligentSearch (args : IntelligentSearchArgs)
    (session : option SessionRef) :
  returns (intelligentSearch environment backend trackBot formatTime args session).
Proof.
  unfold intelligentSearch. apply returns_tryCatch. intros; apply returns_ret.
Qed.
End Returns.

Lemma sameAnswer_returns (S1 S2 A : Type) (m1 : M S1 A) (m2 : M S2 A)
    (w1 : World S1) (w2 : World S2) :
  sameAnswer m1 m2 -> returns m1 -> sameSessions w1 w2 ->
  exists a, fst (m1 w1) = Return a /\ fst (m2 w2) = Return a.
Proof.
  intros Hsame Hret Hw. destruct (Hret w1) as [a Ha].
  exists a. split; [exact Ha|].
  destruct (Hsame w1 w2 Hw) as [Hfst _]. rewrite <- Hfst. exact Ha.
Qed.

(** C8. Take a tool call twice, from worlds with the same sessions, with two
    recent-bots stores whose writes behave in any way, each throwing or not
    as it likes.  The tracking step that every search tool runs returns in
    both runs and leaves the same sessions; [intelligentSearch],
    [searchTranscript] and [searchVideoSegment] return in both runs, and
    return the same result.  A failing write neither aborts the call nor
    changes its answer. *)
Theorem tracking_failure_is_harmless (S1 S2 : Type)
    (environment : Environment)
    (backend : string -> string -> nat -> Outcome ApiResponse)
    (formatTime : Z -> string)
    (trackBot1 : string -> BotMetadata -> S1 -> Outcome unit * S1)
    (trackBot2 : string -> BotMetadata -> S2 -> Outcome unit * S2)
    (session : option SessionRef) (w1 : World S1) (w2 : World S2) :
  sameSessions w1 w2 ->
  (forall botId response,
      fst (trackSafely trackBot1 session botId response w1) = Return tt
      /\ fst (trackSafely trackBot2 session botId response w2) = Return tt
      /\ sameSessions (snd (trackSafely trackBot1 session botId response w1))
                      (snd (trackSafely trackBot2 session botId response w2)))
  /\ (forall args, exists result,
      fst (intelligentSearch environment backend trackBot1 formatTime args session w1)
      = Return result
      /\ fst (intelligentSearch environment backend trackBot2 formatTime args session w2)
         = Return result)
  /\ (forall args, exists result,
         fst (searchTranscript environment backend trackBot1 formatTime args session w1)
         = Return result
         /\ fst (searchTranscript environment backend trackBot2 formatTime args session w2)
            = Return result)
  /\ (forall args, exists result,
         fst (searchVideoSegment environment backend trackBot1 formatTime args session w1)
         = Return result
         /\ fst (searchVideoSegment environment backend trackBot2 formatTime args session w2)
            = Return result).
Proof.
  intros Hw.
  split.
  { intros botId response.
    destruct (sameAnswer_trackSafely trackBot1 trackBot2 session botId response Hw)
      as [Hfst Hsnd].
    destruct (returns_trackSafely trackBot1 session botId response w1) as [[] H1].
    split; [exact H1|].
    split; [rewrite <- Hfst; exact H1 | exact Hsnd]. }
  repeat split; intros args.
  - apply sameAnswer_returns;
      [apply sameAnswer_intelligentSearch | apply returns_intelligentSearch | exact Hw].
  - apply sameAnswer_returns;
      [apply sameAnswer_searchTranscript | apply returns_searchTranscript | exact Hw].
  - apply sameAnswer_returns;
      [apply sameAnswer_searchVideoSegment | apply returns_searchVideoSegment | exact Hw].
Qed.

Lemma tracking_failure_is_harmless_witness :
  sameSessions oneSession oneSession
  /\ exists result,
      fst (intelligentSearch noFallback sampleBackend failingTracker plainSeconds
             (mkIntelligentSearchArgs "hello" "bot-1" 20 true relevance None)
             (Some 0%nat) oneSession)
      = Return result
      /\ fst (intelligentSearch noFallback sampleBackend quietTracker plainSeconds
                (mkIntelligentSearchArgs "hello" "bot-1" 20 true relevance None)
                (Some 0%nat) oneSession)
         = Return result.
Proof.
  split; [split; reflexivity|].
  apply (proj1 (proj2 (@tracking_failure_is_harmless unit unit noFallback sampleBackend
                         plainSeconds failingTracker quietTracker (Some 0%nat)
                         oneSession oneSession (conj eq_refl eq_refl)))).
Defined.

(** ** The tiers of [intelligentSearch] *)

(** A speaker given in the filters is the speaker of the search. *)
Lemma resolveSpeaker_filter (args : IntelligentSearchArgs) (given : string) :
  filterSpeaker args = Some given -> resolveSpeaker args = Some given.
Proof. intros H. unfold resolveSpeaker. rewrite H. reflexivity. Qed.

(** C2, on the code.  With the filters [speaker = "Alice"], [startTime = 0]
    and the query "updates after 5", the speaker of the filters is kept but
    the start time becomes 300, the one read from the query: the answer lists
    the segment at 400 only, where the segment search with the start time of
    the filters lists the segments at 10 and at 400. *)
Theorem intelligentSearch_query_time_overrides_filter :
  let args :=
    mkIntelligentSearchArgs "updates after 5" "bot-1" 20 true relevance
      (Some (mkFilters (Some "Alice") (Some 0) None)) in
  filterTimeRange args = mkTimeRange (Some 0) None
  /\ resolveTimeRange args = mkTimeRange (Some 300) None
  /\ resolveSpeaker args = Some "Alice"
  /\ fst (intelligentSearch noFallback sampleBackend quietTracker plainSeconds args
            (Some 0%nat) oneSession)
     = Return
         (Content
            [ ("Found 1 segments from 400 to 400 in meeting " ++ quoted "Standup" ++ ".")%string;
              "Watch from beginning of segment: https://video.example/rec.mp4?t=400";
              ("Individual segments:" ++ blankLine
                 ++ "[400] Alice: world" ++ LinkFormatter.nl
                 ++ "Segment link: https://video.example/rec.mp4?t=400")%string ]
            false)
  /\ fst (searchVideoSegment noFallback sampleBackend quietTracker plainSeconds
            (mkSearchVideoSegmentArgs "bot-1" (Some 0) None (Some "Alice"))
            (Some 0%nat) oneSession)
     = Return
         (Content
            [ ("Found 2 segments from 10 to 400 in meeting " ++ quoted "Standup" ++ ".")%string;
              "Watch from beginning of segment: https://video.example/rec.mp4?t=10";
              ("Individual segments:" ++ blankLine
                 ++ "[10] Alice: hello" ++ LinkFormatter.nl
                 ++ "Segment link: https://video.example/rec.mp4?t=10" ++ blankLine
                 ++ "[400] Alice: world" ++ LinkFormatter.nl
                 ++ "Segment link: https://video.example/rec.mp4?t=400")%string ]
            false).
Proof.
  vm_compute. repeat split.
Qed.

(** C3, on the code.  For the query "zebra", which no segment holds, the
    search terms are not empty, tier 4 finds nothing and its answer is the
    answer of the tool, whatever the rendering of times; the segment listing
    of tier 5, which holds both segments of the meeting, is not reached. *)
Theorem intelligentSearch_tier4_answer_is_final (formatTime : Z -> string) :
  let args := mkIntelligentSearchArgs "zebra" "bot-1" 20 true relevance None in
  searchTermsOf "zebra" = "zebra"
  /\ hasTerms "zebra" = true
  /\ fst (intelligentSearch noFallback sampleBackend quietTracker formatTime args
            (Some 0%nat) oneSession)
     = Return (Text ("No results found for " ++ quoted "zebra")%string)
  /\ fst (searchVideoSegment noFallback sampleBackend quietTracker formatTime
            (mkSearchVideoSegmentArgs "bot-1" None None None) (Some 0%nat) oneSession)
     = Return
         (Content
            [ ("Found 2 segments from " ++ formatTime 10 ++ " to " ++ formatTime 400
                 ++ " in meeting " ++ quoted "Standup" ++ ".")%string;
              "Watch from beginning of segment: https://video.example/rec.mp4?t=10";
              ("Individual segments:" ++ blankLine
                 ++ Js.join blankLine
                      [ (("[" ++ formatTime 10 ++ "] Alice: hello") ++ LinkFormatter.nl
                           ++ "Segment link: https://video.example/rec.mp4?t=10");
                        (("[" ++ formatTime 400 ++ "] Alice: world") ++ LinkFormatter.nl
                           ++ "Segment link: https://video.example/rec.mp4?t=400") ])%string ]
            false).
Proof.
  vm_compute. repeat split.
Qed.

(** * Further properties of the code *)

(** ** Deduplication *)

Lemma ForallOrdPairs_snoc (A : Type) (R : A -> A -> Prop) (l : list A) (x : A) :
  ForallOrdPairs R l -> Forall (fun a => R a x) l -> ForallOrdPairs R (l ++ [x]).
Proof.
  induction 1 as [|a l Ha Hl IH]; intros Hx; simpl.
  - constructor; constructor.
  - inversion Hx; subst. constructor.
    + apply Forall_app. split; [assumption | constructor; [assumption | constructor]].
    + apply IH; assumption.
Qed.

Lemma ForallOrdPairs_snoc_inv (A : Type) (R : A -> A -> Prop) (l : list A) (x : A) :
  ForallOrdPairs R (l ++ [x]) -> ForallOrdPairs R l /\ Forall (fun a => R a x) l.
Proof.
  induction l as [|a l IH]; simpl; intros H.
  - split; constructor.
  - inversion H as [|? ? Ha Hl]; subst.
    apply Forall_app in Ha. destruct Ha as [Ha Hax].
    destruct (IH Hl) as [IH1 IH2].
    split; constructor; try assumption.
    inversion Hax; assumption.
Qed.

Lemma farApart_sym (a b : Candidate) : farApart a b -> farApart b a.
Proof. unfold farApart. lia. Qed.

Lemma notClose_farApart (segment : Candidate) (accepted : list Candidate) :
  existsb (fun a => Z.abs (timestamp segment - timestamp a) <? 30) accepted = false ->
  Forall (fun a => farApart a segment) accepted.
Proof.
  intros H. apply Forall_forall. intros a Ha.
  destruct (Z.abs (timestamp segment - timestamp a) <? 30) eqn:E.
  - assert (Ht : existsb (fun a => Z.abs (timestamp segment - timestamp a) <? 30) accepted
                 = true) by (apply existsb_exists; exists a; split; assumption).
    congruence.
  - apply Z.ltb_ge in E. unfold farApart. lia.
Qed.

Lemma farApart_notClose (segment : Candidate) (accepted : list Candidate) :
  Forall (fun a => farApart a segment) accepted ->
  existsb (fun a => Z.abs (timestamp segment - timestamp a) <? 30) accepted = false.
Proof.
  intros H. destruct (existsb _ accepted) eqn:E; [|reflexivity].
  apply existsb_exists in E. destruct E as (a & Ha & Hclose).
  rewrite Forall_forall in H. specialize (H a Ha).
  apply Z.ltb_lt in Hclose. unfold farApart in H. lia.
Qed.

Lemma deduplicateSegments_incl (segments : list Candidate) (kept : Candidate) :
  In kept (deduplicateSegments segments) -> In kept segments.
Proof.
  induction segments as [|x l IH] using rev_ind; [intros H; exact H|].
  rewrite deduplicateSegments_snoc.
  destruct (existsb _ (deduplicateSegments l)); intros H.
  - apply in_or_app; left; apply IH, H.
  - apply in_app_or in H. apply in_or_app.
    destruct H as [H|H]; [left; apply IH, H | right; exact H].
Qed.

Lemma survivors_farApart (segments : list Candidate) :
  ForallOrdPairs farApart (deduplicateSegments segments).
Proof.
  induction segments as [|x l IH] using rev_ind; [constructor|].
  rewrite deduplicateSegments_snoc.
  destruct (existsb _ (deduplicateSegments l)) eqn:E; [exact IH|].
  apply ForallOrdPairs_snoc; [exact IH | apply notClose_farApart, E].
Qed.

(** X1. Whatever the candidates and their order, any two survivors of the
    deduplication are at least 30 seconds apart, and every survivor is one of
    the candidates. *)
Theorem deduplicateSegments_far_apart (segments : list Candidate) :
  ForallOrdPairs farApart (deduplicateSegments segments)
  /\ incl (deduplicateSegments segments) segments.
Proof.
  split; [apply survivors_farApart | intros kept; apply deduplicateSegments_incl].
Qed.

(** X2. A list whose candidates are pairwise at least 30 seconds apart comes
    out of the deduplication as it went in; so deduplicating twice is
    deduplicating once. *)
Theorem deduplicateSegments_idempotent :
  (forall segments,
      ForallOrdPairs farApart segments -> deduplicateSegments segments = segments)
  /\ (forall segments,
         deduplicateSegments (deduplicateSegments segments) = deduplicateSegments segments).
Proof.
  assert (Hfix : forall segments,
             ForallOrdPairs farApart segments -> deduplicateSegments segments = segments).
  { induction segments as [|x l IH] using rev_ind; [reflexivity|].
    intros H. apply ForallOrdPairs_snoc_inv in H. destruct H as [Hl Hx].
    rewrite deduplicateSegments_snoc, (IH Hl), (farApart_notClose Hx). reflexivity. }
  split; [exact Hfix|].
  intros segments. apply Hfix, survivors_farApart.
Qed.

Lemma deduplicateSegments_idempotent_witness :
  ForallOrdPairs farApart [budgetMoment; conclusionMoment]
  /\ deduplicateSegments [budgetMoment; conclusionMoment] = [budgetMoment; conclusionMoment].
Proof.
  assert (H : ForallOrdPairs farApart [budgetMoment; conclusionMoment]).
  { repeat constructor. unfold farApart. simpl. lia. }
  split; [exact H|].
  apply (proj1 deduplicateSegments_idempotent [budgetMoment; conclusionMoment] H).
Defined.

Lemma descending_snoc (l : list Candidate) (x : Candidate) :
  StronglySorted (fun a b => importance b <= importance a) (l ++ [x]) ->
  StronglySorted (fun a b => importance b <= importance a) l
  /\ Forall (fun a => importance x <= importance a) l.
Proof.
  induction l as [|a l IH]; simpl; intros H.
  - split; constructor.
  - inversion H as [|? ? Hl Ha]; subst.
    destruct (IH Hl) as [IH1 IH2].
    apply Forall_app in Ha. destruct Ha as [Ha Hax].
    split; constructor; try assumption.
    inversion Hax; assumption.
Qed.

Lemma deduplicateSegments_covers_sorted (segments : list Candidate) :
  StronglySorted (fun a b => importance b <= importance a) segments ->
  forall c, In c segments ->
    exists kept,
      In kept (deduplicateSegments segments)
      /\ Z.abs (timestamp c - timestamp kept) < 30
      /\ importance c <= importance kept.
Proof.
  induction segments as [|x l IH] using rev_ind; [intros _ c []|].
  intros Hsorted c Hc.
  apply descending_snoc in Hsorted. destruct Hsorted as [Hl Hx].
  rewrite deduplicateSegments_snoc.
  apply in_app_or in Hc. destruct Hc as [Hc|[<-|[]]].
  - destruct (IH Hl c Hc) as (kept & Hk & Hclose & Himp).
    exists kept. split; [|split; assumption].
    destruct (existsb _ (deduplicateSegments l)); [exact Hk|].
    apply in_or_app; left; exact Hk.
  - destruct (existsb _ (deduplicateSegments l)) eqn:E.
    + apply existsb_exists in E. destruct E as (a & Ha & Hclose).
      apply Z.ltb_lt in Hclose.
      exists a. split; [exact Ha|]. split; [exact Hclose|].
      rewrite Forall_forall in Hx. apply Hx, deduplicateSegments_incl, Ha.
    + exists x. split; [apply in_or_app; right; left; reflexivity|].
      split; [rewrite Z.sub_diag; simpl; lia | lia].
Qed.

(** X3. In the ranking of [findKeyMoments] no candidate is lost without a
    stand-in: every candidate is less than 30 seconds away from a survivor of
    the deduplication that is at least as important (itself, when it
    survives). *)
Theorem deduplicateSegments_covers (allSegments : list Candidate) (c : Candidate) :
  In c allSegments ->
  exists kept,
    In kept (deduplicateSegments (sortByImportance allSegments))
    /\ Z.abs (timestamp c - timestamp kept) < 30
    /\ importance c <= importance kept.
Proof.
  intros Hc.
  apply deduplicateSegments_covers_sorted.
  - apply sortByImportance_descending.
  - apply (Permutation_in _ (Permutation_sym (sortByKey_perm _ allSegments))), Hc.
Qed.

Lemma deduplicateSegments_covers_witness :
  In startMoment [budgetMoment; conclusionMoment; startMoment; endMoment]
  /\ exists kept,
      In kept (deduplicateSegments
                 (sortByImportance [budgetMoment; conclusionMoment; startMoment; endMoment]))
      /\ Z.abs (timestamp startMoment - timestamp kept) < 30
      /\ importance startMoment <= importance kept.
Proof.
  assert (H : In startMoment [budgetMoment; conclusionMoment; startMoment; endMoment])
    by (right; right; left; reflexivity).
  split; [exact H|].
  exact (@deduplicateSegments_covers
           [budgetMoment; conclusionMoment; startMoment; endMoment] startMoment H).
Defined.

(** ** The moments of [findKeyMoments] *)

Lemma dedupFold_prefix (segments : list Candidate) (st : DedupLoop) :
  exists later, result (fold_left dedupStep segments st) = result st ++ later.
Proof.
  revert st. induction segments as [|s l IH]; intros st; simpl.
  - exists []. rewrite app_nil_r. reflexivity.
  - destruct (IH (dedupStep st s)) as [later Hl]. rewrite Hl.
    unfold dedupStep. destruct (isTooClose (usedTimeRanges st) s); simpl.
    + exists later. reflexivity.
    + exists (s :: later). rewrite <- app_assoc. reflexivity.
Qed.

(** The first candidate of the walk is always accepted. *)
Lemma deduplicateSegments_head (first : Candidate) (rest : list Candidate) :
  hd_error (deduplicateSegments (first :: rest)) = Some first.
Proof.
  rewrite deduplicateSegments_run. unfold dedupRun. simpl.
  destruct (dedupFold_prefix rest (dedupStep (mkDedupLoop [] []) first)) as [later Hl].
  rewrite Hl. reflexivity.
Qed.

Lemma sortByKey_nonempty (A : Type) (key : A -> Z) (l : list A) :
  l <> [] -> Js.sortByKey key l <> [].
Proof.
  intros Hl Hs. apply Hl. apply length_zero_iff_nil.
  rewrite <- (sortByKey_length key l), Hs. reflexivity.
Qed.

Lemma selectMoments_nonempty (allSegments : list Candidate) (maxMoments : Z) :
  allSegments <> [] -> 1 <= maxMoments -> selectMoments allSegments maxMoments <> [].
Proof.
  intros Hall Hmax. unfold selectMoments. rewrite slice0_firstn by lia.
  pose proof (sortByKey_nonempty (fun c => - importance c) Hall) as Hs.
  fold (sortByImportance allSegments) in Hs.
  destruct (sortByImportance allSegments) as [|first rest] eqn:E; [congruence|].
  pose proof (deduplicateSegments_head first rest) as Hh.
  destruct (deduplicateSegments (first :: rest)) as [|kept others] eqn:Ed; [discriminate|].
  assert (Hc : sortByTimestamp (kept :: others) <> [])
    by (apply sortByKey_nonempty; discriminate).
  destruct (sortByTimestamp (kept :: others)); [congruence|].
  destruct (Z.to_nat maxMoments) eqn:En; [lia|]. discriminate.
Qed.

Lemma getStructuralSegments_nonempty (transcripts : list Transcript) :
  transcripts <> [] -> getStructuralSegments transcripts <> [].
Proof.
  destruct transcripts as [|first rest]; [congruence|]. intros _.
  unfold getStructuralSegments.
  destruct ((1 <? List.length (first :: rest))%nat && _); discriminate.
Qed.

Lemma finalSegments_nonempty (transcripts : list Transcript) (maxMoments : Z) :
  transcripts <> [] -> 1 <= maxMoments -> finalSegments transcripts maxMoments <> [].
Proof.
  intros Ht Hmax. unfold finalSegments. apply selectMoments_nonempty; [|exact Hmax].
  intros H. apply app_eq_nil in H. destruct H as [_ H].
  revert H. apply getStructuralSegments_nonempty.
  unfold sortChronologically. apply sortByKey_nonempty, Ht.
Qed.

(** X4. When the meeting has a bot record and a transcript that is not
    empty, and at least one moment is asked for, [findKeyMoments] finds
    between one and [maxMoments] moments, and its report is the one with key
    moments: the answer "No key moments found" cannot come up. *)
Theorem findKeyMoments_finds_a_moment
    (identifyTopicsWithAI : list Transcript -> list string)
    (args : FindKeyMomentsArgs) (response : ApiResponse)
    (bot : Bot) (transcripts : list Transcript) :
  bot_data response = Some (Runtime.mkBotData (Some bot) transcripts) ->
  transcripts <> [] ->
  1 <= maxMoments args ->
  (1 <= List.length (finalSegments transcripts (maxMoments args)))%nat
  /\ Z.of_nat (List.length (finalSegments transcripts (maxMoments args))) <= maxMoments args
  /\ exists body,
      report identifyTopicsWithAI args response = ("# Key Moments from " ++ body)%string.
Proof.
  intros Hdata Ht Hmax.
  pose proof (finalSegments_nonempty Ht Hmax) as Hne.
  split; [|split].
  - destruct (finalSegments transcripts (maxMoments args)); [congruence | simpl; lia].
  - unfold finalSegments, selectMoments. rewrite slice0_firstn by lia.
    rewrite length_firstn. lia.
  - unfold report. rewrite Hdata.
    cbn [option_map Runtime.bot Runtime.transcripts].
    destruct transcripts as [|first rest]; [congruence|].
    destruct (finalSegments (first :: rest) (maxMoments args)); [congruence|].
    eexists. reflexivity.
Qed.

Lemma findKeyMoments_finds_a_moment_witness :
  bot_data scenarioMeeting
  = Some (Runtime.mkBotData
            (Some (mkBot "Planning" "https://meet.example/2" "2024-01-01" None None))
            scenario)
  /\ scenario <> []
  /\ 1 <= maxMoments (mkFindKeyMomentsArgs "bot-1" None None 2 medium true 1200)
  /\ (1 <= List.length (finalSegments scenario 2))%nat.
Proof.
  split; [reflexivity|].
  split; [discriminate|].
  split; [simpl; lia|].
  apply (proj1 (@findKeyMoments_finds_a_moment (fun _ => [])
                  (mkFindKeyMomentsArgs "bot-1" None None 2 medium true 1200)
                  scenarioMeeting
                  (mkBot "Planning" "https://meet.example/2" "2024-01-01" None None)
                  scenario eq_refl ltac:(discriminate) ltac:(simpl; lia))).
Defined.

Section PairsFacts.
Variable A : Type.
Variable R : A -> A -> Prop.
Hypothesis R_sym : forall a b, R a b -> R b a.
Variable key : A -> Z.

Lemma ForallOrdPairs_insertByKey (x : A) (l : list A) :
  Forall (R x) l -> ForallOrdPairs R l -> ForallOrdPairs R (Js.insertByKey key x l).
Proof.
  induction l as [|y l IH]; simpl; intros Hx Hl.
  - constructor; constructor.
  - destruct (key x <=? key y).
    + constructor; assumption.
    + inversion Hx; subst. inversion Hl as [|? ? Hy Hl']; subst.
      constructor; [|apply IH; assumption].
      apply Forall_forall. intros a Ha.
      apply (Permutation_in _ (insertByKey_perm key x l)) in Ha.
      destruct Ha as [<-|Ha]; [apply R_sym; assumption|].
      rewrite Forall_forall in Hy. apply Hy, Ha.
Qed.

Lemma ForallOrdPairs_sortByKey (l : list A) :
  ForallOrdPairs R l -> ForallOrdPairs R (Js.sortByKey key l).
Proof.
  induction 1 as [|x l Hx Hl IH]; simpl; [constructor|].
  apply ForallOrdPairs_insertByKey; [|exact IH].
  apply Forall_forall. intros a Ha.
  apply (Permutation_in _ (sortByKey_perm key l)) in Ha.
  rewrite Forall_forall in Hx. apply Hx, Ha.
Qed.

Lemma ForallOrdPairs_firstn (n : nat) (l : list A) :
  ForallOrdPairs R l -> ForallOrdPairs R (firstn n l).
Proof.
  intros H. revert n. induction H as [|x l Hx Hl IH]; intros [|n]; simpl; try constructor.
  - apply Forall_forall. intros a Ha. rewrite Forall_forall in Hx. apply Hx.
    rewrite <- (firstn_skipn n l). apply in_or_app; left; exact Ha.
  - apply IH.
Qed.
End PairsFacts.

Lemma slice0_prefix (A : Type) (l : list A) (stop : Z) :
  exists n, Js.slice0 l stop = firstn n l.
Proof. unfold Js.slice0. destruct (stop <? 0); eexists; reflexivity. Qed.

(** X5. Whatever [maxMoments] is, the moments selected are candidates that
    were put in, and any two of them are at least 30 seconds apart. *)
Theorem selectMoments_sound (allSegments : list Candidate) (maxMoments : Z) :
  ForallOrdPairs farApart (selectMoments allSegments maxMoments)
  /\ forall moment, In moment (selectMoments allSegments maxMoments) -> In moment allSegments.
Proof.
  unfold selectMoments.
  destruct (slice0_prefix
              (sortByTimestamp (deduplicateSegments (sortByImportance allSegments)))
              maxMoments) as [n Hn].
  rewrite Hn. split.
  - apply ForallOrdPairs_firstn.
    apply ForallOrdPairs_sortByKey; [exact farApart_sym|].
    apply survivors_farApart.
  - intros moment Hm.
    assert (Hs : In moment (sortByTimestamp
                              (deduplicateSegments (sortByImportance allSegments)))).
    { rewrite <- (firstn_skipn n). apply in_or_app; left; exact Hm. }
    apply (Permutation_in _ (sortByKey_perm _ _)) in Hs.
    apply deduplicateSegments_incl in Hs.
    apply (Permutation_in _ (sortByKey_perm _ _)) in Hs. exact Hs.
Qed.


Lemma last_in (A : Type) (l : list A) (d : A) : l <> [] -> In (List.last l d) l.
Proof.
  induction l as [|a l IH]; [congruence|]. intros _.
  destruct l as [|b l]; [left; reflexivity|].
  right. apply IH. discriminate.
Qed.

Lemma ascending_head_last (first : Transcript) (rest : list Transcript) :
  ascendingBy start_time (first :: rest) ->
  start_time first <= start_time (List.last (first :: rest) first).
Proof.
  intros H. inversion H as [|? ? _ Hf]; subst.
  destruct rest as [|second rest']; [simpl; lia|].
  rewrite Forall_forall in Hf. apply Hf.
  change (List.last (first :: second :: rest') first)
    with (List.last (second :: rest') first).
  apply last_in. discriminate.
Qed.

(** The ranking of a candidate of importance 5 and a later one of
    importance 4. *)
Lemma start_then_end (t1 t2 : Z) (s1 s2 x1 x2 d1 d2 : string) (ty1 ty2 : SegmentType)
    (n : nat) :
  t1 < t2 ->
  hd_error
    (firstn (S n)
       (sortByTimestamp
          (deduplicateSegments
             (sortByImportance
                ([] ++ [mkCandidate t1 s1 x1 5 ty1 d1; mkCandidate t2 s2 x2 4 ty2 d2])))))
  = Some (mkCandidate t1 s1 x1 5 ty1 d1).
Proof.
  intros Hlt.
  unfold sortByImportance, sortByTimestamp, deduplicateSegments, Js.sortByKey,
    dedupStep, isTooClose.
  simpl.
  destruct (Z.abs (t2 - t1) <? 30); simpl; [reflexivity|].
  destruct (t1 <=? t2) eqn:El; [reflexivity | apply Z.leb_gt in El; lia].
Qed.

(** X6. When no segment of a transcript scores as important and no exchange
    is found, the moments still open with the meeting start: for a
    transcript that is not empty and [maxMoments >= 1] the first moment is
    the "Meeting start" of the earliest segment. *)
Theorem structural_start_reported (transcripts : list Transcript) (maxMoments : Z) :
  transcripts <> [] ->
  candidateSegments (groupTranscriptsIntoChunks (sortChronologically transcripts) 300) = [] ->
  1 <= maxMoments ->
  exists first rest,
    sortChronologically transcripts = first :: rest
    /\ hd_error (finalSegments transcripts maxMoments)
       = Some (mkCandidate (start_time first) (speakerOrUnknown first) (segmentText first)
                           5 structural "Meeting start").
Proof.
  intros Ht Hnone Hmax.
  pose proof (sortByKey_sorted start_time transcripts) as Hsorted.
  pose proof (sortByKey_nonempty start_time Ht) as Hne.
  fold (sortChronologically transcripts) in Hsorted, Hne.
  unfold finalSegments. rewrite Hnone.
  destruct (sortChronologically transcripts) as [|first rest]; [congruence|].
  exists first, rest. split; [reflexivity|].
  pose proof (ascending_head_last Hsorted) as Hlast.
  unfold selectMoments. rewrite slice0_firstn by lia.
  destruct (Z.to_nat maxMoments) as [|n] eqn:En; [lia|].
  unfold getStructuralSegments.
  set (final := List.last (first :: rest) first) in *.
  destruct ((1 <? List.length (first :: rest))%nat
            && negb (start_time final =? start_time first)) eqn:E.
  - apply andb_prop in E. destruct E as [_ E].
    apply negb_true_iff, Z.eqb_neq in E.
    apply start_then_end. lia.
  - reflexivity.
Qed.

Lemma structural_start_reported_witness :
  [mkTranscript "A" 5 None ["hello"]; mkTranscript "" 0 None ["welcome"]] <> []
  /\ 1 <= 1
  /\ hd_error (finalSegments
                 [mkTranscript "A" 5 None ["hello"]; mkTranscript "" 0 None ["welcome"]] 1)
     = Some (mkCandidate 0 "Unknown speaker" "welcome" 5 structural "Meeting start").
Proof.
  split; [discriminate|].
  split; [lia|].
  destruct (@structural_start_reported
              [mkTranscript "A" 5 None ["hello"]; mkTranscript "" 0 None ["welcome"]] 1
              ltac:(discriminate) eq_refl ltac:(lia))
    as (first & rest & Hsorted & Hhead).
  injection Hsorted as <- <-. exact Hhead.
Defined.

(** ** Candidates *)

Lemma hit_bound (pattern : Regex.Regex) (weight : Z) (text : string) :
  0 <= weight -> 0 <= hit pattern weight text <= weight.
Proof. unfold hit. destruct (Regex.test true pattern text); lia. Qed.

Lemma importanceScore_bound (text : string) : 0 <= importanceScore text <= 21.
Proof.
  rewrite importanceScore_sum.
  pose proof (wordCount_nonneg text).
  pose proof (@hit_bound importanceTerms 3 text).
  pose proof (@hit_bound summaryTerms 4 text).
  pose proof (@hit_bound obligationTerms 2 text).
  pose proof (@hit_bound decisionTerms 3 text).
  pose proof (@hit_bound problemTerms 2 text).
  pose proof (@hit_bound solutionTerms 2 text).
  pose proof (@hit_bound nextStepsTerms 3 text).
  lia.
Qed.

Lemma orElse_nonempty (s fallback : string) :
  fallback <> EmptyString -> Js.orElse s fallback <> EmptyString.
Proof. intros H. destruct s; [exact H | discriminate]. Qed.

(** X7. Every candidate that [findImportantSegments] gives comes from a
    segment of the transcript, has its start time and its text, a speaker
    name that is not empty, the type [content], and an importance between 1
    and 21. *)
Theorem findImportantSegments_candidates (transcripts : list Transcript) (c : Candidate) :
  In c (findImportantSegments transcripts) ->
  1 <= importance c <= 21
  /\ type c = content
  /\ cspeaker c <> EmptyString
  /\ exists transcript,
      In transcript transcripts
      /\ timestamp c = start_time transcript
      /\ text c = segmentText transcript.
Proof.
  unfold findImportantSegments. rewrite in_flat_map.
  intros (transcript & Hin & Hc).
  unfold importantSegment in Hc.
  pose proof (importanceScore_bound (segmentText transcript)) as Hb.
  destruct (0 <? importanceScore (segmentText transcript)) eqn:E; [|destruct Hc].
  apply Z.ltb_lt in E. destruct Hc as [<-|[]]. simpl.
  split; [lia|]. split; [reflexivity|].
  split; [apply orElse_nonempty; discriminate|].
  exists transcript. repeat split. exact Hin.
Qed.

Lemma findImportantSegments_candidates_witness :
  In budgetMoment (findImportantSegments scenario)
  /\ 1 <= importance budgetMoment <= 21.
Proof.
  assert (H : In budgetMoment (findImportantSegments scenario))
    by (vm_compute; left; reflexivity).
  split; [exact H|].
  apply (proj1 (@findImportantSegments_candidates scenario budgetMoment H)).
Defined.

Lemma uniqueFrom_length (seen l : list string) :
  (List.length (Js.uniqueFrom seen l) <= List.length l)%nat.
Proof.
  revert seen. induction l as [|x l IH]; intros seen; simpl; [lia|].
  destruct (existsb (String.eqb x) seen); [specialize (IH seen) | specialize (IH (x :: seen))];
    simpl; lia.
Qed.

Lemma distinctSpeakers_bound (a b c : string) : 0 <= distinctSpeakers [a; b; c] <= 3.
Proof.
  unfold distinctSpeakers, Js.unique.
  pose proof (uniqueFrom_length []
                (filter (fun n => negb (String.eqb n EmptyString)) [a; b; c])) as H1.
  pose proof (filter_length_le (fun n => negb (String.eqb n EmptyString)) [a; b; c]) as H2.
  simpl List.length in H2 at 2. lia.
Qed.

Lemma distinctSpeakers_same (name : string) : distinctSpeakers [name; name; name] <= 1.
Proof.
  unfold distinctSpeakers, Js.unique. simpl.
  destruct (String.eqb name EmptyString); simpl; [lia|].
  rewrite String.eqb_refl. simpl. lia.
Qed.

(** What [findConversationalExchanges] gives on lists of at most [n]
    segments. *)
Lemma conversations_up_to (n : nat) :
  forall transcripts, (List.length transcripts <= n)%nat ->
    (3 * List.length (findConversationalExchanges transcripts)
     <= List.length transcripts)%nat
    /\ (forall c, In c (findConversationalExchanges transcripts) ->
          (importance c = 4 \/ importance c = 5)
          /\ type c = conversation
          /\ exists transcript, In transcript transcripts
                                /\ timestamp c = start_time transcript)
    /\ (forall name, Forall (fun t => speaker t = name) transcripts ->
          findConversationalExchanges transcripts = []).
Proof.
  induction n as [|n IH]; intros transcripts Hlen.
  - destruct transcripts; [|simpl in Hlen; lia].
    simpl. repeat split; try lia; try contradiction.
  - destruct transcripts as [|s1 [|s2 [|s3 rest]]];
      try (simpl; repeat split; try lia; try contradiction; fail).
    cbn [findConversationalExchanges].
    pose proof (distinctSpeakers_bound (speaker s1) (speaker s2) (speaker s3)) as Hb.
    set (size := distinctSpeakers [speaker s1; speaker s2; speaker s3]) in *.
    destruct ((2 <=? size) && (start_time s3 - start_time s1 <? 60)) eqn:E.
    + apply andb_prop in E. destruct E as [E _]. apply Z.leb_le in E.
      destruct (IH rest ltac:(simpl in Hlen; lia)) as (Hcount & Hall & Hsame).
      split; [simpl in *; lia|]. split.
      * intros c [<-|Hc].
        -- cbn [importance type timestamp]. split; [lia|]. split; [reflexivity|].
           exists s1. split; [left; reflexivity | reflexivity].
        -- destruct (Hall c Hc) as (Hi & Hty & t & Ht & Hts).
           split; [exact Hi|]. split; [exact Hty|].
           exists t. split; [right; right; right; exact Ht | exact Hts].
      * intros name Hf.
        inversion Hf as [|? ? H1 Hf1]; subst.
        inversion Hf1 as [|? ? H2 Hf2]; subst.
        inversion Hf2 as [|? ? H3 Hf3]; subst.
        pose proof (distinctSpeakers_same (speaker s1)) as Hs.
        unfold size in E. rewrite H2, H3 in E. lia.
    + destruct (IH (s2 :: s3 :: rest) ltac:(simpl in Hlen |- *; lia))
        as (Hcount & Hall & Hsame).
      split; [simpl List.length in *; lia|]. split.
      * intros c Hc. destruct (Hall c Hc) as (Hi & Hty & t & Ht & Hts).
        split; [exact Hi|]. split; [exact Hty|].
        exists t. split; [right; exact Ht | exact Hts].
      * intros name Hf. inversion Hf; subst. apply (Hsame (speaker s1)). assumption.
Qed.

(** X8. [findConversationalExchanges] gives at most one candidate for every
    three segments, and none for fewer than three segments or when all
    segments have the same speaker; each candidate starts at a segment of
    the transcript, has the type [conversation] and the importance 4 or 5. *)
Theorem findConversationalExchanges_candidates (transcripts : list Transcript) :
  (3 * List.length (findConversationalExchanges transcripts)
   <= List.length transcripts)%nat
  /\ ((List.length transcripts < 3)%nat -> findConversationalExchanges transcripts = [])
  /\ (forall name, Forall (fun t => speaker t = name) transcripts ->
        findConversationalExchanges transcripts = [])
  /\ (forall c, In c (findConversationalExchanges transcripts) ->
        (importance c = 4 \/ importance c = 5)
        /\ type c = conversation
        /\ exists transcript, In transcript transcripts
                              /\ timestamp c = start_time transcript).
Proof.
  destruct (conversations_up_to (n := List.length transcripts) transcripts (le_n _))
    as (Hcount & Hall & Hsame).
  split; [exact Hcount|]. split; [|split; assumption].
  intros Hshort.
  destruct (findConversationalExchanges transcripts); [reflexivity|].
  simpl in Hcount. lia.
Qed.

Lemma findConversationalExchanges_candidates_witness :
  (List.length [mkTranscript "A" 0 None ["hi"]; mkTranscript "B" 5 None ["hello"]] < 3)%nat
  /\ findConversationalExchanges
       [mkTranscript "A" 0 None ["hi"]; mkTranscript "B" 5 None ["hello"]] = [].
Proof.
  split; [simpl; lia|].
  apply (proj1 (proj2 (findConversationalExchanges_candidates
                         [mkTranscript "A" 0 None ["hi"]; mkTranscript "B" 5 None ["hello"]]))).
  simpl; lia.
Defined.

(** ** The spans of the chunks *)

Section SpanFacts.
Variable maxChunkDuration : Z.

Lemma stepsOver_snoc (refs : list Z) (r r' : Z) :
  stepsOver maxChunkDuration (refs ++ [r]) ->
  maxChunkDuration < r' - r ->
  stepsOver maxChunkDuration ((refs ++ [r]) ++ [r']).
Proof.
  induction refs as [|a refs IH]; simpl; intros H Hr.
  - split; [exact Hr | exact I].
  - destruct refs as [|b refs]; simpl in *.
    + destruct H as [H _]. split; [exact H|]. split; [exact Hr | exact I].
    + destruct H as [H1 H2]. split; [exact H1|]. apply IH; assumption.
Qed.

Lemma chunkStep_spans (st : ChunkLoop) (segment : Transcript) :
  spansKept maxChunkDuration st ->
  spansKept maxChunkDuration (chunkStep maxChunkDuration st segment).
Proof.
  intros ([Hne Href] & Hwithin & Hsteps).
  unfold spansKept, openChunk, chunkStep.
  destruct (currentChunk st) as [|c cur] eqn:E; [congruence|]. simpl Nat.eqb. simpl orb.
  rewrite Href.
  destruct (start_time segment - chunkRef (c :: cur) <=? maxChunkDuration) eqn:Ec;
    cbn [chunks currentChunk chunkStartTime].
  - apply Z.leb_le in Ec.
    split; [split; [discriminate | reflexivity]|].
    apply Forall_app in Hwithin. destruct Hwithin as [Hch Hcur].
    inversion Hcur as [|? ? Hc _]; subst.
    split.
    + apply Forall_app. split; [exact Hch|].
      constructor; [|constructor].
      unfold tailWithin in *. simpl in *.
      apply Forall_app. split; [exact Hc | constructor; [exact Ec | constructor]].
    + rewrite map_app in *. exact Hsteps.
  - apply Z.leb_gt in Ec.
    split; [split; [discriminate | reflexivity]|].
    split.
    + apply Forall_app. split; [exact Hwithin|].
      constructor; [constructor | constructor].
    + rewrite !map_app. rewrite map_app in Hsteps. cbn [map chunkRef] in *.
      apply stepsOver_snoc; [exact Hsteps | exact Ec].
Qed.

Lemma chunkLoop_spans (transcripts : list Transcript) (st : ChunkLoop) :
  spansKept maxChunkDuration st ->
  spansKept maxChunkDuration (chunkLoop maxChunkDuration st transcripts).
Proof.
  revert st. induction transcripts as [|t l IH]; intros st H; simpl.
  - exact H.
  - apply IH, chunkStep_spans, H.
Qed.

Lemma group_spans (transcripts : list Transcript) :
  Forall (tailWithin maxChunkDuration)
         (groupTranscriptsIntoChunks transcripts maxChunkDuration)
  /\ stepsOver maxChunkDuration
       (map chunkRef (groupTranscriptsIntoChunks transcripts maxChunkDuration)).
Proof.
  destruct transcripts as [|first rest]; [split; [constructor | exact I]|].
  destruct (group_as_loop maxChunkDuration first rest) as [Hg _].
  rewrite Hg. rewrite chunkLoop_first.
  apply (chunkLoop_spans rest (st := mkChunkLoop [] [first] (start_time first))).
  split; [split; [discriminate | reflexivity]|].
  split; [constructor; [constructor | constructor] | exact I].
Qed.

Lemma group_concat (transcripts : list Transcript) :
  List.concat (groupTranscriptsIntoChunks transcripts maxChunkDuration) = transcripts.
Proof.
  destruct transcripts as [|first rest]; [reflexivity|].
  unfold groupTranscriptsIntoChunks. rewrite chunkLoop_concat. reflexivity.
Qed.
End SpanFacts.

Lemma StronglySorted_app_inv (A : Type) (R : A -> A -> Prop) (l1 l2 : list A) :
  StronglySorted R (l1 ++ l2) -> StronglySorted R l1 /\ StronglySorted R l2.
Proof.
  induction l1 as [|a l1 IH]; simpl; intros H.
  - split; [constructor | exact H].
  - inversion H as [|? ? Hl Ha]; subst. destruct (IH Hl) as [H1 H2].
    split; [|exact H2]. constructor; [exact H1|].
    apply Forall_app in Ha. apply Ha.
Qed.

Lemma ascending_chunk (chunks : list (list Transcript)) (chunk : list Transcript) :
  ascendingBy start_time (List.concat chunks) -> In chunk chunks ->
  ascendingBy start_time chunk.
Proof.
  unfold ascendingBy.
  induction chunks as [|c cs IH]; simpl; intros H Hin; [contradiction|].
  apply StronglySorted_app_inv in H. destruct H as [Hc Hcs].
  destruct Hin as [<-|Hin]; [exact Hc | apply IH; assumption].
Qed.

(** X9. In every chunk the segments after the first start at most
    [maxChunkDuration] after it, and the first segment of a chunk starts more
    than [maxChunkDuration] after the first segment of the chunk before.  For
    a transcript in ascending order of start time and a duration that is not
    negative, any two segments of a chunk start at most [maxChunkDuration]
    apart. *)
Theorem groupTranscriptsIntoChunks_spans (transcripts : list Transcript)
    (maxChunkDuration : Z) :
  Forall (tailWithin maxChunkDuration)
         (groupTranscriptsIntoChunks transcripts maxChunkDuration)
  /\ stepsOver maxChunkDuration
       (map chunkRef (groupTranscriptsIntoChunks transcripts maxChunkDuration))
  /\ (0 <= maxChunkDuration ->
      ascendingBy start_time transcripts ->
      forall chunk a b,
        In chunk (groupTranscriptsIntoChunks transcripts maxChunkDuration) ->
        In a chunk -> In b chunk ->
        Z.abs (start_time a - start_time b) <= maxChunkDuration).
Proof.
  destruct (group_spans maxChunkDuration transcripts) as [Hwithin Hsteps].
  split; [exact Hwithin|]. split; [exact Hsteps|].
  intros Hmax Hsorted chunk a b Hchunk Ha Hb.
  rewrite <- (group_concat maxChunkDuration transcripts) in Hsorted.
  pose proof (ascending_chunk _ _ Hsorted Hchunk) as Hasc.
  rewrite Forall_forall in Hwithin. specialize (Hwithin chunk Hchunk).
  destruct chunk as [|h rest]; [contradiction|].
  unfold tailWithin in Hwithin. simpl in Hwithin.
  inversion Hasc as [|? ? _ Hh]; subst.
  rewrite Forall_forall in Hwithin, Hh.
  assert (Hrange : forall x, In x (h :: rest) ->
                     start_time h <= start_time x <= start_time h + maxChunkDuration).
  { intros x [<-|Hx]; [lia|].
    specialize (Hwithin x Hx). specialize (Hh x Hx). simpl in Hh. lia. }
  pose proof (Hrange a Ha). pose proof (Hrange b Hb). lia.
Qed.

Lemma groupTranscriptsIntoChunks_spans_witness :
  0 <= 300
  /\ ascendingBy start_time scenario
  /\ Z.abs (start_time (mkTranscript "A" 0 None ["Let's"; "start"; "the"; "meeting"])
            - start_time
                (mkTranscript "B" 20 None
                   ["I"; "think"; "the"; "budget"; "is"; "a"; "key"; "issue"; "we"; "must";
                    "resolve"]))
     <= 300.
Proof.
  assert (Hs : ascendingBy start_time scenario).
  { unfold scenario, ascendingBy. repeat constructor; simpl; lia. }
  split; [lia|]. split; [exact Hs|].
  apply (proj2 (proj2 (groupTranscriptsIntoChunks_spans scenario 300))
           ltac:(lia) Hs
           [mkTranscript "A" 0 None ["Let's"; "start"; "the"; "meeting"];
            mkTranscript "B" 20 None
              ["I"; "think"; "the"; "budget"; "is"; "a"; "key"; "issue"; "we"; "must";
               "resolve"]]).
  - left; reflexivity.
  - left; reflexivity.
  - right; left; reflexivity.
Defined.

(** ** API keys and failing requests *)

Lemma nonEmpty_some (s : option string) (key : string) :
  nonEmpty s = Some key -> s = Some key /\ key <> EmptyString.
Proof.
  destruct s as [[|c s]|]; simpl; intros H; try discriminate.
  injection H as <-. split; [reflexivity | discriminate].
Qed.

Lemma getApiKey_nonempty (environment : Environment) (obj : option SessionObject)
    (key : string) :
  getApiKeyWithFallbacks environment obj = Some key -> key <> EmptyString.
Proof.
  unfold getApiKeyWithFallbacks.
  destruct (nonEmpty (option_map apiKey obj)) as [k|] eqn:E1.
  { intros H. injection H as <-. apply (nonEmpty_some _ E1). }
  destruct (nonEmpty (envApiKey environment)) as [k|] eqn:E2.
  { intros H. injection H as <-. apply (nonEmpty_some _ E2). }
  intros H. apply (nonEmpty_some _ H).
Qed.

Section KeyFacts.
Variable Store : Type.
Variable environment : Environment.

Lemma createValidSession_run (session : option SessionRef) (w : World Store) :
  createValidSession environment session w
  = match getApiKeyWithFallbacks environment (sessionObject w session) with
    | Some key =>
        (Return (Some (List.length (sessions w))),
         mkWorld (sessions w ++ [mkSession key None]) (apiCalls w) (store w))
    | None => (Return None, w)
    end.
Proof.
  unfold createValidSession, bind, sessionObject.
  destruct session as [ref|]; simpl;
    destruct (getApiKeyWithFallbacks environment _); reflexivity.
Qed.

(** X10. The key of a tool call is the key of the session when the session
    has one that is not empty, else that of the environment variable, else
    that of the desktop configuration, empty keys counting as absent; no key
    at all means no valid session.  A valid session is a new object that
    holds the key only: the session objects that existed stay as they
    were. *)
Theorem createValidSession_key_order (session : option SessionRef) (w : World Store) :
  let sessionKey := nonEmpty (option_map apiKey (sessionObject w session)) in
  let key :=
    match sessionKey, nonEmpty (envApiKey environment),
          nonEmpty (configApiKey environment) with
    | Some k, _, _ => Some k
    | None, Some k, _ => Some k
    | None, None, fromConfig => fromConfig
    end in
  getApiKeyWithFallbacks environment (sessionObject w session) = key
  /\ match key with
     | Some k =>
         k <> EmptyString
         /\ createValidSession environment session w
            = (Return (Some (List.length (sessions w))),
               mkWorld (sessions w ++ [mkSession k None]) (apiCalls w) (store w))
         /\ nth_error (sessions (snd (createValidSession environment session w)))
                      (List.length (sessions w))
            = Some (mkSession k None)
         /\ forall ref obj,
             nth_error (sessions w) ref = Some obj ->
             nth_error (sessions (snd (createValidSession environment session w))) ref
             = Some obj
     | None => createValidSession environment session w = (Return None, w)
     end.
Proof.
  intros sessionKey key.
  assert (Hkey : getApiKeyWithFallbacks environment (sessionObject w session) = key).
  { unfold key, sessionKey, getApiKeyWithFallbacks.
    destruct (nonEmpty (option_map apiKey (sessionObject w session)));
      [reflexivity|].
    destruct (nonEmpty (envApiKey environment)); reflexivity. }
  split; [exact Hkey|].
  rewrite createValidSession_run, Hkey.
  destruct key as [k|]; [|reflexivity].
  split; [apply (getApiKey_nonempty _ _ Hkey)|].
  split; [reflexivity|]. cbn [snd sessions].
  split.
  - rewrite nth_error_app2 by lia. rewrite Nat.sub_diag. reflexivity.
  - intros ref obj Hobj. rewrite nth_error_app1; [exact Hobj|].
    apply nth_error_Some. rewrite Hobj. discriminate.
Qed.
End KeyFacts.

Section RequestFacts.
Variable Store : Type.
Variable environment : Environment.
Variable backend : string -> string -> nat -> Outcome ApiResponse.
Variable trackBot : string -> BotMetadata -> Store -> Outcome unit * Store.
Variable formatTime : Z -> string.
Variable identifyTopicsWithAI : list Transcript -> list string.

(** The request that a tool makes right after it has got its valid
    session. *)
Lemma apiRequest_after_session (w : World Store) (key botId : string) :
  key <> EmptyString ->
  apiRequest backend (Some (List.length (sessions w))) botId
    (mkWorld (sessions w ++ [mkSession key None]) (apiCalls w) (store w))
  = (backend key botId (apiCalls w),
     mkWorld (sessions w ++ [mkSession key None]) (S (apiCalls w)) (store w)).
Proof.
  intros Hkey. unfold apiRequest, bind, getSession. cbn [sessions apiCalls store].
  rewrite nth_error_app2 by lia. rewrite Nat.sub_diag. cbn [nth_error option_map apiKey].
  destruct key; [congruence | reflexivity].
Qed.

(** X11. Without a key in the session, the environment and the
    configuration, each tool answers that the authentication failed and
    leaves the world as it was: no request is made, no session object is
    created and the recent-bots store is not written. *)
Theorem tools_without_key (session : option SessionRef) (w : World Store) :
  getApiKeyWithFallbacks environment (sessionObject w session) = None ->
  (forall args,
      intelligentSearch environment backend trackBot formatTime args session w
      = (Return authenticationFailed, w))
  /\ (forall args,
         searchTranscript environment backend trackBot formatTime args session w
         = (Return authenticationFailed, w))
  /\ (forall args,
         searchVideoSegment environment backend trackBot formatTime args session w
         = (Return authenticationFailed, w))
  /\ (forall args,
         findKeyMoments identifyTopicsWithAI environment backend args session w
         = (Return authenticationFailed, w)).
Proof.
  intros Hkey. repeat split; intros args.
  - unfold intelligentSearch, tryCatch, bind.
    rewrite createValidSession_run, Hkey. reflexivity.
  - unfold searchTranscript, bind.
    rewrite createValidSession_run, Hkey. reflexivity.
  - unfold searchVideoSegment, bind.
    rewrite createValidSession_run, Hkey. reflexivity.
  - unfold findKeyMoments, tryCatch, bind.
    rewrite createValidSession_run, Hkey. reflexivity.
Qed.

(** X12. When the request for the meeting data fails with a message, each
    tool returns its own error text with that message; it has made that one
    request, has created its valid session, and has not written the
    recent-bots store nor touched the session objects that existed. *)
Theorem tools_on_failed_request (session : option SessionRef) (w : World Store)
    (key message : string) :
  getApiKeyWithFallbacks environment (sessionObject w session) = Some key ->
  let failed :=
    mkWorld (sessions w ++ [mkSession key None]) (S (apiCalls w)) (store w) in
  (forall args,
      backend key (is_botId args) (apiCalls w) = Throw message ->
      intelligentSearch environment backend trackBot formatTime args session w
      = (Return (Text ("Error searching meeting " ++ is_botId args ++ ": " ++ message)%string),
         failed))
  /\ (forall args,
         backend key (st_botId args) (apiCalls w) = Throw message ->
         searchTranscript environment backend trackBot formatTime args session w
         = (Return (Text ("Error searching transcripts: " ++ message)%string), failed))
  /\ (forall args,
         backend key (vs_botId args) (apiCalls w) = Throw message ->
         searchVideoSegment environment backend trackBot formatTime args session w
         = (Return (Text ("An error occurred during the search: " ++ message)%string),
            failed))
  /\ (forall args,
         backend key (Links.botId args) (apiCalls w) = Throw message ->
         findKeyMoments identifyTopicsWithAI environment backend args session w
         = (Return (Text ("Error finding key moments: " ++ message
                            ++ ". Please check that the bot ID is correct.")%string),
            failed)).
Proof.
  intros Hkey failed.
  pose proof (getApiKey_nonempty _ _ Hkey) as Hne.
  repeat split; intros args Hfail.
  - unfold intelligentSearch, tryCatch, bind.
    rewrite createValidSession_run, Hkey.
    rewrite (apiRequest_after_session w (is_botId args) Hne), Hfail. reflexivity.
  - unfold searchTranscript, tryCatch, bind.
    rewrite createValidSession_run, Hkey.
    rewrite (apiRequest_after_session w (st_botId args) Hne), Hfail. reflexivity.
  - unfold searchVideoSegment, tryCatch, bind.
    rewrite createValidSession_run, Hkey.
    rewrite (apiRequest_after_session w (vs_botId args) Hne), Hfail. reflexivity.
  - unfold findKeyMoments, tryCatch, bind.
    rewrite createValidSession_run, Hkey.
    rewrite (apiRequest_after_session w (Links.botId args) Hne), Hfail. reflexivity.
Qed.
End RequestFacts.

Lemma tools_without_key_witness :
  getApiKeyWithFallbacks noFallback
    (sessionObject (mkWorld [mkSession EmptyString None] 0%nat tt) (Some 0%nat))
  = None
  /\ searchTranscript noFallback sampleBackend quietTracker plainSeconds
       (mkSearchTranscriptArgs "bot-1" "hello") (Some 0%nat)
       (mkWorld [mkSession EmptyString None] 0%nat tt)
     = (Return authenticationFailed, mkWorld [mkSession EmptyString None] 0%nat tt).
Proof.
  split; [reflexivity|].
  apply (proj1 (proj2 (@tools_without_key unit noFallback sampleBackend quietTracker
                         plainSeconds (fun _ => []) (Some 0%nat)
                         (mkWorld [mkSession EmptyString None] 0%nat tt) eq_refl))).
Defined.

Lemma tools_on_failed_request_witness :
  getApiKeyWithFallbacks noFallback (sessionObject oneSession (Some 0%nat)) = Some "key"
  /\ (fun (_ _ : string) (_ : nat) => Throw (A := ApiResponse) "API Error: timeout")
       "key" "bot-1" 0%nat
     = Throw "API Error: timeout"
  /\ searchTranscript noFallback
       (fun (_ _ : string) (_ : nat) => Throw (A := ApiResponse) "API Error: timeout")
       failingTracker plainSeconds
       (mkSearchTranscriptArgs "bot-1" "hello") (Some 0%nat) oneSession
     = (Return (Text "Error searching transcripts: API Error: timeout"),
        mkWorld [mkSession "key" None; mkSession "key" None] 1%nat tt).
Proof.
  split; [reflexivity|]. split; [reflexivity|].
  apply (proj1 (proj2 (@tools_on_failed_request unit noFallback
                         (fun (_ _ : string) (_ : nat) =>
                            Throw (A := ApiResponse) "API Error: timeout")
                         failingTracker plainSeconds (fun _ => []) (Some 0%nat)
                         oneSession "key" "API Error: timeout" eq_refl))
           (mkSearchTranscriptArgs "bot-1" "hello") eq_refl).
Defined.

(** ** The filters of [searchVideoSegment] *)

(** X13. The time filter keeps exactly the segments that start at or after
    the start time, if one is given, and end at or before the end time, if
    one is given, a segment without end time ending five seconds after its
    start; without bounds every segment is kept. *)
Theorem filterByTime_exact (startTime endTime : option Z) (transcripts : list Transcript) :
  (forall t,
      In t (filterByTime startTime endTime transcripts)
      <-> In t transcripts
          /\ (forall s, startTime = Some s -> s <= start_time t)
          /\ (forall e, endTime = Some e -> segmentEnd t <= e))
  /\ filterByTime None None transcripts = transcripts.
Proof.
  split; [|reflexivity].
  intros t.
  assert (Hin : inTimeRange startTime endTime t = true
                <-> (forall s, startTime = Some s -> s <= start_time t)
                    /\ (forall e, endTime = Some e -> segmentEnd t <= e)).
  { unfold inTimeRange. fold (segmentEnd t).
    rewrite andb_true_iff.
    destruct startTime as [s|], endTime as [e|];
      rewrite ?negb_true_iff, ?Z.ltb_ge; split.
    - intros [H1 H2]. split; intros x Hx; injection Hx as <-; assumption.
    - intros [H1 H2]. split; [apply H1 | apply H2]; reflexivity.
    - intros [H1 _]. split; intros x Hx; [injection Hx as <-; assumption | discriminate].
    - intros [H1 _]. split; [apply H1; reflexivity | reflexivity].
    - intros [_ H2]. split; intros x Hx; [discriminate | injection Hx as <-; assumption].
    - intros [_ H2]. split; [reflexivity | apply H2; reflexivity].
    - intros _. split; intros x Hx; discriminate.
    - intros _. split; reflexivity. }
  unfold filterByTime.
  destruct startTime as [s|] eqn:Es, endTime as [e|] eqn:Ee;
    try (rewrite filter_In, Hin; reflexivity).
  split; [intros H; split; [exact H | split; intros x Hx; discriminate] | intros [H _]; exact H].
Qed.

Lemma uniqueFrom_in (x : string) (l seen : list string) :
  In x l -> In x (Js.uniqueFrom seen l) \/ In x seen.
Proof.
  revert seen. induction l as [|y l IH]; intros seen Hx; [contradiction|].
  simpl. destruct (existsb (String.eqb y) seen) eqn:E.
  - destruct Hx as [<-|Hx]; [|apply IH, Hx].
    right. apply existsb_exists in E. destruct E as (z & Hz & Hyz).
    apply String.eqb_eq in Hyz. subst. exact Hz.
  - destruct Hx as [<-|Hx]; [left; left; reflexivity|].
    destruct (IH (y :: seen) Hx) as [H|[<-|H]].
    + left; right; exact H.
    + left; left; reflexivity.
    + right; exact H.
Qed.

Lemma toLowerCase_nonempty (s : string) :
  s <> EmptyString -> Js.toLowerCase s <> EmptyString.
Proof. destruct s; [congruence | discriminate]. Qed.

(** X14. The speaker filter only ever takes segments away, and takes none
    away when no speaker is asked for.  When the name asked for is, letter
    case aside, the name of a speaker of the meeting, the segments kept are
    exactly those whose speaker is that name, letter case aside: looser
    matches are not considered. *)
Theorem filterBySpeaker_exact (all filtered : list Transcript) :
  (forall wanted t, In t (filterBySpeaker wanted all filtered) -> In t filtered)
  /\ filterBySpeaker None all filtered = filtered
  /\ filterBySpeaker (Some EmptyString) all filtered = filtered
  /\ (forall wantedName known,
         wantedName <> EmptyString ->
         In known all ->
         speaker known <> EmptyString ->
         Js.toLowerCase (Js.trim (speaker known)) = Js.toLowerCase wantedName ->
         filterBySpeaker (Some wantedName) all filtered
         = filter (fun t => String.eqb (Js.toLowerCase (speaker t))
                                       (Js.toLowerCase wantedName))
                  filtered).
Proof.
  split; [|split; [reflexivity | split; [reflexivity|]]].
  - intros wanted t. unfold filterBySpeaker.
    destruct wanted as [[|c w]|]; try (intros H; exact H).
    destruct (find _ (allSpeakers all)) as [[|d s]|];
      try (destruct (filter _ (allSpeakers all)));
      intros H; apply filter_In in H; apply H.
  - intros wantedName known Hne Hknown Hspeaker Hsame.
    unfold filterBySpeaker.
    destruct wantedName as [|c w]; [congruence|].
    set (speakerLower := Js.toLowerCase (String c w)) in *.
    destruct (find (fun s => String.eqb (Js.toLowerCase s) speakerLower) (allSpeakers all))
      as [found|] eqn:Ef.
    + apply find_some in Ef. destruct Ef as [_ Ef]. apply String.eqb_eq in Ef.
      destruct found as [|d s]; [|reflexivity].
      exfalso. simpl in Ef. unfold speakerLower in Ef. simpl in Ef. discriminate.
    + exfalso.
      assert (Hin : In (Js.trim (speaker known)) (allSpeakers all)).
      { unfold allSpeakers, Js.unique.
        destruct (@uniqueFrom_in (Js.trim (speaker known))
                    (map (fun t => Js.trim (speaker t))
                         (filter (fun t => negb (String.eqb (speaker t) EmptyString)) all))
                    []) as [H|[]]; [|exact H].
        apply in_map_iff. exists known. split; [reflexivity|].
        apply filter_In. split; [exact Hknown|].
        apply negb_true_iff, String.eqb_neq, Hspeaker. }
      pose proof (find_none _ _ Ef _ Hin) as Hno. simpl in Hno.
      rewrite Hsame, String.eqb_refl in Hno. discriminate.
Qed.

Lemma filterBySpeaker_exact_witness :
  "AL" <> EmptyString
  /\ In (mkTranscript "Al" 0 None ["hi"])
        [mkTranscript "Al" 0 None ["hi"]; mkTranscript "Alice" 9 None ["hello"]]
  /\ filterBySpeaker (Some "AL")
       [mkTranscript "Al" 0 None ["hi"]; mkTranscript "Alice" 9 None ["hello"]]
       [mkTranscript "Al" 0 None ["hi"]; mkTranscript "Alice" 9 None ["hello"]]
     = filter (fun t => String.eqb (Js.toLowerCase (speaker t)) (Js.toLowerCase "AL"))
              [mkTranscript "Al" 0 None ["hi"]; mkTranscript "Alice" 9 None ["hello"]].
Proof.
  split; [discriminate|].
  split; [left; reflexivity|].
  apply (proj2 (proj2 (proj2
           (filterBySpeaker_exact
              [mkTranscript "Al" 0 None ["hi"]; mkTranscript "Alice" 9 None ["hello"]]
              [mkTranscript "Al" 0 None ["hi"]; mkTranscript "Alice" 9 None ["hello"]])))
           "AL" (mkTranscript "Al" 0 None ["hi"])).
  - discriminate.
  - left; reflexivity.
  - discriminate.
  - reflexivity.
Defined.

(** ** Search terms *)

Lemma trimStart_noLeading (s : string) : noLeadingSpace (Js.trimStart s).
Proof.
  induction s as [|c s IH]; simpl; [exact I|].
  destruct (Js.isWhiteSpace c) eqn:E; [exact IH | exact E].
Qed.

Lemma trimStart_fixed (s : string) : noLeadingSpace s -> Js.trimStart s = s.
Proof. destruct s as [|c s]; simpl; intros H; [reflexivity | rewrite H; reflexivity]. Qed.

Lemma trimEnd_noLeading (s : string) : noLeadingSpace s -> noLeadingSpace (Js.trimEnd s).
Proof.
  destruct s as [|c s]; simpl; intros H; [exact I|].
  destruct (Js.trimEnd s); [rewrite H|]; exact H.
Qed.

Lemma trimEnd_idempotent (s : string) : Js.trimEnd (Js.trimEnd s) = Js.trimEnd s.
Proof.
  induction s as [|c s IH]; [reflexivity|].
  simpl. destruct (Js.trimEnd s) as [|d t] eqn:E.
  - destruct (Js.isWhiteSpace c) eqn:Ec; [reflexivity|].
    simpl. rewrite Ec. reflexivity.
  - change (Js.trimEnd (String c (String d t)))
      with (match Js.trimEnd (String d t) with
            | EmptyString => if Js.isWhiteSpace c then EmptyString else String c EmptyString
            | u => String c u
            end).
    rewrite IH. reflexivity.
Qed.

Lemma trim_idempotent (s : string) : Js.trim (Js.trim s) = Js.trim s.
Proof.
  unfold Js.trim.
  rewrite (@trimStart_fixed _ (@trimEnd_noLeading _ (trimStart_noLeading s))).
  apply trimEnd_idempotent.
Qed.

(** X15. The search terms are empty only for the empty query, and blank only
    for a blank query: when taking the filter phrases out leaves nothing, the
    query itself is searched for.  So for a query that is not blank the tiers
    end with the transcript search of tier 4, and the segment listing of
    tier 5 is not run. *)
Theorem searchTerms_blank_only_for_blank_query :
  (forall query, searchTermsOf query = EmptyString <-> query = EmptyString)
  /\ (forall query, hasTerms (searchTermsOf query) = false -> Js.trim query = EmptyString)
  /\ (forall (Store : Type) environment backend
             (trackBot : string -> BotMetadata -> Store -> Outcome unit * Store)
             formatTime botId validSession botData wanted timeRange query,
         Js.trim query <> EmptyString ->
         tiers environment backend trackBot formatTime botId validSession botData wanted
               timeRange (searchTermsOf query)
         = orElseTier
             (tier1 environment backend trackBot formatTime botId validSession botData
                    wanted timeRange (searchTermsOf query))
             (orElseTier
                (tier2 environment backend trackBot formatTime botId validSession wanted
                       timeRange)
                (orElseTier
                   (tier3 formatTime botData (searchTermsOf query))
                   (tier4 environment backend trackBot formatTime botId validSession
                          (searchTermsOf query))))).
Proof.
  assert (Hblank : forall query,
             hasTerms (searchTermsOf query) = false -> Js.trim query = EmptyString).
  { intros query. unfold searchTermsOf, hasTerms.
    set (cleaned := fold_left _ filterPhrases query).
    destruct (Js.trim cleaned) as [|c rest] eqn:E; simpl Js.orElse.
    - intros H. apply negb_false_iff, String.eqb_eq in H. exact H.
    - rewrite <- E, trim_idempotent, E. simpl. discriminate. }
  split; [|split; [exact Hblank|]].
  - intros query. split.
    + unfold searchTermsOf. destruct (Js.trim _); simpl; [intros H; exact H | discriminate].
    + intros ->. vm_compute. reflexivity.
  - intros Store environment backend trackBot formatTime botId validSession botData
           wanted timeRange query Hquery.
    unfold tiers.
    destruct (hasTerms (searchTermsOf query)) eqn:E; [reflexivity|].
    apply Hblank in E. congruence.
Qed.

Lemma searchTerms_blank_only_for_blank_query_witness :
  hasTerms (searchTermsOf "   ") = false /\ Js.trim "   " = EmptyString.
Proof.
  split; [reflexivity|].
  apply (proj1 (proj2 searchTerms_blank_only_for_blank_query) "   ").
  reflexivity.
Defined.

(** ** The transcript search *)

Lemma charToLowerCase_idempotent (c : ascii) :
  Js.charToLowerCase (Js.charToLowerCase c) = Js.charToLowerCase c.
Proof. destruct c as [[] [] [] [] [] [] [] []]; reflexivity. Qed.

Lemma toLowerCase_idempotent (s : string) :
  Js.toLowerCase (Js.toLowerCase s) = Js.toLowerCase s.
Proof.
  induction s as [|c s IH]; simpl; [reflexivity|].
  rewrite charToLowerCase_idempotent, IH. reflexivity.
Qed.

Lemma includes_empty (s : string) : Js.includes s EmptyString = true.
Proof. destruct s; reflexivity. Qed.

Lemma filter_all (A : Type) (p : A -> bool) (l : list A) :
  (forall a, In a l -> p a = true) -> filter p l = l.
Proof.
  induction l as [|a l IH]; intros H; simpl; [reflexivity|].
  rewrite (H a (or_introl eq_refl)), IH; [reflexivity|].
  intros b Hb. apply H. right. exact Hb.
Qed.

(** X16. The transcript search does not look at letter case: two queries
    with the same lower-case form select the same segments, a query and its
    lower-case form among them; and the empty query selects every
    segment. *)
Theorem transcript_search_ignores_case (transcripts : list Transcript) :
  (forall query other,
      Js.toLowerCase query = Js.toLowerCase other ->
      filter (transcriptMatches query) transcripts
      = filter (transcriptMatches other) transcripts)
  /\ (forall query,
         filter (transcriptMatches (Js.toLowerCase query)) transcripts
         = filter (transcriptMatches query) transcripts)
  /\ filter (transcriptMatches EmptyString) transcripts = transcripts.
Proof.
  assert (Hsame : forall query other,
             Js.toLowerCase query = Js.toLowerCase other ->
             filter (transcriptMatches query) transcripts
             = filter (transcriptMatches other) transcripts).
  { intros query other H. apply filter_ext. intros t.
    unfold transcriptMatches. rewrite H. reflexivity. }
  split; [exact Hsame|]. split.
  - intros query. apply Hsame, toLowerCase_idempotent.
  - apply filter_all. intros t _. unfold transcriptMatches. apply includes_empty.
Qed.

Lemma transcript_search_ignores_case_witness :
  Js.toLowerCase "HELLO" = Js.toLowerCase "Hello"
  /\ filter (transcriptMatches "HELLO") scenario = filter (transcriptMatches "Hello") scenario.
Proof.
  split; [reflexivity|].
  apply (proj1 (transcript_search_ignores_case scenario) "HELLO" "Hello").
  reflexivity.
Defined.

(** ** The recent-bots database *)

Lemma findIndex_find (wanted : string) (bots : list TinyDb.BotRecord) :
  find (fun bot => String.eqb (TinyDb.id bot) wanted) bots
  = option_map snd (TinyDb.findIndex wanted bots).
Proof.
  induction bots as [|bot rest IH]; simpl; [reflexivity|].
  destruct (String.eqb (TinyDb.id bot) wanted); [reflexivity|].
  rewrite IH. destruct (TinyDb.findIndex wanted rest) as [[i b]|]; reflexivity.
Qed.

Lemma findIndex_id (wanted : string) (bots : list TinyDb.BotRecord) (i : nat)
    (b : TinyDb.BotRecord) :
  TinyDb.findIndex wanted bots = Some (i, b) -> TinyDb.id b = wanted.
Proof.
  revert i. induction bots as [|bot rest IH]; simpl; intros i H; [discriminate|].
  destruct (String.eqb (TinyDb.id bot) wanted) eqn:E.
  - injection H as _ <-. apply String.eqb_eq, E.
  - destruct (TinyDb.findIndex wanted rest) as [[j c]|]; [|discriminate].
    injection H as _ <-. apply (IH j eq_refl).
Qed.

Lemma findIndex_none (wanted : string) (bots : list TinyDb.BotRecord) :
  TinyDb.findIndex wanted bots = None -> ~ In wanted (map TinyDb.id bots).
Proof.
  induction bots as [|bot rest IH]; simpl; intros H; [tauto|].
  destruct (String.eqb (TinyDb.id bot) wanted) eqn:E; [discriminate|].
  destruct (TinyDb.findIndex wanted rest) as [[j c]|]; [discriminate|].
  apply String.eqb_neq in E. intros [Hh|Ht]; [congruence | apply IH; auto].
Qed.

Lemma removeAt_ids (wanted : string) (bots : list TinyDb.BotRecord) (i : nat)
    (b : TinyDb.BotRecord) :
  TinyDb.findIndex wanted bots = Some (i, b) ->
  List.length (TinyDb.removeAt i bots) = pred (List.length bots)
  /\ (forall x, In x (map TinyDb.id (TinyDb.removeAt i bots)) -> In x (map TinyDb.id bots))
  /\ (NoDup (map TinyDb.id bots) ->
      NoDup (map TinyDb.id (TinyDb.removeAt i bots))
      /\ ~ In wanted (map TinyDb.id (TinyDb.removeAt i bots))).
Proof.
  revert i. induction bots as [|bot rest IH]; simpl; intros i H; [discriminate|].
  destruct (String.eqb (TinyDb.id bot) wanted) eqn:E.
  - injection H as <- <-. simpl. split; [reflexivity|].
    split; [intros x Hx; right; exact Hx|].
    intros Hnd. inversion Hnd; subst. apply String.eqb_eq in E. subst. split; assumption.
  - destruct (TinyDb.findIndex wanted rest) as [[j c]|] eqn:Ef; [|discriminate].
    injection H as <- <-. destruct (IH j eq_refl) as (Hlen & Hincl & Hnd).
    simpl. split.
    + rewrite Hlen. destruct rest; [discriminate | reflexivity].
    + split.
      * intros x [Hx|Hx]; [left; exact Hx | right; apply Hincl, Hx].
      * intros Hnd0. inversion Hnd0 as [|? ? Hnotin Hrest]; subst.
        destruct (Hnd Hrest) as [Hnd1 Hnot].
        apply String.eqb_neq in E. split.
        -- constructor; [|exact Hnd1]. intros Hin. apply Hnotin, Hincl, Hin.
        -- intros [Hh|Ht]; [congruence | contradiction].
Qed.

Lemma find_removeAt (wanted other : string) (bots : list TinyDb.BotRecord) (i : nat)
    (b : TinyDb.BotRecord) :
  TinyDb.findIndex wanted bots = Some (i, b) ->
  other <> wanted ->
  find (fun bot => String.eqb (TinyDb.id bot) other) (TinyDb.removeAt i bots)
  = find (fun bot => String.eqb (TinyDb.id bot) other) bots.
Proof.
  revert i. induction bots as [|bot rest IH]; simpl; intros i H Hother; [discriminate|].
  destruct (String.eqb (TinyDb.id bot) wanted) eqn:E.
  - injection H as <- <-. apply String.eqb_eq in E.
    destruct (String.eqb (TinyDb.id bot) other) eqn:Eo; [|reflexivity].
    apply String.eqb_eq in Eo. congruence.
  - destruct (TinyDb.findIndex wanted rest) as [[j c]|] eqn:Ef; [|discriminate].
    injection H as <- <-. simpl.
    destruct (String.eqb (TinyDb.id bot) other); [reflexivity|].
    apply (IH j eq_refl Hother).
Qed.

Lemma find_firstn (A : Type) (p : A -> bool) (n : nat) (l : list A) (r : A) :
  find p (firstn n l) = Some r -> find p l = Some r.
Proof.
  revert n. induction l as [|a l IH]; intros [|n]; simpl; try discriminate.
  destruct (p a); [intros H; exact H | apply IH].
Qed.

Section DatabaseFacts.
Variable Disk : Type.
Variable writeFileSync : string -> TinyDb.Data -> Disk -> Outcome unit * Disk.
Variables accessedAt savedAt : string.
Variable botData : TinyDb.BotData.
Variable st : TinyDb.State Disk.

Lemma saveToFile_data (now : string) (s : TinyDb.State Disk) :
  TinyDb.data (TinyDb.saveToFile writeFileSync now s)
  = TinyDb.mkData (TinyDb.recentBots (TinyDb.data s)) now
  /\ TinyDb.dbPath (TinyDb.saveToFile writeFileSync now s) = TinyDb.dbPath s.
Proof.
  unfold TinyDb.saveToFile.
  destruct (writeFileSync _ _ _) as [outcome disk']. split; reflexivity.
Qed.

(** The records after [trackBot], by the two cases of the code. *)
Lemma trackBot_bots :
  let bots := TinyDb.recentBots (TinyDb.data st) in
  let run := TinyDb.trackBot writeFileSync accessedAt savedAt botData st in
  match TinyDb.findIndex (TinyDb.d_id botData) bots with
  | Some (i, existing) =>
      fst run = TinyDb.updatedBot accessedAt existing botData
      /\ TinyDb.recentBots (TinyDb.data (snd run)) = fst run :: TinyDb.removeAt i bots
  | None =>
      fst run = TinyDb.newBot accessedAt botData
      /\ TinyDb.recentBots (TinyDb.data (snd run)) = firstn 50 (fst run :: bots)
  end.
Proof.
  intros bots run. unfold run, TinyDb.trackBot. fold bots.
  destruct (TinyDb.findIndex (TinyDb.d_id botData) bots) as [[i existing]|].
  - cbn [fst snd]. rewrite (proj1 (saveToFile_data _ _)). split; reflexivity.
  - cbn [fst snd]. rewrite (proj1 (saveToFile_data _ _)). split; [reflexivity|].
    cbn [TinyDb.recentBots TinyDb.data].
    destruct (50 <? List.length (TinyDb.newBot accessedAt botData :: bots))%nat eqn:E.
    + reflexivity.
    + apply Nat.ltb_ge in E. rewrite firstn_all2 by exact E. reflexivity.
Qed.

(** X17. After [trackBot] the record it returns has the id tracked, stands
    first among the records and is the one that [getBot] finds under that
    id; ids that were distinct stay distinct, and the list holds as many
    records as before for a known bot, one more for a new bot, and never more
    than 50 once a new bot is added. *)
Theorem trackBot_front_and_unique :
  let before := TinyDb.recentBots (TinyDb.data st) in
  let tracked := fst (TinyDb.trackBot writeFileSync accessedAt savedAt botData st) in
  let after :=
    TinyDb.data (snd (TinyDb.trackBot writeFileSync accessedAt savedAt botData st)) in
  TinyDb.id tracked = TinyDb.d_id botData
  /\ hd_error (TinyDb.recentBots after) = Some tracked
  /\ TinyDb.getBot after (TinyDb.d_id botData) = Some tracked
  /\ (NoDup (map TinyDb.id before) -> NoDup (map TinyDb.id (TinyDb.recentBots after)))
  /\ List.length (TinyDb.recentBots after)
     = match TinyDb.getBot (TinyDb.mkData before savedAt) (TinyDb.d_id botData) with
       | Some _ => List.length before
       | None => Nat.min (S (List.length before)) 50
       end.
Proof.
  intros before tracked after.
  pose proof trackBot_bots as H. cbv zeta in H. fold before tracked after in H.
  unfold TinyDb.getBot. cbn [TinyDb.recentBots]. rewrite (findIndex_find _ before).
  destruct (TinyDb.findIndex (TinyDb.d_id botData) before) as [[i existing]|] eqn:Ef;
    destruct H as [Htracked Hafter]; unfold TinyDb.getBot; rewrite Hafter.
  - assert (Hid : TinyDb.id tracked = TinyDb.d_id botData) by (rewrite Htracked; reflexivity).
    destruct (removeAt_ids _ _ Ef) as (Hlen & Hincl & Hnd).
    split; [exact Hid|]. split; [reflexivity|].
    split; [simpl; rewrite Hid, String.eqb_refl; reflexivity|].
    split.
    + intros Hnd0. destruct (Hnd Hnd0) as [Hnd1 Hnot].
      simpl. rewrite Hid. constructor; assumption.
    + simpl. rewrite Hlen. destruct before; [discriminate | reflexivity].
  - assert (Hid : TinyDb.id tracked = TinyDb.d_id botData) by (rewrite Htracked; reflexivity).
    split; [exact Hid|]. split; [reflexivity|].
    split; [simpl; rewrite Hid, String.eqb_refl; reflexivity|].
    split.
    + intros Hnd0. rewrite <- firstn_map. apply NoDup_firstn.
      simpl. rewrite Hid. constructor; [apply findIndex_none, Ef | exact Hnd0].
    + rewrite length_firstn. cbn [option_map List.length]. lia.
Qed.

(** X18. The record that [trackBot] returns carries the time of the access
    and counts the accesses: 1 for a bot that was not known, one more than
    the stored count for a known bot. *)
Theorem trackBot_counts_accesses :
  let tracked := fst (TinyDb.trackBot writeFileSync accessedAt savedAt botData st) in
  TinyDb.lastAccessedAt tracked = accessedAt
  /\ TinyDb.accessCount tracked
     = match TinyDb.getBot (TinyDb.data st) (TinyDb.d_id botData) with
       | Some known => TinyDb.accessCount known + 1
       | None => 1
       end.
Proof.
  intros tracked.
  pose proof trackBot_bots as H. cbv zeta in H. fold tracked in H.
  unfold TinyDb.getBot. rewrite findIndex_find.
  destruct (TinyDb.findIndex (TinyDb.d_id botData) (TinyDb.recentBots (TinyDb.data st)))
    as [[i existing]|]; destruct H as [-> _]; split; reflexivity.
Qed.

(** X19. [trackBot] leaves the other bots alone: a record found afterwards
    under another id is the record that was there before, and every other
    record is still found when the bot tracked was known or fewer than 50
    records were held. *)
Theorem trackBot_keeps_others (other : string) :
  other <> TinyDb.d_id botData ->
  let before := TinyDb.data st in
  let after :=
    TinyDb.data (snd (TinyDb.trackBot writeFileSync accessedAt savedAt botData st)) in
  (forall record,
      TinyDb.getBot after other = Some record -> TinyDb.getBot before other = Some record)
  /\ ((TinyDb.getBot before (TinyDb.d_id botData) <> None
       \/ (List.length (TinyDb.recentBots before) < 50)%nat) ->
      TinyDb.getBot after other = TinyDb.getBot before other).
Proof.
  intros Hother before after.
  pose proof trackBot_bots as H. cbv zeta in H. fold after in H.
  unfold TinyDb.getBot, before. rewrite (findIndex_find (TinyDb.d_id botData)).
  set (tracked := fst (TinyDb.trackBot writeFileSync accessedAt savedAt botData st)) in *.
  assert (Hskip : forall rest,
             find (fun bot => String.eqb (TinyDb.id bot) other) (tracked :: rest)
             = find (fun bot => String.eqb (TinyDb.id bot) other) rest).
  { intros rest. simpl.
    destruct (String.eqb (TinyDb.id tracked) other) eqn:E; [|reflexivity].
    apply String.eqb_eq in E. exfalso. apply Hother. rewrite <- E.
    unfold tracked, TinyDb.trackBot.
    destruct (TinyDb.findIndex _ _) as [[i existing]|]; reflexivity. }
  destruct (TinyDb.findIndex (TinyDb.d_id botData) (TinyDb.recentBots (TinyDb.data st)))
    as [[i existing]|] eqn:Ef; destruct H as [_ Hafter]; rewrite Hafter.
  - rewrite Hskip, (find_removeAt _ Ef Hother). split; [intros r Hr; exact Hr | reflexivity].
  - split.
    + intros record Hr. apply find_firstn in Hr. rewrite Hskip in Hr. exact Hr.
    + intros [Hknown|Hshort]; [simpl in Hknown; congruence|].
      rewrite firstn_all2 by (simpl; lia). apply Hskip.
Qed.

End DatabaseFacts.

Lemma trackBot_keeps_others_witness :
  "b" <> TinyDb.d_id
           (TinyDb.mkBotData "a" TinyDb.Absent TinyDb.Absent TinyDb.Absent TinyDb.Absent
              TinyDb.Absent TinyDb.Absent TinyDb.Absent TinyDb.Absent)
  /\ forall record,
      TinyDb.getBot
        (TinyDb.data
           (snd (TinyDb.trackBot
                   (fun (_ : string) (_ : TinyDb.Data) (d : unit) =>
                      (Throw (A := unit) "EACCES", d))
                   "t1" "t2"
                   (TinyDb.mkBotData "a" TinyDb.Absent TinyDb.Absent TinyDb.Absent
                      TinyDb.Absent TinyDb.Absent TinyDb.Absent TinyDb.Absent TinyDb.Absent)
                   (TinyDb.mkState "bot-history.json" (TinyDb.mkData [] "t0") tt))))
        "b" = Some record ->
      TinyDb.getBot (TinyDb.mkData [] "t0") "b" = Some record.
Proof.
  split; [discriminate|].
  apply (proj1 (@trackBot_keeps_others unit
                  (fun (_ : string) (_ : TinyDb.Data) (d : unit) =>
                     (Throw (A := unit) "EACCES", d))
                  "t1" "t2"
                  (TinyDb.mkBotData "a" TinyDb.Absent TinyDb.Absent TinyDb.Absent
                     TinyDb.Absent TinyDb.Absent TinyDb.Absent TinyDb.Absent TinyDb.Absent)
                  (TinyDb.mkState "bot-history.json" (TinyDb.mkData [] "t0") tt)
                  "b" ltac:(discriminate))).
Defined.

Lemma trackBot_data (Disk : Type)
    (writeFileSync : string -> TinyDb.Data -> Disk -> Outcome unit * Disk)
    (accessedAt savedAt : string) (botData : TinyDb.BotData) (st : TinyDb.State Disk) :
  let bots := TinyDb.recentBots (TinyDb.data st) in
  let run := TinyDb.trackBot writeFileSync accessedAt savedAt botData st in
  fst run
  = match TinyDb.findIndex (TinyDb.d_id botData) bots with
    | Some (i, existing) => TinyDb.updatedBot accessedAt existing botData
    | None => TinyDb.newBot accessedAt botData
    end
  /\ TinyDb.data (snd run)
     = TinyDb.mkData
         match TinyDb.findIndex (TinyDb.d_id botData) bots with
         | Some (i, existing) =>
             TinyDb.updatedBot accessedAt existing botData :: TinyDb.removeAt i bots
         | None =>
             let added := TinyDb.newBot accessedAt botData :: bots in
             if (50 <? List.length added)%nat then Js.slice0 added 50 else added
         end
         savedAt
  /\ TinyDb.dbPath (snd run) = TinyDb.dbPath st.
Proof.
  intros bots run. unfold run, TinyDb.trackBot. fold bots.
  destruct (TinyDb.findIndex (TinyDb.d_id botData) bots) as [[i existing]|];
    cbn [fst snd]; rewrite (proj1 (saveToFile_data _ _ _)), (proj2 (saveToFile_data _ _ _));
    repeat split.
Qed.

(** X20. What [trackBot] returns and what the database then holds in memory
    do not depend on the file system: with a write that throws, the record
    returned and the records held are those of a run whose write succeeds, so
    a failed write goes unnoticed by the caller. *)
Theorem trackBot_ignores_write_failure (Disk1 Disk2 : Type)
    (write1 : string -> TinyDb.Data -> Disk1 -> Outcome unit * Disk1)
    (write2 : string -> TinyDb.Data -> Disk2 -> Outcome unit * Disk2)
    (accessedAt savedAt : string) (botData : TinyDb.BotData)
    (path : string) (db : TinyDb.Data) (disk1 : Disk1) (disk2 : Disk2) :
  let run1 :=
    TinyDb.trackBot write1 accessedAt savedAt botData (TinyDb.mkState path db disk1) in
  let run2 :=
    TinyDb.trackBot write2 accessedAt savedAt botData (TinyDb.mkState path db disk2) in
  fst run1 = fst run2
  /\ TinyDb.data (snd run1) = TinyDb.data (snd run2)
  /\ TinyDb.lastUpdated (TinyDb.data (snd run1)) = savedAt.
Proof.
  intros run1 run2.
  destruct (trackBot_data write1 accessedAt savedAt botData (TinyDb.mkState path db disk1))
    as (Hf1 & Hd1 & _).
  destruct (trackBot_data write2 accessedAt savedAt botData (TinyDb.mkState path db disk2))
    as (Hf2 & Hd2 & _).
  fold run1 in Hf1, Hd1. fold run2 in Hf2, Hd2.
  cbn [TinyDb.data TinyDb.recentBots] in *.
  rewrite Hf1, Hf2, Hd1, Hd2. repeat split.
Qed.

(** X21. Tracking a bot that is known merges what is given into what is
    stored, property by property: a property that the argument leaves out
    keeps its stored value, whatever the argument gives for the other
    properties, so an argument with the id alone changes nothing but the time
    and the count of the accesses; a property that the argument gives
    replaces the stored value, also when it is given as [undefined], which
    erases it. *)
Theorem trackBot_merges_metadata (Disk : Type)
    (writeFileSync : string -> TinyDb.Data -> Disk -> Outcome unit * Disk)
    (accessedAt savedAt : string) (botData : TinyDb.BotData) (st : TinyDb.State Disk)
    (known : TinyDb.BotRecord) :
  TinyDb.getBot (TinyDb.data st) (TinyDb.d_id botData) = Some known ->
  let tracked := fst (TinyDb.trackBot writeFileSync accessedAt savedAt botData st) in
  (botData = TinyDb.mkBotData (TinyDb.d_id botData) TinyDb.Absent TinyDb.Absent
                              TinyDb.Absent TinyDb.Absent TinyDb.Absent TinyDb.Absent
                              TinyDb.Absent TinyDb.Absent ->
   tracked
   = TinyDb.mkBotRecord (TinyDb.id known) (TinyDb.name known) (TinyDb.meetingUrl known)
       (TinyDb.meetingType known) (TinyDb.createdAt known) accessedAt
       (TinyDb.accessCount known + 1) (TinyDb.creator known) (TinyDb.participants known)
       (TinyDb.topics known) (TinyDb.extra known))
  /\ ((TinyDb.d_name botData = TinyDb.Absent -> TinyDb.name tracked = TinyDb.name known)
      /\ forall v, TinyDb.d_name botData = TinyDb.Present v -> TinyDb.name tracked = v)
  /\ ((TinyDb.d_meetingUrl botData = TinyDb.Absent ->
       TinyDb.meetingUrl tracked = TinyDb.meetingUrl known)
      /\ forall v, TinyDb.d_meetingUrl botData = TinyDb.Present v ->
                   TinyDb.meetingUrl tracked = v)
  /\ ((TinyDb.d_meetingType botData = TinyDb.Absent ->
       TinyDb.meetingType tracked = TinyDb.meetingType known)
      /\ forall v, TinyDb.d_meetingType botData = TinyDb.Present v ->
                   TinyDb.meetingType tracked = v)
  /\ ((TinyDb.d_createdAt botData = TinyDb.Absent ->
       TinyDb.createdAt tracked = TinyDb.createdAt known)
      /\ forall v, TinyDb.d_createdAt botData = TinyDb.Present v ->
                   TinyDb.createdAt tracked = v)
  /\ ((TinyDb.d_creator botData = TinyDb.Absent ->
       TinyDb.creator tracked = TinyDb.creator known)
      /\ forall v, TinyDb.d_creator botData = TinyDb.Present v ->
                   TinyDb.creator tracked = v)
  /\ ((TinyDb.d_participants botData = TinyDb.Absent ->
       TinyDb.participants tracked = TinyDb.participants known)
      /\ forall v, TinyDb.d_participants botData = TinyDb.Present v ->
                   TinyDb.participants tracked = v)
  /\ ((TinyDb.d_topics botData = TinyDb.Absent ->
       TinyDb.topics tracked = TinyDb.topics known)
      /\ forall v, TinyDb.d_topics botData = TinyDb.Present v ->
                   TinyDb.topics tracked = v)
  /\ ((TinyDb.d_extra botData = TinyDb.Absent ->
       TinyDb.extra tracked = TinyDb.extra known)
      /\ forall v, TinyDb.d_extra botData = TinyDb.Present v -> TinyDb.extra tracked = v)
  /\ TinyDb.id tracked = TinyDb.id known
  /\ TinyDb.lastAccessedAt tracked = accessedAt
  /\ TinyDb.accessCount tracked = TinyDb.accessCount known + 1.
Proof.
  intros Hknown tracked.
  destruct (trackBot_data writeFileSync accessedAt savedAt botData st) as (Hf & _ & _).
  fold tracked in Hf.
  unfold TinyDb.getBot in Hknown. rewrite findIndex_find in Hknown.
  destruct (TinyDb.findIndex (TinyDb.d_id botData) (TinyDb.recentBots (TinyDb.data st)))
    as [[i existing]|] eqn:Ef; [|discriminate].
  simpl in Hknown. injection Hknown as ->.
  pose proof (findIndex_id _ _ Ef) as Hid.
  rewrite Hf. unfold TinyDb.updatedBot. cbn [TinyDb.id TinyDb.name TinyDb.meetingUrl
    TinyDb.meetingType TinyDb.createdAt TinyDb.creator TinyDb.participants TinyDb.topics
    TinyDb.extra TinyDb.lastAccessedAt TinyDb.accessCount].
  split.
  - intros Hbare. rewrite Hbare. cbn [TinyDb.spread TinyDb.d_id TinyDb.d_name
      TinyDb.d_meetingUrl TinyDb.d_meetingType TinyDb.d_createdAt TinyDb.d_creator
      TinyDb.d_participants TinyDb.d_topics TinyDb.d_extra].
    rewrite Hid. reflexivity.
  - repeat split; try (intros Habsent; rewrite Habsent; reflexivity);
      try (intros v Hv; rewrite Hv; reflexivity).
    symmetry; exact Hid.
Qed.

Lemma trackBot_merges_metadata_witness :
  let known :=
    TinyDb.mkBotRecord "a" (Some "Standup") (Some "https://meet.example/1") (Some "sales")
                       None "t0" 3 None None (Some ["budget"]) None in
  let botData :=
    TinyDb.mkBotData "a" TinyDb.Absent TinyDb.Absent (TinyDb.Present None) TinyDb.Absent
                     TinyDb.Absent TinyDb.Absent (TinyDb.Present (Some ["goals"]))
                     TinyDb.Absent in
  let st := TinyDb.mkState "bot-history.json" (TinyDb.mkData [known] "t0") tt in
  let tracked :=
    fst (TinyDb.trackBot
           (fun (_ : string) (_ : TinyDb.Data) (d : unit) => (Return tt, d))
           "t1" "t2" botData st) in
  TinyDb.getBot (TinyDb.data st) (TinyDb.d_id botData) = Some known
  /\ TinyDb.meetingUrl tracked = Some "https://meet.example/1"
  /\ TinyDb.meetingType tracked = None.
Proof.
  intros known botData st tracked.
  split; [reflexivity|].
  split.
  - apply (proj1 (proj1 (proj2 (proj2
             (@trackBot_merges_metadata unit
                (fun (_ : string) (_ : TinyDb.Data) (d : unit) => (Return tt, d))
                "t1" "t2" botData st known eq_refl))))).
    reflexivity.
  - apply (proj2 (proj1 (proj2 (proj2 (proj2
             (@trackBot_merges_metadata unit
                (fun (_ : string) (_ : TinyDb.Data) (d : unit) => (Return tt, d))
                "t1" "t2" botData st known eq_refl)))))).
    reflexivity.
Defined.

(** X22. [updateSession] writes the ids of the five most recent bots of the
    database into the session, in their order; when the ids of the database
    are distinct, the list of the session has no duplicates, and keeps none
    through any later series of calls of [updateRecentBots]. *)
Theorem updateSession_recent (Store : Type) (db : TinyDb.Data) (ref : SessionRef)
    (w : World Store) (obj : SessionObject) :
  nth_error (sessions w) ref = Some obj ->
  let updated := snd (TinyDb.updateSession db (Some ref) w) in
  nth_error (sessions updated) ref
  = Some (mkSession (apiKey obj)
                    (Some (map TinyDb.id (firstn 5 (TinyDb.recentBots db)))))
  /\ (List.length (map TinyDb.id (firstn 5 (TinyDb.recentBots db))) <= 5)%nat
  /\ (NoDup (map TinyDb.id (TinyDb.recentBots db)) ->
      forall (trackBot : string -> BotMetadata -> Store -> Outcome unit * Store) calls,
      exists obj',
        nth_error (sessions (trackingRuns trackBot ref calls updated)) ref = Some obj'
        /\ forall ids, recentBotIds obj' = Some ids -> NoDup ids).
Proof.
  intros Hobj updated.
  assert (Hupdated : nth_error (sessions updated) ref
                     = Some (mkSession (apiKey obj)
                               (Some (map TinyDb.id (firstn 5 (TinyDb.recentBots db)))))).
  { unfold updated, TinyDb.updateSession, bind, getSession, setSession.
    rewrite Hobj. cbn [snd sessions].
    apply (@nth_error_replaceNth _ _ _ _ _ Hobj). }
  split; [exact Hupdated|].
  split; [rewrite length_map, length_firstn; lia|].
  intros Hnd trackBot calls.
  destruct (@trackingRuns_keeps _ trackBot ref calls updated _ Hupdated)
    as (obj' & Hobj' & Hkeep).
  exists obj'. split; [exact Hobj'|].
  apply Hkeep. intros ids Hids.
  assert (E : ids = firstn 5 (map TinyDb.id (TinyDb.recentBots db))).
  { rewrite firstn_map. cbn [recentBotIds] in Hids. congruence. }
  rewrite E. apply NoDup_firstn, Hnd.
Qed.

Lemma updateSession_recent_witness :
  nth_error (sessions oneSession) 0%nat = Some (mkSession "key" None)
  /\ nth_error
       (sessions
          (snd (TinyDb.updateSession
                  (TinyDb.mkData
                     [TinyDb.mkBotRecord "a" None None None None "t0" 1 None None None None]
                     "t0")
                  (Some 0%nat) oneSession)))
       0%nat
     = Some (mkSession "key" (Some ["a"])).
Proof.
  split; [reflexivity|].
  apply (proj1 (@updateSession_recent unit
                  (TinyDb.mkData
                     [TinyDb.mkBotRecord "a" None None None None "t0" 1 None None None None]
                     "t0")
                  0%nat oneSession (mkSession "key" None) eq_refl)).
Defined.

(** X23. [getMostAccessedBots] with a limit that is not negative gives
    records of the database in descending order of access count, as many as
    the limit allows, and no record left out has been accessed more often
    than a record given. *)
Theorem getMostAccessedBots_top (db : TinyDb.Data) (limit : Z) :
  0 <= limit ->
  let top := TinyDb.getMostAccessedBots db limit in
  List.length top = Nat.min (Z.to_nat limit) (List.length (TinyDb.recentBots db))
  /\ StronglySorted (fun a b => TinyDb.accessCount b <= TinyDb.accessCount a) top
  /\ exists others,
      Permutation (TinyDb.recentBots db) (top ++ others)
      /\ forall given other,
          In given top -> In other others ->
          TinyDb.accessCount other <= TinyDb.accessCount given.
Proof.
  intros Hlimit top. unfold top, TinyDb.getMostAccessedBots.
  rewrite slice0_firstn by exact Hlimit.
  set (key := fun bot => - TinyDb.accessCount bot).
  pose proof (sortByKey_sorted key (TinyDb.recentBots db)) as Hsorted.
  split; [rewrite length_firstn, sortByKey_length; reflexivity|].
  split.
  - pose proof (ascendingBy_firstn (Z.to_nat limit) Hsorted) as Hf.
    unfold ascendingBy in Hf.
    induction Hf as [|a l Hl IH Ha]; constructor; [exact IH|].
    eapply Forall_impl; [|exact Ha]. intros b Hb. unfold key in Hb. simpl in Hb. lia.
  - exists (skipn (Z.to_nat limit) (Js.sortByKey key (TinyDb.recentBots db))).
    split.
    + rewrite firstn_skipn. apply Permutation_sym, sortByKey_perm.
    + intros given other Hg Ho.
      pose proof (ascendingBy_split (Z.to_nat limit) Hsorted given other Hg Ho) as H.
      unfold key in H. lia.
Qed.

Lemma getMostAccessedBots_top_witness :
  0 <= 1
  /\ List.length
       (TinyDb.getMostAccessedBots
          (TinyDb.mkData
             [TinyDb.mkBotRecord "a" None None None None "t0" 1 None None None None;
              TinyDb.mkBotRecord "b" None None None None "t0" 7 None None None None]
             "t0") 1)
     = Nat.min (Z.to_nat 1) 2.
Proof.
  split; [lia|].
  apply (proj1 (@getMostAccessedBots_top
                  (TinyDb.mkData
                     [TinyDb.mkBotRecord "a" None None None None "t0" 1 None None None None;
                      TinyDb.mkBotRecord "b" None None None None "t0" 7 None None None None]
                     "t0") 1 ltac:(lia))).
Defined.

(** ** The table of phrases *)

Lemma string_length_append (a b : string) :
  String.length (a ++ b) = (String.length a + String.length b)%nat.
Proof. induction a as [|c a IH]; simpl; [reflexivity | rewrite IH; reflexivity]. Qed.

Lemma join_length (sub : list string) :
  Forall (fun w => (3 <= String.length w)%nat) sub ->
  sub <> [] ->
  (4 * List.length sub <= String.length (Js.join " " sub) + 1)%nat.
Proof.
  unfold Js.join. induction 1 as [|w sub Hw Hsub IH]; intros Hne; [congruence|].
  destruct sub as [|w' sub].
  - simpl. lia.
  - change (String.concat " " (w :: w' :: sub))
      with (w ++ " " ++ String.concat " " (w' :: sub))%string.
    rewrite !string_length_append.
    specialize (IH ltac:(discriminate)).
    change (String.length " ") with 1%nat.
    cbn [List.length] in *. lia.
Qed.

Lemma windows_from (size : nat) (words : list string) (phrase : string) :
  In phrase (Phrases.windows size words) ->
  exists sub,
    phrase = Js.join " " sub /\ List.length sub = size /\ incl sub words.
Proof.
  induction words as [|w words IH]; [contradiction|].
  cbn [Phrases.windows].
  destruct (size <=? List.length (w :: words))%nat eqn:E; [|contradiction].
  apply Nat.leb_le in E.
  intros [<-|Hin].
  - exists (firstn size (w :: words)). split; [reflexivity|]. split.
    + rewrite length_firstn. lia.
    + intros x Hx. rewrite <- (firstn_skipn size (w :: words)).
      apply in_or_app; left; exact Hx.
  - destruct (IH Hin) as (sub & Hp & Hl & Hi).
    exists sub. repeat split; try assumption.
    intros x Hx. right. apply Hi, Hx.
Qed.

Lemma longWords_long (text : string) :
  Forall (fun w => (3 <= String.length w)%nat) (Phrases.longWords text).
Proof.
  apply Forall_forall. intros w Hw. unfold Phrases.longWords in Hw.
  apply filter_In in Hw. destruct Hw as [_ Hw]. apply Nat.ltb_lt in Hw. lia.
Qed.

Lemma windows_long (size : nat) (text phrase : string) :
  In phrase (Phrases.windows size (Phrases.longWords text)) ->
  (4 * size <= String.length phrase + 1)%nat.
Proof.
  intros Hin. destruct (windows_from _ _ _ Hin) as (sub & -> & Hl & Hi).
  destruct sub as [|w sub].
  - simpl in Hl. subst size. lia.
  - rewrite <- Hl. apply join_length; [|discriminate].
    apply Forall_forall. intros x Hx.
    exact (proj1 (Forall_forall _ _) (longWords_long text) x (Hi x Hx)).
Qed.

Lemma countOf_bump (phrase spoken : string) (phrases : list (string * Z)) :
  countOf phrase (Phrases.bump spoken phrases)
  = countOf phrase phrases + (if String.eqb spoken phrase then 1 else 0).
Proof.
  unfold countOf. induction phrases as [|[key count] phrases IH]; simpl.
  - destruct (String.eqb spoken phrase); reflexivity.
  - destruct (String.eqb key spoken) eqn:Eks.
    + apply String.eqb_eq in Eks. subst key. simpl.
      destruct (String.eqb spoken phrase); [reflexivity | lia].
    + simpl. destruct (String.eqb key phrase) eqn:Ekp.
      * apply String.eqb_eq in Ekp. subst key.
        rewrite String.eqb_sym, Eks. lia.
      * exact IH.
Qed.

Lemma bump_keys (spoken : string) (phrases : list (string * Z)) :
  (forall phrase,
     In phrase (map fst (Phrases.bump spoken phrases))
     <-> In phrase (map fst phrases) \/ phrase = spoken)
  /\ (NoDup (map fst phrases) -> NoDup (map fst (Phrases.bump spoken phrases))).
Proof.
  induction phrases as [|[key count] phrases [IHin IHnd]]; simpl.
  - split; [intros phrase; split; intros H; intuition congruence|].
    intros _. constructor; [intros []|constructor].
  - destruct (String.eqb key spoken) eqn:Eks.
    + apply String.eqb_eq in Eks. subst key. simpl.
      split; [intros phrase; split; intros H; intuition congruence | auto].
    + simpl. split.
      * intros phrase. rewrite IHin. intuition.
      * intros Hnd. inversion Hnd as [|? ? Hnot Hrest]; subst.
        constructor; [|apply IHnd, Hrest].
        rewrite IHin. intros [Hin| ->]; [exact (Hnot Hin)|].
        rewrite String.eqb_refl in Eks. discriminate.
Qed.

Lemma countWindows_bumps (spoken : list string) :
  Forall (fun phrase => (5 < String.length phrase)%nat) spoken ->
  forall phrases,
    let counted :=
      fold_left
        (fun phrases phrase =>
           if (5 <? String.length phrase)%nat then Phrases.bump phrase phrases
           else phrases)
        spoken phrases in
    (NoDup (map fst phrases) -> NoDup (map fst counted))
    /\ (forall phrase,
          In phrase (map fst counted) <-> In phrase (map fst phrases) \/ In phrase spoken)
    /\ (forall phrase,
          countOf phrase counted
          = countOf phrase phrases + Z.of_nat (count_occ string_dec spoken phrase)).
Proof.
  induction 1 as [|first spoken Hlong Hrest IH]; intros phrases; cbn zeta.
  - simpl. split; [auto|]. split; [intros phrase; tauto | intros phrase; lia].
  - cbn [fold_left].
    apply Nat.ltb_lt in Hlong. rewrite Hlong.
    destruct (IH (Phrases.bump first phrases)) as (Hnd & Hin & Hcount).
    destruct (bump_keys first phrases) as [Hbin Hbnd].
    split; [intros H; apply Hnd, Hbnd, H|].
    split.
    + intros phrase. rewrite Hin, Hbin. simpl. intuition.
    + intros phrase. rewrite Hcount, countOf_bump. simpl.
      destruct (string_dec first phrase) as [->|Hne].
      * rewrite String.eqb_refl. lia.
      * apply String.eqb_neq in Hne. rewrite Hne. lia.
Qed.

(** X24. The table of [findRepeatedPhrases] counts the runs of two and of
    three adjacent words of more than two characters: each run is a key of
    the table, once, with the number of its occurrences; and every run is at
    least seven characters long, so the test that a phrase is longer than
    five characters rejects none. *)
Theorem findRepeatedPhrases_counts (text : string) :
  let words := Phrases.longWords text in
  let spoken := Phrases.windows 2 words ++ Phrases.windows 3 words in
  let table := Phrases.findRepeatedPhrases text in
  NoDup (map fst table)
  /\ (forall phrase, In phrase (map fst table) <-> In phrase spoken)
  /\ (forall phrase,
        countOf phrase table = Z.of_nat (count_occ string_dec spoken phrase))
  /\ (forall phrase, In phrase spoken -> (7 <= String.length phrase)%nat).
Proof.
  intros words spoken table.
  assert (Hlong : forall size, (2 <= size)%nat ->
            Forall (fun phrase => (5 < String.length phrase)%nat)
                   (Phrases.windows size words)).
  { intros size Hsize. apply Forall_forall. intros phrase Hin.
    pose proof (windows_long _ _ _ Hin). lia. }
  destruct (countWindows_bumps (Hlong 2%nat ltac:(lia)) []) as (Hnd2 & Hin2 & Hc2).
  destruct (countWindows_bumps (Hlong 3%nat ltac:(lia))
              (Phrases.countWindows 2 words [])) as (Hnd3 & Hin3 & Hc3).
  fold (Phrases.countWindows 2 words []) in Hnd2, Hin2, Hc2.
  fold (Phrases.countWindows 3 words (Phrases.countWindows 2 words [])) in Hnd3, Hin3, Hc3.
  change (Phrases.countWindows 3 words (Phrases.countWindows 2 words []))
    with table in Hnd3, Hin3, Hc3.
  split; [apply Hnd3, Hnd2; constructor|].
  split; [|split].
  - intros phrase. unfold spoken. rewrite Hin3, Hin2, in_app_iff. simpl. tauto.
  - intros phrase. unfold spoken. rewrite Hc3, Hc2, count_occ_app. unfold countOf. simpl. lia.
  - intros phrase Hin. unfold spoken in Hin. apply in_app_or in Hin.
    destruct Hin as [Hin|Hin]; pose proof (windows_long _ _ _ Hin); lia.
Qed.

(** ** The metadata drawn from a response *)

(** X25. For a response with a bot, the topics that [extractBotMetadata]
    gives are never an empty list: they are left out when the transcript
    holds none of the six keywords, and are otherwise the keywords that occur
    in the transcript in lower case, each once. *)
Theorem extractBotMetadata_topics (apiResponse : ApiResponse) (bot : Bot)
    (transcripts : list Transcript) :
  bot_data apiResponse = Some (mkBotData (Some bot) transcripts) ->
  let spoken :=
    Js.toLowerCase (Js.join " " (map (fun t => Js.join " " (words t)) transcripts)) in
  let occurs := fun keyword => In keyword commonKeywords
                               /\ Js.includes spoken keyword = true in
  (Search.topics (extractBotMetadata apiResponse) = None
   <-> forall keyword, ~ occurs keyword)
  /\ forall found,
      Search.topics (extractBotMetadata apiResponse) = Some found ->
      found <> [] /\ NoDup found /\ forall keyword, In keyword found <-> occurs keyword.
Proof.
  intros Hbot spoken occurs. unfold extractBotMetadata. rewrite Hbot.
  cbn [Search.topics]. fold spoken.
  set (found0 := filter (fun keyword => Js.includes spoken (Js.toLowerCase keyword))
                        commonKeywords).
  assert (Hin : forall keyword, In keyword found0 <-> occurs keyword).
  { intros keyword. unfold found0, occurs. rewrite filter_In.
    split; intros [Hk Hi]; split; try exact Hk;
      (assert (Hlow : Js.toLowerCase keyword = keyword)
         by (unfold commonKeywords in Hk; simpl in Hk;
             repeat (destruct Hk as [<-|Hk]; [reflexivity|]); contradiction));
      [rewrite <- Hlow | rewrite Hlow]; exact Hi. }
  assert (Hnd : NoDup found0).
  { unfold found0. apply NoDup_filter. unfold commonKeywords.
    repeat (constructor; [simpl; intuition discriminate|]). constructor. }
  split.
  - split.
    + intros Hnone keyword Hocc. apply Hin in Hocc.
      destruct found0; [contradiction | discriminate].
    + intros Hno. destruct found0 as [|k rest] eqn:E; [reflexivity|].
      exfalso. apply (Hno k), Hin. left; reflexivity.
  - intros found Hfound.
    destruct found0 as [|k rest] eqn:E; [discriminate|].
    injection Hfound as <-. split; [discriminate|]. split; assumption.
Qed.

Lemma extractBotMetadata_topics_witness :
  bot_data sampleMeeting
  = Some (mkBotData
            (Some (mkBot "Standup" "https://meet.example/1" "2024-01-01" None None))
            [ mkTranscript "Alice" 10 None ["hello"];
              mkTranscript "Alice" 400 None ["world"] ])
  /\ (Search.topics (extractBotMetadata sampleMeeting) = None
      <-> forall keyword,
            ~ (In keyword commonKeywords
               /\ Js.includes (Js.toLowerCase "hello world") keyword = true)).
Proof.
  split; [reflexivity|].
  apply (proj1 (@extractBotMetadata_topics sampleMeeting
                  (mkBot "Standup" "https://meet.example/1" "2024-01-01" None None)
                  [ mkTranscript "Alice" 10 None ["hello"];
                    mkTranscript "Alice" 400 None ["world"] ]
                  eq_refl)).
Defined.
